(** * Race analysis: LTHR estimator and race dashboard

    A shallow embedding of the analytical core of [LTHREstimate.py] and
    [race_analysis_app.py]:

    - [parse_fit_file]: admission of FIT record messages, table
      construction, sort by timestamp, positional reindexing;
    - [calculate_lthr_from_last_20_minutes]: trailing-window mean and the
      95 % threshold;
    - [calculate_heart_rate_zones]: the five training zones;
    - [classify_zone]: the zone of one heart-rate sample;
    - the custom export built in [main] (on a store of table objects);
    - the marker choice of [create_scatterplot].

    Python [float] is IEEE-754 binary64; it is modelled by the Standard
    Library's [spec_float] at precision 53 and maximal exponent 1024, so
    every product, quotient and truncation below is the one the
    interpreter performs, bit for bit. *)

From Stdlib Require Import ZArith Lia List String Ascii Bool.
From Stdlib Require Import Floats DecimalString DecimalN.
From Stdlib Require Import Sorting.Permutation Sorting.Sorted.
From stdpp Require Import base option list sorting strings gmap.

Local Open Scope string_scope.
Local Open Scope list_scope.
Local Open Scope Z_scope.

(** ** Exceptions *)

Inductive exn := KeyError | IndexError | TypeError | ValueError | OverflowError.

Inductive res (A : Type) : Type :=
| Ok (a : A)
| Raise (e : exn).
Arguments Ok {A} a.
Arguments Raise {A} e.

Definition rbind {A B} (m : res A) (k : A -> res B) : res B :=
  match m with
  | Ok a => k a
  | Raise e => Raise e
  end.

Notation "'let*' x ':=' m 'in' k" := (rbind m (fun x => k))
  (at level 10, x name, m at level 100, k at level 200).

(** ** Python floats *)

Module PyFloat.

Definition prec : Z := 53.
Definition emax : Z := 1024.

Definition float := spec_float.

Definition mul : float -> float -> float := SFmul prec emax.
Definition div : float -> float -> float := SFdiv prec emax.

(** [float(n)] for a Python [int]: round to nearest, ties to even. *)
Definition of_int (n : Z) : float := binary_normalize prec emax n 0 false.

(** A decimal literal [n/d] written in the source, e.g. [0.95] is
    [lit 95 100]: the binary64 number nearest to the rational. Both
    operands are exact, so the single rounding of the quotient is the
    rounding of the literal. *)
Definition lit (n d : Z) : float := div (of_int n) (of_int d).

Definition is_nan (x : float) : bool :=
  match x with
  | S754_nan => true
  | _ => false
  end.

Definition is_finite (x : float) : bool :=
  match x with
  | S754_zero _ | S754_finite _ _ _ => true
  | _ => false
  end.

(** [int(x)]: truncation toward zero; [ValueError] on NaN and
    [OverflowError] on an infinity. *)
Definition to_int (x : float) : res Z :=
  match x with
  | S754_zero _ => Ok 0
  | S754_finite s m e =>
      Ok (cond_Zopp s
            (match e with
             | Zneg p => Z.shiftr (Zpos m) (Zpos p)
             | _ => Z.shiftl (Zpos m) e
             end))
  | S754_infinity _ => Raise OverflowError
  | S754_nan => Raise ValueError
  end.

End PyFloat.

Abbreviation float := PyFloat.float.
Arguments PyFloat.of_int : simpl never.
Arguments PyFloat.mul : simpl never.
Arguments PyFloat.div : simpl never.
Arguments PyFloat.lit : simpl never.
Infix "⊛" := PyFloat.mul (at level 40, left associativity).
Infix "⊘" := PyFloat.div (at level 40, left associativity).

(** ** Ordered dictionaries

    A Python [dict] keeps its keys in insertion order; assigning to an
    existing key keeps the key's position. *)

Section Dict.
Context {V : Type}.

Definition dict := list (string * V).

Fixpoint dict_get (k : string) (d : dict) : option V :=
  match d with
  | [] => None
  | (k', v) :: d' => if String.eqb k k' then Some v else dict_get k d'
  end.

Fixpoint dict_set (k : string) (v : V) (d : dict) : dict :=
  match d with
  | [] => [(k, v)]
  | (k', v') :: d' =>
      if String.eqb k k' then (k, v) :: d' else (k', v') :: dict_set k v d'
  end.

Definition dict_in (k : string) (d : dict) : bool :=
  match dict_get k d with
  | Some _ => true
  | None => false
  end.

Definition dict_keys (d : dict) : list string := map fst d.
End Dict.
Arguments dict V : clear implicits.

(** ** Band generator: [calculate_heart_rate_zones] *)

Record zone_info := {
  name : string;
  range : Z * Z;
  percentage : string
}.

Definition pct (lthr : float) (n : Z) : res Z :=
  PyFloat.to_int (lthr ⊛ PyFloat.lit n 100).

Definition calculate_heart_rate_zones (lthr : float) : res (dict zone_info) :=
  let* z1l := pct lthr 62 in
  let* z1h := pct lthr 77 in
  let* z2l := pct lthr 77 in
  let* z2h := pct lthr 86 in
  let* z3l := pct lthr 86 in
  let* z3h := pct lthr 91 in
  let* z4l := pct lthr 91 in
  let* z4h := pct lthr 95 in
  let* z5l := pct lthr 95 in
  let* z5h := pct lthr 103 in
  Ok [ ("Z1", {| name := "Zone 1 (Active Recovery)"; range := (z1l, z1h);
                 percentage := "62-77% of LTHR" |});
       ("Z2", {| name := "Zone 2 (Aerobic Base)"; range := (z2l, z2h);
                 percentage := "77-86% of LTHR" |});
       ("Z3", {| name := "Zone 3 (Tempo)"; range := (z3l, z3h);
                 percentage := "86-91% of LTHR" |});
       ("Z4", {| name := "Zone 4 (Lactate Threshold)"; range := (z4l, z4h);
                 percentage := "91-95% of LTHR" |});
       ("Z5", {| name := "Zone 5 (VO2 Max)"; range := (z5l, z5h);
                 percentage := "95-103% of LTHR" |}) ].

Definition zone_ranges (zs : dict zone_info) : list (string * (Z * Z)) :=
  map (fun kz => (fst kz, range (snd kz))) zs.

(** ** Telemetry values and tables

    A FIT field value as the decoder delivers it: a datetime (whole
    seconds, the resolution of the FIT [date_time] type), an integer, a
    float, text, or no value ([None], which a table shows as NaN). *)

Inductive value :=
| VTime (t : Z)
| VInt (n : Z)
| VFloat (x : float)
| VStr (s : string)
| VNaN.

(** One field of a record message: [(field.name, field.value)]. *)
Definition field : Type := string * value.
Definition record : Type := list field.

Definition RECORD_FIELDS : list string := [
  "timestamp"; "heart_rate"; "cadence"; "speed"; "distance";
  "power"; "altitude"; "temperature"; "position_lat"; "position_long";
  "enhanced_speed"; "enhanced_altitude"; "grade"; "calories";
  "accumulated_power"; "left_right_balance"; "gps_accuracy";
  "vertical_oscillation"; "stance_time_percent"; "stance_time";
  "activity_type"; "left_torque_effectiveness"; "right_torque_effectiveness";
  "left_pedal_smoothness"; "right_pedal_smoothness"; "combined_pedal_smoothness";
  "time_from_course"; "cycle_length"; "total_cycles"; "compressed_speed_distance";
  "resistance"; "time_in_hr_zone"; "time_in_speed_zone"; "time_in_cadence_zone";
  "time_in_power_zone"; "repetition_num"; "min_heart_rate"; "max_heart_rate";
  "avg_heart_rate"; "max_speed"; "avg_speed"; "total_calories"; "fat_calories";
  "avg_cadence"; "max_cadence"; "avg_power"; "max_power"; "total_ascent";
  "total_descent"; "training_stress_score"; "intensity_factor"; "normalized_power";
  "left_right_balance_100"; "step_length"; "avg_vertical_oscillation";
  "avg_stance_time_percent"; "avg_stance_time"; "fractional_cadence" ].

Definition str_in (k : string) (l : list string) : bool :=
  existsb (String.eqb k) l.
Arguments str_in : simpl never.

(** The inner loop of [parse_fit_file]: one field goes into the
    [data_point] when its name is on the list; the [data_point] of a
    record starts empty. *)
Definition collect (dp : dict value) (f : field) : dict value :=
  if str_in (fst f) RECORD_FIELDS then dict_set (fst f) (snd f) dp else dp.

Definition data_point (r : record) : dict value := fold_left collect r [].

(** The outer loop: [all_data], in input order. *)
Definition all_data (rs : list record) : list (dict value) :=
  List.filter (dict_in "timestamp") (map data_point rs).

(** A table: column labels, row labels, and the rows, each holding one
    cell per column. *)
Record DataFrame := {
  columns : list string;
  index : list nat;
  rows : list (dict value)
}.

Definition len (df : DataFrame) : nat := length (rows df).

Definition cell (c : string) (row : dict value) : value :=
  default VNaN (dict_get c row).

(** [pd.DataFrame(list_of_dicts)]: the columns are the keys in order of
    first appearance, a key a dict lacks gives a NaN cell, and the rows
    are labelled from zero. *)
Definition add_key (cols : list string) (k : string) : list string :=
  if str_in k cols then cols else cols ++ [k].

Definition add_keys (cols : list string) (dp : dict value) : list string :=
  fold_left add_key (dict_keys dp) cols.

Definition union_keys (dps : list (dict value)) : list string :=
  fold_left add_keys dps [].

Definition fill (cols : list string) (dp : dict value) : dict value :=
  map (fun c => (c, cell c dp)) cols.

Definition DataFrame_new (dps : list (dict value)) : DataFrame :=
  let cols := union_keys dps in
  {| columns := cols; index := seq 0 (length dps); rows := map (fill cols) dps |}.

(** [df[c]] for reading: the cells of one column, [KeyError] when the
    table has no such column. *)
Definition getitem (df : DataFrame) (c : string) : res (list value) :=
  if str_in c (columns df) then Ok (map (cell c) (rows df)) else Raise KeyError.

(** [df[c] = cells]: replaces the column or appends it after the others. *)
Definition setitem (df : DataFrame) (c : string) (cells : list value) : DataFrame :=
  {| columns := if str_in c (columns df) then columns df else columns df ++ [c];
     index := index df;
     rows := zip_with (fun row v => dict_set c v row) (rows df) cells |}.

Fixpoint mapM {A B} (f : A -> res B) (l : list A) : res (list B) :=
  match l with
  | [] => Ok []
  | x :: l' =>
      let* y := f x in
      let* ys := mapM f l' in
      Ok (y :: ys)
  end.

(** [pd.to_datetime] on a cell of the timestamp column. The decoder
    delivers the timestamp of a record message as a datetime, which the
    conversion keeps. Other payloads are outside the FIT profile (an
    invalid timestamp, which pandas would turn into NaT, is one): the
    model has no NaT and sends them to the failure path of
    [parse_fit_file]. *)
Definition to_datetime (v : value) : res value :=
  match v with
  | VTime t => Ok (VTime t)
  | _ => Raise TypeError
  end.

Definition as_time (v : value) : res Z :=
  match v with
  | VTime t => Ok t
  | _ => Raise TypeError
  end.

(** Rows (or labels) picked by position, [take]/[iloc[positions]]. *)
Fixpoint take_at {A} (positions : list nat) (l : list A) : list A :=
  match positions with
  | [] => []
  | i :: positions' =>
      match l !! i with
      | Some x => x :: take_at positions' l
      | None => take_at positions' l
      end
  end.

(** [semicircles * (180 / 2**31)] on one cell. *)
Definition semicircles_to_degrees (v : value) : res value :=
  let k := PyFloat.of_int 180 ⊘ PyFloat.of_int (2 ^ 31) in
  match v with
  | VInt n => Ok (VFloat (PyFloat.of_int n ⊛ k))
  | VFloat x => Ok (VFloat (x ⊛ k))
  | VNaN => Ok VNaN
  | _ => Raise TypeError
  end.

Definition convert_column (c : string) (df : DataFrame) : res DataFrame :=
  if str_in c (columns df) then
    let* cells := getitem df c in
    let* cells' := mapM semicircles_to_degrees cells in
    Ok (setitem df c cells')
  else Ok df.

Section Normalizer.

(** [sort_values] is called with its default [kind='quicksort']: numpy's
    argsort, of which the table code relies on one thing, that the
    positions it returns are a rearrangement of [0 .. n-1] that puts the
    keys in non-decreasing order. The implementation is the library's. *)
Variable argsort : list Z -> list nat.

Definition sort_values_timestamp (df : DataFrame) : res DataFrame :=
  let* cells := getitem df "timestamp" in
  let* keys := mapM as_time cells in
  let positions := argsort keys in
  Ok {| columns := columns df;
        index := take_at positions (index df);
        rows := take_at positions (rows df) |}.

Definition reset_index_drop (df : DataFrame) : DataFrame :=
  {| columns := columns df; index := seq 0 (len df); rows := rows df |}.

(** The body of the [try] block of [parse_fit_file], on the decoded
    record messages. *)
Definition parse_fit_file_try (rs : list record) : res (option DataFrame) :=
  let all := all_data rs in
  match all with
  | [] => Ok None
  | _ =>
      let df := DataFrame_new all in
      let* cells := getitem df "timestamp" in
      let* cells' := mapM to_datetime cells in
      let df := setitem df "timestamp" cells' in
      let* df := sort_values_timestamp df in
      let df := reset_index_drop df in
      let* df := convert_column "position_lat" df in
      let* df := convert_column "position_long" df in
      Ok (Some df)
  end.

(** [except Exception: ... return None]. *)
Definition parse_fit_file (rs : list record) : option DataFrame :=
  match parse_fit_file_try rs with
  | Ok r => r
  | Raise _ => None
  end.

End Normalizer.

(** ** Threshold estimator: [calculate_lthr_from_last_20_minutes] *)

(** [s.iloc[i]] for [i = 0] (first) and [i = -1] (last). *)
Definition iloc {A} (l : list A) (i : Z) : res A :=
  let n := Z.of_nat (length l) in
  let j := if i <? 0 then n + i else i in
  if (0 <=? j) && (j <? n) then
    match l !! Z.to_nat j with
    | Some x => Ok x
    | None => Raise IndexError
    end
  else Raise IndexError.

Definition isna (v : value) : bool :=
  match v with
  | VNaN => true
  | _ => false
  end.

Definition dropna (s : list value) : list value :=
  List.filter (fun v => negb (isna v)) s.

(** The heart-rate field of a record message is integral (beats per
    minute); the mean below is the one of an integral column, whose sum
    is exact. Other payloads are outside the FIT profile. *)
Definition as_int (v : value) : res Z :=
  match v with
  | VInt n => Ok n
  | _ => Raise TypeError
  end.

Definition sumZ (l : list Z) : Z := fold_right Z.add 0 l.

(** [Series.mean()] after [dropna()]: NaN on no value, else sum over
    count. *)
Definition mean (s : list value) : res float :=
  match s with
  | [] => Ok S754_nan
  | _ =>
      let* ns := mapM as_int s in
      Ok (PyFloat.of_int (sumZ ns) ⊘ PyFloat.of_int (Z.of_nat (length ns)))
  end.

(** [df[mask]]: the rows (and their labels) where the mask holds. *)
Fixpoint select {A} (mask : list bool) (l : list A) : list A :=
  match mask, l with
  | b :: mask', x :: l' => if b then x :: select mask' l' else select mask' l'
  | _, _ => []
  end.

Definition boolean_index (df : DataFrame) (mask : list bool) : DataFrame :=
  {| columns := columns df;
     index := select mask (index df);
     rows := select mask (rows df) |}.

Definition TWENTY_MINUTES : Z := 20 * 60.

(** [df[df['timestamp'] >= last_20_min_start]]. *)
Definition last_20_min (df : DataFrame) (last_20_min_start : Z) : res DataFrame :=
  let* cells := getitem df "timestamp" in
  let* mask := mapM (fun v => let* t := as_time v in Ok (last_20_min_start <=? t)) cells in
  Ok (boolean_index df mask).

(** [if len(last_20_min_data) == 0: last_20_min_data = df]. *)
Definition or_all_data (last_20_min_data df : DataFrame) : DataFrame :=
  if Nat.eqb (len last_20_min_data) 0 then df else last_20_min_data.

Definition estimate : Type := option float * option float * option float.

Definition none3 : estimate := (None, None, None).

Definition calculate_lthr_from_last_20_minutes (odf : option DataFrame) : res estimate :=
  match odf with
  | None => Ok none3
  | Some df =>
      if Nat.eqb (len df) 0 then Ok none3
      else if negb (str_in "heart_rate" (columns df)) then Ok none3
      else
        let* hr := getitem df "heart_rate" in
        if forallb isna hr then Ok none3
        else
          let* ts := getitem df "timestamp" in
          let* v0 := iloc ts 0 in
          let* start_time := as_time v0 in
          let* v1 := iloc ts (-1) in
          let* end_time := as_time v1 in
          let total_duration := end_time - start_time in
          let total_duration_minutes :=
            PyFloat.of_int total_duration ⊘ PyFloat.of_int 60 in
          let last_20_min_start := end_time - TWENTY_MINUTES in
          let* last_20_min_data := last_20_min df last_20_min_start in
          let last_20_min_data := or_all_data last_20_min_data df in
          let* hr20 := getitem last_20_min_data "heart_rate" in
          let* avg_hr_last_20min := mean (dropna hr20) in
          if PyFloat.is_nan avg_hr_last_20min then Ok none3
          else
            let lthr := avg_hr_last_20min ⊛ PyFloat.lit 95 100 in
            Ok (Some avg_hr_last_20min, Some lthr, Some total_duration_minutes)
  end.

(** ** Sample classifier: [classify_zone]

    The closure defined in [main]; [zones] is the dictionary it captures. *)

Definition in_range (hr : Z) (z : zone_info) : bool :=
  (fst (range z) <=? hr) && (hr <=? snd (range z)).

Definition dict_getitem {V} (k : string) (d : dict V) : res V :=
  match dict_get k d with
  | Some v => Ok v
  | None => Raise KeyError
  end.

Definition classify_zone (zones : dict zone_info) (hr : value) : res string :=
  if isna hr then Ok "No Data"
  else
    let* v := as_int hr in
    match List.find (fun kz => in_range v (snd kz)) zones with
    | Some (zone_key, _) => Ok zone_key
    | None =>
        let* z5 := dict_getitem "Z5" zones in
        Ok (if snd (range z5) <? v then "Above Z5" else "Below Z1")
    end.

(** ** Custom export, on a store of table objects

    [df] and [export_df] are references to table objects; assignment to a
    column mutates the object the reference points to. *)

Abbreviation loc := positive.
Abbreviation store := (gmap positive DataFrame).

(** A computation on the store. An exception ends the computation and
    leaves the store as it was when raised. *)
Definition M (A : Type) : Type := store -> res A * store.

Definition ret {A} (a : A) : M A := fun st => (Ok a, st).

Definition bind {A B} (m : M A) (k : A -> M B) : M B :=
  fun st =>
    match m st with
    | (Ok a, st') => k a st'
    | (Raise e, st') => (Raise e, st')
    end.

Notation "'do*' x ':=' m 'in' k" := (bind m (fun x => k))
  (at level 10, x name, m at level 100, k at level 200).

Definition lift {A} (r : res A) : M A := fun st => (r, st).

Definition load (l : loc) : M DataFrame :=
  fun st =>
    match st !! l with
    | Some df => (Ok df, st)
    | None => (Raise KeyError, st)
    end.

Definition alloc (df : DataFrame) : M loc :=
  fun st => let l := fresh (dom st) in (Ok l, <[l := df]> st).

Definition write (l : loc) (df : DataFrame) : M unit :=
  fun st => (Ok tt, <[l := df]> st).

(** [df[list_of_columns]]: a new table object with these columns. *)
Definition getitem_columns (l : loc) (cols : list string) : M loc :=
  do* df := load l in
  if forallb (fun c => str_in c (columns df)) cols then
    alloc {| columns := cols; index := index df; rows := map (fill cols) (rows df) |}
  else lift (Raise KeyError).

(** [obj.copy()]: a new table object with the same contents. *)
Definition copy (l : loc) : M loc :=
  do* df := load l in alloc df.

(** [obj[c] = cells] on the object behind a reference. *)
Definition setitem_at (l : loc) (c : string) (cells : list value) : M unit :=
  do* df := load l in write l (setitem df c cells).

Definition getitem_at (l : loc) (c : string) : M (list value) :=
  do* df := load l in lift (getitem df c).

Definition add_hr_zone (export_df : loc) (zones : dict zone_info) (lthr : float) : M unit :=
  do* hr := getitem_at export_df "heart_rate" in
  do* labels := lift (mapM (classify_zone zones) hr) in
  do* _ := setitem_at export_df "hr_zone" (map VStr labels) in
  setitem_at export_df "lthr" (map (fun _ => VFloat lthr) hr).

Definition elapsed_seconds (t0 : Z) (v : value) : res value :=
  let* t := as_time v in Ok (VFloat (PyFloat.of_int (t - t0))).

Definition div60 (v : value) : res value :=
  match v with
  | VFloat x => Ok (VFloat (x ⊘ PyFloat.of_int 60))
  | _ => Raise TypeError
  end.

Definition add_time_elapsed (export_df : loc) : M unit :=
  do* ts := getitem_at export_df "timestamp" in
  do* v0 := lift (iloc ts 0) in
  do* t0 := lift (as_time v0) in
  do* secs := lift (mapM (elapsed_seconds t0) ts) in
  do* _ := setitem_at export_df "time_elapsed_seconds" secs in
  do* secs' := getitem_at export_df "time_elapsed_seconds" in
  do* mins := lift (mapM div60 secs') in
  setitem_at export_df "time_elapsed_minutes" mins.

(** The block under [if selected_fields:] of [main], up to the table
    handed to [to_csv]. *)
Definition build_export (df : loc) (selected_fields : list string)
    (zones : dict zone_info) (lthr : option float) : M loc :=
  do* picked := getitem_columns df selected_fields in
  do* export_df := copy picked in
  do* _ := match lthr with
           | Some x =>
               if str_in "heart_rate" selected_fields
               then add_hr_zone export_df zones x else ret tt
           | None => ret tt
           end in
  do* _ := if str_in "timestamp" selected_fields
           then add_time_elapsed export_df else ret tt in
  ret export_df.

(** ** Comparative projector: the marker of [create_scatterplot] *)

(** [str.isspace] on the ASCII range: tab to carriage return, the four
    separators 28 to 31, and the space. *)
Definition is_space (a : ascii) : bool :=
  let n := nat_of_ascii a in
  ((9 <=? n) && (n <=? 13) || (28 <=? n) && (n <=? 32))%nat.

Definition lower_ascii (a : ascii) : ascii :=
  let n := nat_of_ascii a in
  if ((65 <=? n) && (n <=? 90))%nat then ascii_of_nat (n + 32) else a.

Fixpoint lower (s : string) : string :=
  match s with
  | EmptyString => EmptyString
  | String a s' => String (lower_ascii a) (lower s')
  end.

Fixpoint lstrip (s : string) : string :=
  match s with
  | EmptyString => EmptyString
  | String a s' => if is_space a then lstrip s' else s
  end.

Fixpoint rstrip (s : string) : string :=
  match s with
  | EmptyString => EmptyString
  | String a s' =>
      match rstrip s' with
      | EmptyString => if is_space a then EmptyString else String a EmptyString
      | r => String a r
      end
  end.

Definition strip (s : string) : string := rstrip (lstrip s).

Record marker := {
  color : string;
  size : Z;
  symbol : string
}.

Definition PODIUM_COLORS : list (Z * string) :=
  [ (1, "#FFD700"); (2, "#C0C0C0"); (3, "#CD7F32") ].
Definition DEFAULT_COLOR : string := "#1f77b4".
Definition HIGHLIGHT_COLOR : string := "#FF0000".

Definition podium (position : Z) : option string :=
  option_map snd (List.find (fun kv => Z.eqb position (fst kv)) PODIUM_COLORS).

(** Truth value of [highlighted_name]: [None] and the empty string are
    false. *)
Definition truthy (s : option string) : bool :=
  match s with
  | Some (String _ _) => true
  | _ => false
  end.

Definition name_matches (name : string) (highlighted_name : option string) : bool :=
  match highlighted_name with
  | Some h => String.eqb (lower (strip name)) (lower (strip h))
  | None => false
  end.

Definition point_marker (highlighted_name : option string)
    (position : Z) (name : string) : marker :=
  if truthy highlighted_name && name_matches name highlighted_name then
    {| color := HIGHLIGHT_COLOR; size := 15; symbol := "star" |}
  else
    match podium position with
    | Some c => {| color := c; size := 12; symbol := "circle" |}
    | None => {| color := DEFAULT_COLOR; size := 8; symbol := "circle" |}
    end.

(** ** Vocabulary of the statements *)

(** The raw bag holds a field named [timestamp]. *)
Definition has_timestamp (r : record) : bool :=
  existsb (fun f : field => String.eqb "timestamp" (fst f)) r.

(** The payload types of the FIT profile on the fields the pipeline
    computes with: a datetime for [timestamp], an integer or no value
    for [heart_rate], a number or no value for the two positions. *)
Definition profile_field (f : field) : bool :=
  if String.eqb (fst f) "timestamp" then
    match snd f with VTime _ => true | _ => false end
  else if String.eqb (fst f) "heart_rate" then
    match snd f with VInt _ | VNaN => true | _ => false end
  else if String.eqb (fst f) "position_lat" || String.eqb (fst f) "position_long" then
    match snd f with VInt _ | VFloat _ | VNaN => true | _ => false end
  else true.

Definition profile_record (r : record) : bool := forallb profile_field r.

(** A [data_point] whose values have the payload types of the profile. *)
Definition typed_bag (dp : dict value) : Prop :=
  forall k v, dict_get k dp = Some v -> profile_field (k, v) = true.

(** What [argsort] is relied on for: a rearrangement of the positions
    that orders the keys. *)
Definition argsort_ok (argsort : list Z -> list nat) : Prop :=
  forall keys,
    Permutation (argsort keys) (seq 0 (length keys))
    /\ Sorted Z.le (take_at (argsort keys) keys).

(** An argsort that meets it: a merge sort of the (key, position) pairs
    that compares the keys alone. *)
Definition key_le (a b : Z * nat) : Prop := fst a <= fst b.

#[export] Instance key_le_dec : RelDecision key_le.
Proof. intros a b. unfold key_le. apply _. Defined.

Definition argsort_by (R : relation (Z * nat)) `{!RelDecision R}
    (keys : list Z) : list nat :=
  map snd (merge_sort R (zip keys (seq 0 (length keys)))).

Definition merge_argsort : list Z -> list nat := argsort_by key_le.

(** ** The library's sort

    The sort [sort_values] runs by default is numpy's [argsort] of kind
    [quicksort] (npysort/quicksort.cpp, [aquicksort_]), an introsort on
    the array [tosort] of the positions [0 .. num-1]: a range of more
    than [SMALL_QUICKSORT + 1] positions is partitioned around the median
    of its first, middle and last key, a shorter one is sorted by
    insertion, and a range taken from the stack after more than
    [2 * floor (log2 num)] partitions is sorted by [aheapsort_]
    (npysort/heapsort.cpp).  Keys are compared by [<] alone.  [pl], [pr],
    [pi], [pj] are counted from the start of [tosort]; a result [None]
    stands for a step outside the array or a loop cut short. *)
Section Quicksort.

(** The keys, [v] in the library. *)
Variable v : list Z.

Definition SMALL_QUICKSORT : nat := 16.

(** [v[tosort[p]]] *)
Definition key_at (tosort : list nat) (p : nat) : Z := v !!! (tosort !!! p).

(** [INTP_SWAP(tosort[p], tosort[q])] *)
Definition INTP_SWAP (p q : nat) (tosort : list nat) : list nat :=
  <[p := tosort !!! q]> (<[q := tosort !!! p]> tosort).

(** The median of three: [tosort[pm]] and [tosort[pl]] are swapped if
    [v[*pm] < v[*pl]], then [tosort[pr]] and [tosort[pm]] if
    [v[*pr] < v[*pm]], then [tosort[pm]] and [tosort[pl]] if
    [v[*pm] < v[*pl]]. *)
Definition median_of_three (pl pm pr : nat) (tosort : list nat) : list nat :=
  let tosort :=
    if key_at tosort pm <? key_at tosort pl then INTP_SWAP pm pl tosort else tosort in
  let tosort :=
    if key_at tosort pr <? key_at tosort pm then INTP_SWAP pr pm tosort else tosort in
  if key_at tosort pm <? key_at tosort pl then INTP_SWAP pm pl tosort else tosort.

(** [do { ++pi; } while (v[*pi] < vp);] with [room] positions between
    [pi] and the end of the array. *)
Fixpoint scan_up (room : nat) (vp : Z) (tosort : list nat) (pi : nat) : option nat :=
  match room with
  | O => None
  | S room =>
      if key_at tosort (S pi) <? vp then scan_up room vp tosort (S pi)
      else Some (S pi)
  end.

(** [do { --pj; } while (vp < v[*pj]);] *)
Fixpoint scan_down (vp : Z) (tosort : list nat) (pj : nat) : option nat :=
  match pj with
  | O => None
  | S pj' =>
      if vp <? key_at tosort pj' then scan_down vp tosort pj' else Some pj'
  end.

(** [for (;;) { scan up; scan down; if (pi >= pj) break; swap; }],
    the swap being of [tosort[pi]] and [tosort[pj]]: the array and [pi]
    at the [break]. *)
Fixpoint partition (fuel : nat) (vp : Z) (tosort : list nat) (pi pj : nat)
    : option (list nat * nat) :=
  match fuel with
  | O => None
  | S fuel =>
      match scan_up (length tosort - S pi) vp tosort pi with
      | None => None
      | Some pi =>
          match scan_down vp tosort pj with
          | None => None
          | Some pj =>
              if (pj <=? pi)%nat then Some (tosort, pi)
              else partition fuel vp (INTP_SWAP pi pj tosort) pi pj
          end
      end
  end.

(** [while (pj > pl && vp < v[*pk]) { *pj-- = *pk--; }] with
    [pk = pj - 1]: the array and [pj] at the end. *)
Fixpoint shift_up (pl : nat) (vp : Z) (tosort : list nat) (pj : nat)
    : list nat * nat :=
  match pj with
  | O => (tosort, O)
  | S pk =>
      if (pl <? pj)%nat && (vp <? key_at tosort pk)
      then shift_up pl vp (<[pj := tosort !!! pk]> tosort) pk
      else (tosort, pj)
  end.

(** [for (pi = pl + 1; pi <= pr; ++pi) { vi = *pi; vp = v[vi]; shift up;
                                         *pj = vi; }], [count] turns
    from [pi] on. *)
Fixpoint insertion_sort_from (count pl pi : nat) (tosort : list nat) : list nat :=
  match count with
  | O => tosort
  | S count =>
      let vi := tosort !!! pi in
      let vp := v !!! vi in
      let '(tosort, pj) := shift_up pl vp tosort pi in
      insertion_sort_from count pl (S pi) (<[pj := vi]> tosort)
  end.

Definition insertion_sort (pl pr : nat) (tosort : list nat) : list nat :=
  insertion_sort_from (pr - pl) pl (S pl) tosort.

(** [aheapsort_] on the [n] positions from [pl] on, where
    [a = tosort + pl - 1] is indexed from one. *)
Definition heap_get (pl : nat) (tosort : list nat) (i : nat) : nat :=
  tosort !!! (pl + i - 1)%nat.

Definition heap_set (pl : nat) (i x : nat) (tosort : list nat) : list nat :=
  <[(pl + i - 1)%nat := x]> tosort.

(** [for (; j <= n;) { if (j < n && v[a[j]] < v[a[j+1]]) j += 1;
                       if (v[tmp] < v[a[j]]) { a[i] = a[j]; i = j; j += j; }
                       else break; }]: the array and [i] at the end; [j]
    grows at every turn, [fuel] bounds the turns. *)
Fixpoint sift_down (fuel pl n tmp : nat) (tosort : list nat) (i j : nat)
    : list nat * nat :=
  match fuel with
  | O => (tosort, i)
  | S fuel =>
      if (j <=? n)%nat then
        let j :=
          if (j <? n)%nat
             && (v !!! heap_get pl tosort j <? v !!! heap_get pl tosort (S j))
          then S j else j in
        if v !!! tmp <? v !!! heap_get pl tosort j
        then sift_down fuel pl n tmp
               (heap_set pl i (heap_get pl tosort j) tosort) j (j + j)
        else (tosort, i)
      else (tosort, i)
  end.

(** [for (l = n >> 1; l > 0; --l) { tmp = a[l]; sift down from l;
                                    a[i] = tmp; }] *)
Fixpoint build_heap (pl n l : nat) (tosort : list nat) : list nat :=
  match l with
  | O => tosort
  | S l' =>
      let tmp := heap_get pl tosort l in
      let '(tosort, i) := sift_down n pl n tmp tosort l (l + l) in
      build_heap pl n l' (heap_set pl i tmp tosort)
  end.

(** [for (; n > 1;) { tmp = a[n]; a[n] = a[1]; n -= 1; sift down from 1;
                      a[i] = tmp; }] *)
Fixpoint drain_heap (pl n : nat) (tosort : list nat) : list nat :=
  match n with
  | S (S _ as n') =>
      let tmp := heap_get pl tosort n in
      let tosort := heap_set pl n (heap_get pl tosort 1) tosort in
      let '(tosort, i) := sift_down n' pl n' tmp tosort 1 2 in
      drain_heap pl n' (heap_set pl i tmp tosort)
  | _ => tosort
  end.

Definition aheapsort (pl n : nat) (tosort : list nat) : list nat :=
  drain_heap pl n (build_heap pl n (n / 2) tosort).

(** A range left for later with the depth it is given:
    [*sptr++ = pl; *sptr++ = pr; *psdepth++ = --cdepth]. *)
Definition stack_entry : Type := nat * nat * Z.

(** [while ((pr - pl) > SMALL_QUICKSORT) { partition; push the larger
    part, go on with the smaller }]: the array, the range left to the
    insertion sort and the stack. *)
Fixpoint partition_loop (fuel : nat) (tosort : list nat) (pl pr : nat)
    (cdepth : Z) (stack : list stack_entry)
    : option (list nat * nat * nat * list stack_entry) :=
  match fuel with
  | O => None
  | S fuel =>
      if (SMALL_QUICKSORT <? pr - pl)%nat then
        let pm := (pl + (pr - pl) / 2)%nat in
        let tosort := median_of_three pl pm pr tosort in
        let vp := key_at tosort pm in
        let tosort := INTP_SWAP pm (pr - 1) tosort in
        match partition (length tosort) vp tosort pl (pr - 1) with
        | None => None
        | Some (tosort, pi) =>
            let tosort := INTP_SWAP pi (pr - 1) tosort in
            let cdepth := cdepth - 1 in
            if (pi - pl <? pr - pi)%nat
            then partition_loop fuel tosort pl (pi - 1) cdepth
                   ((S pi, pr, cdepth) :: stack)
            else partition_loop fuel tosort (S pi) pr cdepth
                   ((pl, (pi - 1)%nat, cdepth) :: stack)
        end
      else Some (tosort, pl, pr, stack)
  end.

(** The outer [while (1)]: heap sort on an exhausted depth, else
    partitions and insertion sort; then the next range of the stack,
    until it is empty. *)
Fixpoint aquicksort_loop (fuel : nat) (tosort : list nat) (pl pr : nat)
    (cdepth : Z) (stack : list stack_entry) : option (list nat) :=
  match fuel with
  | O => None
  | S fuel =>
      let sorted :=
        if cdepth <? 0 then Some (aheapsort pl (S pr - pl) tosort, stack)
        else
          match partition_loop (length tosort) tosort pl pr cdepth stack with
          | None => None
          | Some (tosort, pl, pr, stack) => Some (insertion_sort pl pr tosort, stack)
          end in
      match sorted with
      | None => None
      | Some (tosort, []) => Some tosort
      | Some (tosort, (pl, pr, cdepth) :: stack) =>
          aquicksort_loop fuel tosort pl pr cdepth stack
      end
  end.

(** [npy_get_msb(num) * 2] *)
Definition depth_limit (num : nat) : Z := 2 * Z.log2 (Z.of_nat num).

Definition aquicksort : option (list nat) :=
  let num := length v in
  aquicksort_loop (S num) (seq 0 num) 0 (num - 1) (depth_limit num) [].

End Quicksort.

(** [keys.argsort(kind='quicksort')] *)
Definition quicksort_argsort (keys : list Z) : list nat :=
  default (seq 0 (length keys)) (aquicksort keys).

(** The timestamps of a table, top to bottom. *)
Definition row_time (row : dict value) : option Z :=
  match cell "timestamp" row with
  | VTime t => Some t
  | _ => None
  end.

Definition times (df : DataFrame) : list Z := omap row_time (rows df).

(** The present heart-rate value of a row. *)
Definition row_hr (row : dict value) : option Z :=
  match cell "heart_rate" row with
  | VInt n => Some n
  | _ => None
  end.

(** The cells of a table row, and the cells a bag is expected to give,
    on the recognised fields: its own values, the positions in degrees. *)
Definition row_cells (row : dict value) : list value :=
  map (fun c => cell c row) RECORD_FIELDS.

Definition degrees (v : value) : value :=
  match semicircles_to_degrees v with
  | Ok d => d
  | Raise _ => v
  end.

(** [df[c] * (180 / 2**31)] as it acts on one row of a table that has
    the column [c]. *)
Definition to_degrees (c : string) (row : dict value) : dict value :=
  dict_set c (degrees (cell c row)) row.

Definition expected_cell (bag : dict value) (c : string) : value :=
  if String.eqb c "position_lat" || String.eqb c "position_long"
  then degrees (cell c bag) else cell c bag.

Definition expected_cells (bag : dict value) : list value :=
  map (expected_cell bag) RECORD_FIELDS.

(** The two position conversions as they act on one row of a table with
    columns [cols]. *)
Definition convert_row (cols : list string) (row : dict value) : dict value :=
  let row := if str_in "position_lat" cols then to_degrees "position_lat" row else row in
  if str_in "position_long" cols then to_degrees "position_long" row else row.

(** The timestamp cell of the row is a datetime. *)
Definition has_time (row : dict value) : bool :=
  match row_time row with
  | Some _ => true
  | None => false
  end.

Definition is_heart_rate (v : value) : bool :=
  match v with
  | VInt _ | VNaN => true
  | _ => false
  end.

Fixpoint nondecreasing (l : list Z) : bool :=
  match l with
  | x :: l' =>
      match l' with
      | y :: _ => (x <=? y) && nondecreasing l'
      | [] => true
      end
  | [] => true
  end.

Definition dense (df : DataFrame) : bool :=
  forallb (fun row => bool_decide (dict_keys row = columns df)) (rows df).

(** A normalized session: every row has a cell for every column, the
    timestamp cells are datetimes in non-decreasing order, the heart-rate
    cells are integers or missing, and the table has fewer than 2^53 rows
    (counts beyond that are not exact as floats). *)
Definition normalized (df : DataFrame) : bool :=
  dense df
  && forallb has_time (rows df)
  && nondecreasing (times df)
  && forallb (fun row => is_heart_rate (cell "heart_rate" row)) (rows df)
  && (Z.of_nat (len df) <? 2 ^ 53).

(** The trailing window [last_timestamp - 20 min, last_timestamp] and the
    heart-rate values present in it. *)
Definition in_window (last_t : Z) (row : dict value) : bool :=
  match row_time row with
  | Some t => (last_t - TWENTY_MINUTES <=? t) && (t <=? last_t)
  | None => false
  end.

Definition window_values (df : DataFrame) : list Z :=
  match last (times df) with
  | Some last_t => omap row_hr (List.filter (in_window last_t) (rows df))
  | None => []
  end.

(** The estimate read off the trailing window: nothing when the window
    holds no heart-rate value, else the mean, 95 % of it, and the length
    of the session in minutes. *)
Definition window_estimate (df : DataFrame) : estimate :=
  match window_values df, head (times df), last (times df) with
  | _ :: _, Some t0, Some t1 =>
      let m := PyFloat.of_int (sumZ (window_values df))
               ⊘ PyFloat.of_int (Z.of_nat (length (window_values df))) in
      (Some m, Some (m ⊛ PyFloat.lit 95 100),
       Some (PyFloat.of_int (t1 - t0) ⊘ PyFloat.of_int 60))
  | _, _, _ => none3
  end.

(** The columns the export appends. *)
Definition hr_columns (selected : list string) (lthr : option float) : list string :=
  match lthr with
  | Some _ => if str_in "heart_rate" selected then ["hr_zone"; "lthr"] else []
  | None => []
  end.

Definition time_columns (selected : list string) : list string :=
  if str_in "timestamp" selected
  then ["time_elapsed_seconds"; "time_elapsed_minutes"] else [].

(** A computation that writes to no location but [e]. *)
Definition touches_only {A} (e : loc) (m : M A) : Prop :=
  forall st l, l <> e -> snd (m st) !! l = st !! l.

(** The export keeps the data of the selection: same row labels, and the
    same cells in every selected column. *)
Definition same_data (selected : list string) (d d' : DataFrame) : Prop :=
  index d' = index d
  /\ length (rows d') = length (rows d)
  /\ forall c, In c selected -> map (cell c) (rows d') = map (cell c) (rows d).

(** ** Sample data *)

Definition two_bags_one_instant : list record :=
  [ [("timestamp", VTime 0); ("heart_rate", VInt 101)];
    [("timestamp", VTime 0); ("heart_rate", VInt 102)] ].

(** Eighteen records a second apart, but that the eighth and the ninth
    share their second; the heart rates number the records. *)
Definition one_second_twice : list record :=
  zip_with (fun t hr => [("timestamp", VTime t); ("heart_rate", VInt hr)])
    [0; 1; 2; 3; 4; 5; 6; 7; 7; 8; 9; 10; 11; 12; 13; 14; 15; 16]
    [100; 101; 102; 103; 104; 105; 106; 107; 108; 109; 110; 111; 112; 113;
     114; 115; 116; 117].

(** Three samples, five minutes apart. *)
Definition ten_minute_session : DataFrame :=
  {| columns := ["timestamp"; "heart_rate"];
     index := [0; 1; 2]%nat;
     rows := [ [("timestamp", VTime 0); ("heart_rate", VInt 100)];
               [("timestamp", VTime 300); ("heart_rate", VInt 110)];
               [("timestamp", VTime 600); ("heart_rate", VInt 120)] ] |}.

(** The bands of threshold 150. *)
Definition zones_150 : dict zone_info :=
  [ ("Z1", {| name := "Zone 1 (Active Recovery)"; range := (93, 115);
              percentage := "62-77% of LTHR" |});
    ("Z2", {| name := "Zone 2 (Aerobic Base)"; range := (115, 129);
              percentage := "77-86% of LTHR" |});
    ("Z3", {| name := "Zone 3 (Tempo)"; range := (129, 136);
              percentage := "86-91% of LTHR" |});
    ("Z4", {| name := "Zone 4 (Lactate Threshold)"; range := (136, 142);
              percentage := "91-95% of LTHR" |});
    ("Z5", {| name := "Zone 5 (VO2 Max)"; range := (142, 154);
              percentage := "95-103% of LTHR" |}) ].

(** ** Vocabulary of the further properties *)

(** The value the decoder delivered last for the field [k] of a record
    message. *)
Definition last_value (k : string) (r : record) : option value :=
  option_map snd (List.find (fun f : field => String.eqb k (fst f)) (rev r)).

(** The session of [ten_minute_session] preceded by a sample taken half
    an hour before its first one. *)
Definition forty_minute_session : DataFrame :=
  {| columns := ["timestamp"; "heart_rate"];
     index := [0; 1; 2; 3]%nat;
     rows := [ [("timestamp", VTime (-1800)); ("heart_rate", VInt 60)];
               [("timestamp", VTime 0); ("heart_rate", VInt 100)];
               [("timestamp", VTime 300); ("heart_rate", VInt 110)];
               [("timestamp", VTime 600); ("heart_rate", VInt 120)] ] |}.

(** ** Field selection of the export tab

    [st.session_state] as the tab uses it: one boolean per available
    field under the key [field_<name>], and the flag
    [export_initialized]. The check boxes display these entries; a click
    on one reaches the program as a changed entry at the next run. *)

Abbreviation session_state := (gmap string bool).

Definition field_key (field : string) : string := "field_" ++ field.

Record category := {
  fields : list string;
  description : string
}.

Definition field_categories : dict category := [
  ("Core Data",
   {| fields := ["timestamp"; "heart_rate"; "speed"; "distance"; "cadence"; "power"];
      description := "Essential training metrics" |});
  ("GPS & Location",
   {| fields := ["position_lat"; "position_long"; "altitude"; "enhanced_altitude";
                 "grade"];
      description := "Location and elevation data" |});
  ("Environmental",
   {| fields := ["temperature"; "gps_accuracy"];
      description := "Environmental conditions" |});
  ("Power Metrics",
   {| fields := ["accumulated_power"; "normalized_power"; "left_right_balance";
                 "left_torque_effectiveness"; "right_torque_effectiveness";
                 "left_pedal_smoothness"; "right_pedal_smoothness";
                 "combined_pedal_smoothness"];
      description := "Advanced power meter data" |});
  ("Running Dynamics",
   {| fields := ["vertical_oscillation"; "stance_time_percent"; "stance_time";
                 "step_length"; "avg_vertical_oscillation";
                 "avg_stance_time_percent"; "avg_stance_time"];
      description := "Running form metrics" |});
  ("Advanced Metrics",
   {| fields := ["calories"; "training_stress_score"; "intensity_factor";
                 "total_cycles"; "cycle_length"; "fractional_cadence"];
      description := "Calculated performance metrics" |}) ].

(** [field in field_categories["Core Data"]["fields"]]. *)
Definition is_core (field : string) : bool :=
  match dict_get "Core Data" field_categories with
  | Some c => str_in field (fields c)
  | None => false
  end.

(** [for field in available_fields:
       st.session_state[f"field_{field}"] = value(field)]. *)
Definition set_fields (value : string -> bool) (available_fields : list string)
    (ss : session_state) : session_state :=
  fold_left (fun ss field => <[field_key field := value field]> ss)
            available_fields ss.

(** The state after the three quick-selection buttons and the
    initialisation of one run; [select_all], [select_none] and
    [select_core] are what [st.button] returned. *)
Definition export_tab_run (available_fields : list string)
    (select_all select_none select_core : bool) (ss : session_state) : session_state :=
  let ss := if select_all then set_fields (fun _ => true) available_fields ss else ss in
  let ss := if select_none then set_fields (fun _ => false) available_fields ss else ss in
  let ss := if select_core then set_fields is_core available_fields ss else ss in
  match ss !! "export_initialized" with
  | None => <["export_initialized" := true]> (set_fields is_core available_fields ss)
  | Some _ => ss
  end.

(** [[field for field in available_fields
       if st.session_state.get(f"field_{field}", False)]]. *)
Definition selected_fields (available_fields : list string) (ss : session_state)
    : list string :=
  List.filter (fun field => default false (ss !! field_key field)) available_fields.

(** The fields the tab creates a check box for, in order of creation:
    category by category the listed fields that are available, then the
    available fields no category lists. *)
Definition available_category_fields (available_fields : list string) (c : category)
    : list string :=
  List.filter (fun f => str_in f available_fields) (fields c).

Definition uncategorized_fields (available_fields : list string) : list string :=
  List.filter
    (fun f => negb (existsb (fun kc : string * category => str_in f (fields (snd kc)))
                      field_categories))
    available_fields.

Definition checkbox_fields (available_fields : list string) : list string :=
  flat_map (fun kc : string * category => available_category_fields available_fields (snd kc))
           field_categories
  ++ uncategorized_fields available_fields.

(** ** Race dashboard: the highlighted table rows

    [needle in haystack] on strings, and the test of [highlight_row] on
    the name of a row (the table is styled under [if search_name:]). *)

Fixpoint contains (needle haystack : string) : bool :=
  String.prefix needle haystack
  || match haystack with
     | EmptyString => false
     | String _ rest => contains needle rest
     end.

Definition highlight_row (search_name name : string) : bool :=
  contains (lower (strip search_name)) (lower (strip name)).

(** Whether the row of [name] gets the background colour. *)
Definition row_highlighted (search_name name : string) : bool :=
  truthy (Some search_name) && highlight_row search_name name.

(** ** Race dashboard: the combined table *)

(** [df.assign(Category=cat)]: a new table whose column [Category] holds
    [cat] in every row. *)
Definition assign_category (cat : string) (df : DataFrame) : DataFrame :=
  setitem df "Category" (map (fun _ => VStr cat) (rows df)).

(** The rows of a table laid out on the columns [cols]; the cell of a
    column the table lacks is NaN. *)
Definition reindex_rows (cols : list string) (df : DataFrame) : list (dict value) :=
  map (fun row => fill cols (fill (columns df) row)) (rows df).

(** [pd.concat(tables, ignore_index=True)]: the columns are the union of
    the tables' columns in order of first appearance, the rows follow
    table by table and are labelled from zero; [ValueError] on no
    table.  Cells are kept as values: pandas may store a column of
    integers that received a NaN as floats of the same values. *)
Definition concat (dfs : list DataFrame) : res DataFrame :=
  match dfs with
  | [] => Raise ValueError
  | _ =>
      let cols := fold_left (fun cols df => fold_left add_key (columns df) cols) dfs [] in
      let rs := flat_map (reindex_rows cols) dfs in
      Ok {| columns := cols; index := seq 0 (length rs); rows := rs |}
  end.

(** [pd.concat([data_dict[selected_event][cat].assign(Category=cat)
               for cat in selected_categories], ignore_index=True)];
    [tables] is [data_dict[selected_event]]. *)
Definition combined_df (tables : dict DataFrame) (selected_categories : list string)
    : res DataFrame :=
  let* dfs := mapM (fun cat => let* df := dict_getitem cat tables in
                               Ok (assign_category cat df))
                   selected_categories in
  concat dfs.

(** The table stored under a category, and a column of a table read as
    the combined table shows it. *)
Definition table_of (tables : dict DataFrame) (cat : string) : DataFrame :=
  default {| columns := []; index := []; rows := [] |} (dict_get cat tables).

Definition column_or_nan (c : string) (df : DataFrame) : list value :=
  map (fun row => if str_in c (columns df) then cell c row else VNaN) (rows df).

(** Two result tables of three and two rows. *)
Definition elite_men : DataFrame :=
  {| columns := ["Pos"; "Name"];
     index := [0; 1; 2]%nat;
     rows := [ [("Pos", VInt 1); ("Name", VStr "Ann")];
               [("Pos", VInt 2); ("Name", VStr "Ben")];
               [("Pos", VInt 3); ("Name", VStr "Cy")] ] |}.

Definition junior_women : DataFrame :=
  {| columns := ["Pos"; "Name"];
     index := [0; 1]%nat;
     rows := [ [("Pos", VInt 1); ("Name", VStr "Di")];
               [("Pos", VInt 2); ("Name", VStr "Eve")] ] |}.

(** ** Race dashboard: [seconds_to_time]

    The function on a whole number of seconds (a Python [int]) or a
    missing value; [//] and [%] are floor division and its remainder. *)

Definition decimal (n : N) : string := NilZero.string_of_uint (N.to_uint n).

(** [f"{n:02d}"]: the sign, then the digits padded with zeros to two
    characters in all. *)
Definition format_02d (n : Z) : string :=
  match n with
  | Zneg p => "-" ++ decimal (Npos p)
  | _ =>
      let s := decimal (Z.to_N n) in
      if (String.length s <? 2)%nat then "0" ++ s else s
  end.

Definition seconds_to_time (seconds : option Z) : string :=
  match seconds with
  | None => "N/A"
  | Some seconds =>
      let hours := seconds / 3600 in
      let minutes := (seconds mod 3600) / 60 in
      let secs := seconds mod 60 in
      format_02d hours ++ ":" ++ format_02d minutes ++ ":" ++ format_02d secs
  end.

(** Reading a text [H..H:MM:SS] back as a number of seconds. *)
Definition parse_decimal (s : string) : option Z :=
  option_map (fun d => Z.of_N (N.of_uint d)) (NilZero.uint_of_string s).

Definition time_to_seconds (s : string) : option Z :=
  match rev (list_ascii_of_string s) with
  | s0 :: s1 :: c1 :: m0 :: m1 :: c2 :: h =>
      if Ascii.eqb c1 ":" && Ascii.eqb c2 ":" then
        match parse_decimal (string_of_list_ascii (rev h)),
              parse_decimal (String m1 (String m0 "")),
              parse_decimal (String s1 (String s0 "")) with
        | Some hours, Some minutes, Some secs =>
            Some (hours * 3600 + minutes * 60 + secs)
        | _, _, _ => None
        end
      else None
  | _ => None
  end.

(** ** Magnitude of a float

    [bounded x k]: [x] is a zero or a finite number below [2^k] in
    absolute value (its mantissa has at most [k - e] bits). *)

Definition bounded (x : float) (k : Z) : Prop :=
  match x with
  | S754_zero _ => True
  | S754_finite _ m e => Zpos (digits2_pos m) + e <= k
  | _ => False
  end.

(** ** The analysis of [main]

    What [main] computes from the uploaded file before it displays
    anything: the parsed table, the estimate, the bands. [NoData] and
    [NoThreshold] are the two error messages of the [else] branches; an
    exception ends in the [except Exception] branch. *)

Inductive analysis :=
| NoData
| NoThreshold
| Analysed (avg_hr_last_20min : option float) (lthr : float)
           (total_duration_minutes : option float) (zones : dict zone_info).

Definition analyse (argsort : list Z -> list nat) (rs : list record) : res analysis :=
  match parse_fit_file argsort rs with
  | Some df =>
      if (0 <? len df)%nat then
        let* r := calculate_lthr_from_last_20_minutes (Some df) in
        match r with
        | (avg_hr_last_20min, Some lthr, total_duration_minutes) =>
            let* zones := calculate_heart_rate_zones lthr in
            Ok (Analysed avg_hr_last_20min lthr total_duration_minutes zones)
        | (_, None, _) => Ok NoThreshold
        end
      else Ok NoData
  | None => Ok NoData
  end.

(** The heart-rate field of the FIT profile is an unsigned byte. *)
Definition hr_byte (f : field) : bool :=
  if String.eqb (fst f) "heart_rate" then
    match snd f with
    | VInt n => (0 <=? n) && (n <=? 255)
    | _ => true
    end
  else true.

Definition hr_bytes (r : record) : bool := forallb hr_byte r.

(** A threshold that is not negative: a zero, or a finite number with
    the sign bit clear. *)
Definition nonneg (x : float) : bool :=
  match x with
  | S754_zero _ | S754_finite false _ _ => true
  | _ => false
  end.

(** [floor (q * 2^t)] for [q >= 0]. *)
Definition floor_scaled (q t : Z) : Z :=
  if 0 <=? t then q * 2 ^ t else q / 2 ^ (- t).

(** ** Race dashboard: [load_race_data] *)


















(** * Proofs *)

(** ** Facts on binary64 arithmetic *)

Lemma iter_pos_inv {A} (P : A -> Prop) (f : A -> A) :
  (forall x, P x -> P (f x)) -> forall n x, P x -> P (SpecFloat.iter_pos f n x).
Proof.
  intros Hf n. induction n as [n IH | n IH |]; intros x Hx; simpl; auto.
Qed.

Lemma shr_1_nonneg mrs : 0 <= shr_m mrs -> 0 <= shr_m (shr_1 mrs).
Proof.
  destruct mrs as [m r s]. simpl. intros Hm.
  destruct m as [| [p | p |] | p]; simpl; lia.
Qed.

Lemma shr_nonneg mrs e n : 0 <= shr_m mrs -> 0 <= shr_m (fst (shr mrs e n)).
Proof.
  intros Hm. unfold shr. destruct n; simpl; auto.
  apply (iter_pos_inv (fun r => 0 <= shr_m r)); auto using shr_1_nonneg.
Qed.

Lemma shr_fexp_nonneg m e l :
  0 <= m -> 0 <= shr_m (fst (shr_fexp PyFloat.prec PyFloat.emax m e l)).
Proof.
  intros Hm. unfold shr_fexp. apply shr_nonneg.
  destruct l as [| []]; simpl; exact Hm.
Qed.

Lemma round_nearest_even_nonneg m l : 0 <= m -> 0 <= round_nearest_even m l.
Proof.
  intros Hm. destruct l as [| []]; simpl; try lia.
  destruct (Z.even m); lia.
Qed.

Lemma binary_round_aux_not_nan sx mx ex lx :
  0 <= mx ->
  PyFloat.is_nan (binary_round_aux PyFloat.prec PyFloat.emax sx mx ex lx) = false.
Proof.
  intros Hm. unfold binary_round_aux.
  pose proof (shr_fexp_nonneg mx ex lx Hm) as H1.
  destruct (shr_fexp PyFloat.prec PyFloat.emax mx ex lx) as [mrs' e'].
  simpl in H1.
  pose proof (shr_fexp_nonneg _ e' loc_Exact
                (round_nearest_even_nonneg _ (loc_of_shr_record mrs') H1)) as H2.
  destruct (shr_fexp PyFloat.prec PyFloat.emax _ e' loc_Exact) as [mrs'' e''].
  simpl in H2.
  destruct (shr_m mrs'') as [| m | m]; try reflexivity; try lia.
  destruct (e'' <=? _); reflexivity.
Qed.

Lemma of_int_not_nan n : PyFloat.is_nan (PyFloat.of_int n) = false.
Proof.
  unfold PyFloat.of_int, binary_normalize.
  destruct n as [| p | p]; try reflexivity;
    unfold binary_round; destruct (shl_align _ _ _) as [mz ez];
    apply binary_round_aux_not_nan; lia.
Qed.

Lemma div_finite_not_nan x s m e :
  PyFloat.is_nan x = false ->
  PyFloat.is_nan (x ⊘ S754_finite s m e) = false.
Proof.
  intros Hx. destruct x as [sx | sx | | sx mx ex]; try reflexivity; try discriminate.
  unfold PyFloat.div, SFdiv.
  destruct (SFdiv_core_binary _ _ _ _ _ _) as [[mz ez] lz] eqn:E.
  apply binary_round_aux_not_nan.
  unfold SFdiv_core_binary in E.
  match type of E with
  | context [Z.div_eucl ?a ?b] =>
      pose proof (Z.div_pos a b) as Hq;
      pose proof (Zdiv.Zdiv_eucl_extended) as _;
      assert (Hd : fst (Z.div_eucl a b) = a / b) by reflexivity;
      destruct (Z.div_eucl a b) as [q r] eqn:Eq
  end.
  injection E as <- _ _. simpl in Hd. subst q. apply Hq; [| lia].
  match goal with |- 0 <= match ?s with _ => _ end => destruct s eqn:Es end; try lia.
  apply Z.shiftl_nonneg. lia.
Qed.

Lemma digits2_pos_iter m k :
  digits2_pos (Pos.iter xO m k) = (digits2_pos m + k)%positive.
Proof.
  induction k as [| k IH] using Pos.peano_ind.
  - simpl. lia.
  - rewrite Pos.iter_succ. simpl. rewrite IH. lia.
Qed.

Lemma digits2_pos_bound p k :
  0 <= k -> Zpos p < 2 ^ k -> Zpos (digits2_pos p) <= k.
Proof.
  revert k. induction p as [p IH | p IH |]; intros k Hk Hp.
  - assert (k <> 0) by (intros ->; simpl in Hp; lia).
    replace k with (Z.succ (k - 1)) in Hp by lia.
    rewrite Z.pow_succ_r in Hp by lia.
    specialize (IH (k - 1)). simpl. lia.
  - assert (k <> 0) by (intros ->; simpl in Hp; lia).
    replace k with (Z.succ (k - 1)) in Hp by lia.
    rewrite Z.pow_succ_r in Hp by lia.
    specialize (IH (k - 1)). simpl. lia.
  - assert (k <> 0) by (intros ->; simpl in Hp; lia).
    simpl. lia.
Qed.

Lemma binary_round_aux_exact s m e :
  Zpos (digits2_pos m) = 53 -> -1074 <= e <= 971 ->
  binary_round_aux PyFloat.prec PyFloat.emax s (Zpos m) e loc_Exact = S754_finite s m e.
Proof.
  intros Hd He.
  assert (Hs : shr_fexp PyFloat.prec PyFloat.emax (Zpos m) e loc_Exact
               = ({| shr_m := Zpos m; shr_r := false; shr_s := false |}, e)).
  { unfold shr_fexp, fexp, emin, PyFloat.prec, PyFloat.emax. simpl Zdigits2. rewrite Hd.
    replace (Z.max (53 + e - 53) (3 - 1024 - 53) - e) with 0 by lia.
    reflexivity. }
  unfold binary_round_aux. rewrite Hs. simpl round_nearest_even. rewrite Hs.
  simpl shr_m. unfold PyFloat.prec, PyFloat.emax.
  destruct (Z.leb_spec e (1024 - 53)); [reflexivity | lia].
Qed.

Lemma of_int_finite n :
  0 < n < 2 ^ 53 -> exists m e, PyFloat.of_int n = S754_finite false m e.
Proof.
  intros [Hpos Hlt]. destruct n as [| p | p]; try lia.
  pose proof (digits2_pos_bound p 53 ltac:(lia) Hlt) as Hd.
  assert (0 < Zpos (digits2_pos p)) by lia.
  unfold PyFloat.of_int, binary_normalize, binary_round.
  unfold fexp, emin, PyFloat.prec, PyFloat.emax.
  replace (Z.max (Zpos (digits2_pos p) + 0 - 53) (3 - 1024 - 53))
    with (Zpos (digits2_pos p) - 53) by lia.
  unfold shl_align.
  destruct (Zpos (digits2_pos p) - 53 - 0) as [| q | q] eqn:E; try lia.
  - eexists _, _. apply binary_round_aux_exact; lia.
  - eexists _, _. apply binary_round_aux_exact; [| lia].
    rewrite digits2_pos_iter. lia.
Qed.

(** The decimal literals of the source, as the float parser reads them. *)
#[warnings="-inexact-float"]
Example decimal_literals :
  map Prim2SF [0.62; 0.77; 0.86; 0.91; 0.95; 1.03; 104.5; 110; 150]%float
  = [ PyFloat.lit 62 100; PyFloat.lit 77 100; PyFloat.lit 86 100;
      PyFloat.lit 91 100; PyFloat.lit 95 100; PyFloat.lit 103 100;
      PyFloat.lit 1045 10; PyFloat.of_int 110; PyFloat.of_int 150 ].
Proof. vm_compute. reflexivity. Qed.

(** ** Facts on the band generator *)

Lemma to_int_truncates s m e :
  PyFloat.to_int (S754_finite s m e)
  = Ok (Z.quot (cond_Zopp s (Zpos m) * 2 ^ Z.max e 0) (2 ^ Z.max (- e) 0)).
Proof.
  unfold PyFloat.to_int. f_equal. destruct e as [| p | p].
  - simpl Z.max. rewrite Z.shiftl_0_r, Z.mul_1_r, Z.quot_1_r. reflexivity.
  - replace (Z.max (Zpos p) 0) with (Zpos p) by lia.
    replace (Z.max (- Zpos p) 0) with 0 by lia.
    rewrite Z.shiftl_mul_pow2, Z.quot_1_r by lia.
    destruct s; simpl cond_Zopp; lia.
  - replace (Z.max (Zneg p) 0) with 0 by lia.
    replace (Z.max (- Zneg p) 0) with (Zpos p) by lia.
    rewrite Z.mul_1_r, Z.shiftr_div_pow2 by lia.
    assert (0 < 2 ^ Zpos p) by (apply Z.pow_pos_nonneg; lia).
    destruct s; simpl cond_Zopp.
    + rewrite Z.quot_opp_l by lia. rewrite Z.quot_div_nonneg by lia. reflexivity.
    + rewrite Z.quot_div_nonneg by lia. reflexivity.
Qed.

Lemma to_int_finite x :
  PyFloat.is_finite x = true -> exists n, PyFloat.to_int x = Ok n.
Proof. destruct x; simpl; try discriminate; eauto. Qed.

Lemma to_int_ok_finite x n : PyFloat.to_int x = Ok n -> PyFloat.is_finite x = true.
Proof. destruct x; simpl; try discriminate; reflexivity. Qed.

Lemma calculate_heart_rate_zones_total lthr :
  Forall (fun n => PyFloat.is_finite (lthr ⊛ PyFloat.lit n 100) = true)
         [62; 77; 86; 91; 95; 103] ->
  exists zs, calculate_heart_rate_zones lthr = Ok zs.
Proof.
  intros H. repeat (apply Forall_cons_1 in H as [? H]).
  unfold calculate_heart_rate_zones, pct.
  repeat match goal with
         | Hf : PyFloat.is_finite ?x = true |- _ =>
             destruct (to_int_finite x Hf) as [? ->]; clear Hf
         end.
  simpl. eauto.
Qed.

Lemma calculate_heart_rate_zones_shape lthr zones :
  calculate_heart_rate_zones lthr = Ok zones ->
  exists z1 z2 z3 z4 z5,
    zones = [ ("Z1", z1); ("Z2", z2); ("Z3", z3); ("Z4", z4); ("Z5", z5) ]
    /\ snd (range z1) = fst (range z2) /\ snd (range z2) = fst (range z3)
    /\ snd (range z3) = fst (range z4) /\ snd (range z4) = fst (range z5)
    /\ pct lthr 77 = Ok (snd (range z1)) /\ pct lthr 86 = Ok (snd (range z2))
    /\ pct lthr 91 = Ok (snd (range z3)) /\ pct lthr 95 = Ok (snd (range z4)).
Proof.
  unfold calculate_heart_rate_zones.
  destruct (pct lthr 62) as [b62 |]; [| discriminate].
  destruct (pct lthr 77) as [b77 |]; [| discriminate].
  destruct (pct lthr 86) as [b86 |]; [| discriminate].
  destruct (pct lthr 91) as [b91 |]; [| discriminate].
  destruct (pct lthr 95) as [b95 |]; [| discriminate].
  destruct (pct lthr 103) as [b103 |]; [| discriminate].
  simpl. intros [= <-]. do 5 eexists. repeat split; reflexivity.
Qed.

(** C2. With threshold 150 the band generator returns exactly the five
    bands Z1=[93,115], Z2=[115,129], Z3=[129,136], Z4=[136,142],
    Z5=[142,154]; every bound is [int(150 * pct)] computed on its own for
    the pairs (0.62,0.77), (0.77,0.86), (0.86,0.91), (0.91,0.95),
    (0.95,1.03); and [int] truncates toward zero: on the float
    [(-1)^s * m * 2^e] it is the quotient, rounded toward zero, of
    [(-1)^s * m * 2^max(e,0)] by [2^max(-e,0)]. *)
Theorem band_generator_at_150 :
  calculate_heart_rate_zones (PyFloat.of_int 150)
  = Ok [ ("Z1", {| name := "Zone 1 (Active Recovery)"; range := (93, 115);
                   percentage := "62-77% of LTHR" |});
         ("Z2", {| name := "Zone 2 (Aerobic Base)"; range := (115, 129);
                   percentage := "77-86% of LTHR" |});
         ("Z3", {| name := "Zone 3 (Tempo)"; range := (129, 136);
                   percentage := "86-91% of LTHR" |});
         ("Z4", {| name := "Zone 4 (Lactate Threshold)"; range := (136, 142);
                   percentage := "91-95% of LTHR" |});
         ("Z5", {| name := "Zone 5 (VO2 Max)"; range := (142, 154);
                   percentage := "95-103% of LTHR" |}) ]
  /\ map (fun p : Z * Z =>
            (PyFloat.to_int (PyFloat.of_int 150 ⊛ PyFloat.lit (fst p) 100),
             PyFloat.to_int (PyFloat.of_int 150 ⊛ PyFloat.lit (snd p) 100)))
         [ (62, 77); (77, 86); (86, 91); (91, 95); (95, 103) ]
     = [ (Ok 93, Ok 115); (Ok 115, Ok 129); (Ok 129, Ok 136);
         (Ok 136, Ok 142); (Ok 142, Ok 154) ]
  /\ (forall s m e,
        PyFloat.to_int (S754_finite s m e)
        = Ok (Z.quot (cond_Zopp s (Zpos m) * 2 ^ Z.max e 0) (2 ^ Z.max (- e) 0))).
Proof.
  split; [vm_compute; reflexivity |].
  split; [vm_compute; reflexivity |].
  exact to_int_truncates.
Qed.

(** C8. Whatever the threshold, the bands the generator returns share
    their edges exactly: the upper bound of Z1 is the lower bound of Z2,
    that of Z2 the lower bound of Z3, that of Z3 the lower bound of Z4 and
    that of Z4 the lower bound of Z5, each shared edge being the one value
    [int(threshold * pct)]; and the generator does return bands whenever
    the six products are finite. *)
Theorem adjacent_bands_share_edges (lthr : float) :
  (forall zones, calculate_heart_rate_zones lthr = Ok zones ->
     exists z1 z2 z3 z4 z5,
       zones = [ ("Z1", z1); ("Z2", z2); ("Z3", z3); ("Z4", z4); ("Z5", z5) ]
       /\ snd (range z1) = fst (range z2) /\ snd (range z2) = fst (range z3)
       /\ snd (range z3) = fst (range z4) /\ snd (range z4) = fst (range z5)
       /\ pct lthr 77 = Ok (snd (range z1)) /\ pct lthr 86 = Ok (snd (range z2))
       /\ pct lthr 91 = Ok (snd (range z3)) /\ pct lthr 95 = Ok (snd (range z4)))
  /\ (Forall (fun n => PyFloat.is_finite (lthr ⊛ PyFloat.lit n 100) = true)
             [62; 77; 86; 91; 95; 103] ->
      exists zones, calculate_heart_rate_zones lthr = Ok zones).
Proof.
  split.
  - apply calculate_heart_rate_zones_shape.
  - apply calculate_heart_rate_zones_total.
Qed.

Lemma adjacent_bands_share_edges_witness :
  exists z1 z2 z3 z4 z5,
    zones_150 = [ ("Z1", z1); ("Z2", z2); ("Z3", z3); ("Z4", z4); ("Z5", z5) ]
    /\ snd (range z1) = fst (range z2) /\ snd (range z2) = fst (range z3)
    /\ snd (range z3) = fst (range z4) /\ snd (range z4) = fst (range z5).
Proof.
  destruct (proj1 (adjacent_bands_share_edges (PyFloat.of_int 150)) zones_150)
    as (z1 & z2 & z3 & z4 & z5 & H & H1 & H2 & H3 & H4 & _).
  - vm_compute. reflexivity.
  - exists z1, z2, z3, z4, z5. auto.
Defined.

(** ** Facts on the sample classifier *)

Lemma in_range_iff v z :
  in_range v z = true <-> fst (range z) <= v <= snd (range z).
Proof. unfold in_range. rewrite andb_true_iff, !Z.leb_le. tauto. Qed.

Lemma find_first {A} (f : A -> bool) (before after : list A) (x : A) :
  Forall (fun y => f y = false) before -> f x = true ->
  List.find f (before ++ x :: after) = Some x.
Proof.
  intros Hb Hx. induction Hb as [| y before Hy _ IH]; simpl.
  - rewrite Hx. reflexivity.
  - rewrite Hy. exact IH.
Qed.

Lemma find_nowhere {A} (f : A -> bool) (l : list A) :
  Forall (fun y => f y = false) l -> List.find f l = None.
Proof. induction 1 as [| y l Hy _ IH]; simpl; [| rewrite Hy]; auto. Qed.

Lemma classify_zone_no_data zones : classify_zone zones VNaN = Ok "No Data".
Proof. reflexivity. Qed.

Lemma classify_zone_first zones before zone_key z after v :
  zones = before ++ (zone_key, z) :: after ->
  fst (range z) <= v <= snd (range z) ->
  (forall k' z', In (k', z') before -> ~ fst (range z') <= v <= snd (range z')) ->
  classify_zone zones (VInt v) = Ok zone_key.
Proof.
  intros -> Hz Hb. unfold classify_zone. simpl.
  rewrite (find_first (fun kz => in_range v (snd kz)) before after (zone_key, z)).
  - reflexivity.
  - apply List.Forall_forall. intros [k' z'] Hin. simpl.
    apply not_true_is_false. rewrite in_range_iff. eauto.
  - simpl. apply in_range_iff. exact Hz.
Qed.

Lemma classify_zone_outside zones z5 v :
  dict_get "Z5" zones = Some z5 ->
  (forall k z, In (k, z) zones -> ~ fst (range z) <= v <= snd (range z)) ->
  classify_zone zones (VInt v)
  = Ok (if snd (range z5) <? v then "Above Z5" else "Below Z1").
Proof.
  intros H5 Hnone. unfold classify_zone. simpl.
  rewrite find_nowhere.
  - unfold dict_getitem. rewrite H5. reflexivity.
  - apply List.Forall_forall. intros [k z] Hin. simpl.
    apply not_true_is_false. rewrite in_range_iff. eauto.
Qed.

Lemma classify_zone_total zones z5 v :
  dict_get "Z5" zones = Some z5 ->
  exists label, classify_zone zones (VInt v) = Ok label.
Proof.
  intros H5. unfold classify_zone. simpl.
  destruct (List.find _ zones) as [[k z] |]; [eauto |].
  unfold dict_getitem. rewrite H5. simpl. eauto.
Qed.

(** C3. For bands generated from a threshold, in their declared order Z1
    to Z5: a present value [v] is given the identifier of the first band
    whose closed interval [low, high] holds it; when no band holds it the
    result is 'Above Z5' if [v] exceeds the upper bound of Z5 and 'Below
    Z1' otherwise; some label is always returned. With the bands of
    threshold 150 the shared edge 115 is Z1, not Z2. A missing value is
    'No Data' under any bands. *)
Theorem classify_zone_first_match :
  (forall lthr zones, calculate_heart_rate_zones lthr = Ok zones ->
     dict_keys zones = ["Z1"; "Z2"; "Z3"; "Z4"; "Z5"]
     /\ forall v : Z,
          (forall before zone_key z after,
             zones = before ++ (zone_key, z) :: after ->
             fst (range z) <= v <= snd (range z) ->
             (forall k' z', In (k', z') before ->
                            ~ fst (range z') <= v <= snd (range z')) ->
             classify_zone zones (VInt v) = Ok zone_key)
          /\ ((forall k z, In (k, z) zones ->
                           ~ fst (range z) <= v <= snd (range z)) ->
              exists z5, dict_get "Z5" zones = Some z5
                /\ classify_zone zones (VInt v)
                   = Ok (if snd (range z5) <? v then "Above Z5" else "Below Z1"))
          /\ (exists label, classify_zone zones (VInt v) = Ok label))
  /\ (exists zones, calculate_heart_rate_zones (PyFloat.of_int 150) = Ok zones
        /\ classify_zone zones (VInt 115) = Ok "Z1"
        /\ option_map (in_range 115) (dict_get "Z2" zones) = Some true)
  /\ (forall zones, classify_zone zones VNaN = Ok "No Data").
Proof.
  split; [| split].
  - intros lthr zones Hz.
    destruct (calculate_heart_rate_zones_shape _ _ Hz)
      as (z1 & z2 & z3 & z4 & z5 & -> & _).
    split; [reflexivity |]. intros v. split; [| split].
    + intros before zone_key z after. apply classify_zone_first.
    + intros Hnone. exists z5. split; [reflexivity |].
      apply classify_zone_outside; [reflexivity | exact Hnone].
    + apply (classify_zone_total _ z5). reflexivity.
  - eexists. split; [vm_compute; reflexivity |].
    split; vm_compute; reflexivity.
  - exact classify_zone_no_data.
Qed.

Lemma classify_zone_first_match_witness :
  classify_zone zones_150 (VInt 115) = Ok "Z1"
  /\ classify_zone zones_150 (VInt 160)
     = Ok (if 154 <? 160 then "Above Z5" else "Below Z1").
Proof.
  destruct (proj1 classify_zone_first_match (PyFloat.of_int 150) zones_150)
    as [_ H]; [vm_compute; reflexivity |].
  split.
  - destruct (H 115) as [H1 _].
    apply (H1 [] "Z1" {| name := "Zone 1 (Active Recovery)"; range := (93, 115);
                         percentage := "62-77% of LTHR" |}
              (tl zones_150)).
    + reflexivity.
    + simpl. lia.
    + intros k' z' [].
  - destruct (H 160) as [_ [H2 _]].
    destruct H2 as (z5 & Hz5 & Hc).
    + intros k z Hin. simpl in Hin.
      repeat (destruct Hin as [[= <- <-] | Hin]; [simpl; lia |]). contradiction.
    + injection Hz5 as <-. exact Hc.
Defined.

(** ** Facts on the marker choice *)

Example strip_lower_example : lower (strip "  Mary ANN O'Neil
 ") = "mary ann o'neil".
Proof. reflexivity. Qed.

Lemma lower_idempotent s : lower (lower s) = lower s.
Proof.
  induction s as [| a s IH]; simpl; [reflexivity |]. rewrite IH. f_equal.
  unfold lower_ascii.
  destruct ((65 <=? nat_of_ascii a)%nat && (nat_of_ascii a <=? 90)%nat) eqn:E.
  - apply andb_true_iff in E as [E1 E2]. apply Nat.leb_le in E1, E2.
    rewrite nat_ascii_embedding by lia.
    destruct ((65 <=? nat_of_ascii a + 32)%nat && (nat_of_ascii a + 32 <=? 90)%nat) eqn:E';
      [| reflexivity].
    apply andb_true_iff in E' as [_ E']. apply Nat.leb_le in E'. lia.
  - rewrite E. reflexivity.
Qed.

Lemma lstrip_space a s : is_space a = true -> lstrip (String a s) = lstrip s.
Proof. intros H. simpl. rewrite H. reflexivity. Qed.

Lemma strip_leading_space a s : is_space a = true -> strip (String a s) = strip s.
Proof. intros H. unfold strip. rewrite lstrip_space by exact H. reflexivity. Qed.

Lemma rstrip_trailing_space a s :
  is_space a = true -> rstrip (s ++ String a "")%string = rstrip s.
Proof.
  intros H. induction s as [| b s IH]; simpl.
  - rewrite H. reflexivity.
  - rewrite IH. reflexivity.
Qed.

Lemma strip_trailing_space a s :
  is_space a = true -> strip (s ++ String a "")%string = strip s.
Proof.
  intros H. unfold strip. induction s as [| b s IH]; simpl.
  - rewrite H. reflexivity.
  - destruct (is_space b); [exact IH |].
    apply (rstrip_trailing_space a (String b s) H).
Qed.

Lemma podium_cases position :
  (position = 1 /\ podium position = Some "#FFD700")
  \/ (position = 2 /\ podium position = Some "#C0C0C0")
  \/ (position = 3 /\ podium position = Some "#CD7F32")
  \/ (~ In position [1; 2; 3] /\ podium position = None).
Proof.
  unfold podium, PODIUM_COLORS. simpl.
  destruct (Z.eqb_spec position 1); [auto |].
  destruct (Z.eqb_spec position 2); [auto |].
  destruct (Z.eqb_spec position 3); [auto 6 |].
  right; right; right. split; [| reflexivity]. simpl. lia.
Qed.

(** C5. With a non-empty search filter, a row gets the highlighted
    marker (red, size 15, star) exactly when its trimmed, lower-cased
    name equals the trimmed, lower-cased filter, whatever its rank, so
    also at ranks 1, 2 and 3; a row that does not match gets the gold,
    silver or bronze circle of size 12 for rank 1, 2 or 3 and the default
    circle otherwise; the highlighted marker differs in size and symbol
    from all of these. *)
Theorem highlight_precedes_podium (search name : string) (position : Z) :
  search <> "" ->
  (point_marker (Some search) position name
   = {| color := HIGHLIGHT_COLOR; size := 15; symbol := "star" |}
   <-> lower (strip name) = lower (strip search))
  /\ (lower (strip name) <> lower (strip search) ->
      (position = 1 -> point_marker (Some search) position name
                       = {| color := "#FFD700"; size := 12; symbol := "circle" |})
      /\ (position = 2 -> point_marker (Some search) position name
                          = {| color := "#C0C0C0"; size := 12; symbol := "circle" |})
      /\ (position = 3 -> point_marker (Some search) position name
                          = {| color := "#CD7F32"; size := 12; symbol := "circle" |})
      /\ (~ In position [1; 2; 3] ->
          point_marker (Some search) position name
          = {| color := DEFAULT_COLOR; size := 8; symbol := "circle" |})).
Proof.
  intros Hne. unfold point_marker, name_matches.
  assert (Ht : truthy (Some search) = true)
    by (destruct search; [congruence | reflexivity]).
  rewrite Ht. simpl andb.
  destruct (String.eqb_spec (lower (strip name)) (lower (strip search))) as [E | E].
  - split; [tauto | intros; contradiction].
  - split.
    + split; [| contradiction].
      destruct (podium position); intros [=].
    + intros _.
      destruct (podium_cases position)
        as [[-> ->] | [[-> ->] | [[-> ->] | [Hn ->]]]];
        repeat split; intros; try reflexivity; try lia;
        try (exfalso; apply Hn; simpl; lia); try (simpl in *; lia).
Qed.

Lemma highlight_precedes_podium_witness :
  "ALICE" <> ""
  /\ point_marker (Some "ALICE") 1 " Alice  "
     = {| color := HIGHLIGHT_COLOR; size := 15; symbol := "star" |}.
Proof.
  split; [discriminate |].
  apply (highlight_precedes_podium "ALICE" " Alice  " 1); [discriminate |].
  reflexivity.
Defined.

(** ** Facts on dictionaries *)

Section DictFacts.
Context {V : Type}.
Implicit Types (d : dict V) (k : string) (v : V).

Lemma dict_get_set d k k' v :
  dict_get k (dict_set k' v d) = if String.eqb k k' then Some v else dict_get k d.
Proof.
  induction d as [| [k0 v0] d IH]; simpl.
  - destruct (String.eqb k k'); reflexivity.
  - destruct (String.eqb_spec k' k0) as [-> | Hne]; simpl.
    + destruct (String.eqb k k0); reflexivity.
    + rewrite IH. destruct (String.eqb_spec k k0) as [-> | ?];
        destruct (String.eqb_spec k0 k'); congruence.
Qed.

Lemma dict_in_set d k k' v :
  dict_in k (dict_set k' v d) = String.eqb k k' || dict_in k d.
Proof.
  unfold dict_in. rewrite dict_get_set. destruct (String.eqb k k'); reflexivity.
Qed.

Lemma dict_set_same d k v : dict_get k d = Some v -> dict_set k v d = d.
Proof.
  induction d as [| [k0 v0] d IH]; simpl; [discriminate |].
  rewrite (String.eqb_sym k k0).
  destruct (String.eqb_spec k0 k) as [-> | Hne].
  - intros [= ->]. reflexivity.
  - intros H. rewrite IH by exact H. reflexivity.
Qed.

Lemma dict_keys_set d k v :
  dict_in k d = true -> dict_keys (dict_set k v d) = dict_keys d.
Proof.
  unfold dict_in, dict_keys.
  induction d as [| [k0 v0] d IH]; simpl; [discriminate |].
  destruct (String.eqb_spec k k0) as [-> | Hne]; simpl; [reflexivity |].
  intros H. rewrite IH by exact H. reflexivity.
Qed.

Lemma dict_in_keys d k : dict_in k d = str_in k (dict_keys d).
Proof.
  unfold dict_in, str_in, dict_keys.
  induction d as [| [k0 v0] d IH]; simpl; [reflexivity |].
  destruct (String.eqb k k0); simpl; [reflexivity | exact IH].
Qed.

End DictFacts.

Lemma str_in_In k l : str_in k l = true <-> In k l.
Proof.
  unfold str_in. rewrite existsb_exists. split.
  - intros (x & Hx & E). apply String.eqb_eq in E. subst. exact Hx.
  - intros H. exists k. split; [exact H | apply String.eqb_refl].
Qed.

Lemma str_in_app k l1 l2 : str_in k (l1 ++ l2) = str_in k l1 || str_in k l2.
Proof. unfold str_in. apply existsb_app. Qed.

(** ** Facts on admission *)

Lemma data_point_fold_in k r dp :
  dict_in k (fold_left collect r dp)
  = dict_in k dp
    || (str_in k RECORD_FIELDS && existsb (fun f : field => String.eqb k (fst f)) r).
Proof.
  revert dp. induction r as [| f r IH]; intros dp; simpl.
  - rewrite andb_false_r, orb_false_r. reflexivity.
  - rewrite IH. unfold collect.
    destruct (str_in (fst f) RECORD_FIELDS) eqn:E.
    + rewrite dict_in_set.
      destruct (String.eqb_spec k (fst f)) as [-> | Hne]; simpl.
      * rewrite E. destruct (dict_in (fst f) dp); reflexivity.
      * reflexivity.
    + destruct (String.eqb_spec k (fst f)) as [-> | Hne]; simpl.
      * rewrite E. reflexivity.
      * reflexivity.
Qed.

Lemma data_point_in k r :
  dict_in k (data_point r)
  = str_in k RECORD_FIELDS && existsb (fun f : field => String.eqb k (fst f)) r.
Proof. unfold data_point. apply (data_point_fold_in k r []). Qed.

Lemma data_point_has_timestamp r :
  dict_in "timestamp" (data_point r) = has_timestamp r.
Proof. rewrite data_point_in. reflexivity. Qed.

Lemma all_data_filter rs :
  all_data rs = map data_point (List.filter has_timestamp rs).
Proof.
  unfold all_data. induction rs as [| r rs IH]; simpl; [reflexivity |].
  rewrite data_point_has_timestamp. destruct (has_timestamp r); simpl; congruence.
Qed.

Lemma all_data_nil rs :
  forallb (fun r => negb (has_timestamp r)) rs = true -> all_data rs = [].
Proof.
  rewrite all_data_filter. induction rs as [| r rs IH]; simpl; [reflexivity |].
  destruct (has_timestamp r); simpl; [discriminate | exact IH].
Qed.

(** ** Facts on table construction *)

Lemma add_keys_in k cols (dp : dict value) :
  str_in k (add_keys cols dp) = str_in k cols || dict_in k dp.
Proof.
  unfold add_keys. rewrite dict_in_keys.
  generalize (dict_keys dp) as ks. intros ks. revert cols.
  induction ks as [| k0 ks IH]; intros cols; simpl.
  - unfold str_in at 3. simpl. rewrite orb_false_r. reflexivity.
  - rewrite IH. unfold add_key.
    change (str_in k (k0 :: ks)) with (String.eqb k k0 || str_in k ks).
    destruct (str_in k0 cols) eqn:E.
    + destruct (String.eqb_spec k k0) as [-> | ?]; simpl; [| reflexivity].
      rewrite E. reflexivity.
    + rewrite str_in_app.
      change (str_in k [k0]) with (String.eqb k k0 || false).
      rewrite orb_false_r, orb_assoc. reflexivity.
Qed.

Lemma union_keys_fold_in k dps cols :
  str_in k (fold_left add_keys dps cols)
  = str_in k cols || existsb (dict_in k) dps.
Proof.
  revert cols. induction dps as [| dp dps IH]; intros cols; simpl.
  - rewrite orb_false_r. reflexivity.
  - rewrite IH, add_keys_in, orb_assoc. reflexivity.
Qed.

Lemma union_keys_in k dps : str_in k (union_keys dps) = existsb (dict_in k) dps.
Proof. unfold union_keys. rewrite union_keys_fold_in. reflexivity. Qed.

Lemma dict_get_fill c cols (dp : dict value) :
  dict_get c (fill cols dp) = if str_in c cols then Some (cell c dp) else None.
Proof.
  unfold fill. induction cols as [| c0 cols IH]; simpl; [reflexivity |].
  change (str_in c (c0 :: cols)) with (String.eqb c c0 || str_in c cols).
  destruct (String.eqb_spec c c0) as [-> | ?]; simpl; [reflexivity | exact IH].
Qed.

Lemma cell_fill c cols (dp : dict value) :
  cell c (fill cols dp) = if str_in c cols then cell c dp else VNaN.
Proof. unfold cell at 1. rewrite dict_get_fill. destruct (str_in c cols); reflexivity. Qed.

Lemma cell_absent c (dp : dict value) : dict_in c dp = false -> cell c dp = VNaN.
Proof. unfold dict_in, cell. destruct (dict_get c dp); [discriminate | reflexivity]. Qed.

Lemma cell_fill_union c dps dp :
  In dp dps -> cell c (fill (union_keys dps) dp) = cell c dp.
Proof.
  intros Hin. rewrite cell_fill, union_keys_in.
  destruct (existsb (dict_in c) dps) eqn:E; [reflexivity |].
  symmetry. apply cell_absent.
  destruct (dict_in c dp) eqn:E'; [| reflexivity].
  assert (existsb (dict_in c) dps = true) by (apply existsb_exists; eauto).
  congruence.
Qed.

Lemma cell_to_degrees c' c row :
  cell c' (to_degrees c row)
  = if String.eqb c' c then degrees (cell c row) else cell c' row.
Proof.
  unfold to_degrees, cell at 1. rewrite dict_get_set.
  destruct (String.eqb c' c); reflexivity.
Qed.

(** ** Facts on picking rows by position *)

Lemma omap_cons_eq {A B} (f : A -> option B) x l :
  omap f (x :: l) = match f x with Some y => y :: omap f l | None => omap f l end.
Proof. reflexivity. Qed.

Lemma take_at_map {A B} (f : A -> B) positions (l : list A) :
  take_at positions (map f l) = map f (take_at positions l).
Proof.
  induction positions as [| i positions IH]; simpl; [reflexivity |].
  change (map f l) with (f <$> l) at 1. rewrite list_lookup_fmap.
  destruct (l !! i); simpl; rewrite IH; reflexivity.
Qed.

Lemma take_at_shift {A} (x : A) l positions :
  take_at (map S positions) (x :: l) = take_at positions l.
Proof.
  induction positions as [| i positions IH]; simpl; [reflexivity |].
  rewrite IH. reflexivity.
Qed.

Lemma take_at_all {A} (l : list A) : take_at (seq 0 (length l)) l = l.
Proof.
  induction l as [| x l IH]; [reflexivity |].
  simpl length. simpl seq. rewrite <- seq_shift.
  simpl. rewrite take_at_shift, IH. reflexivity.
Qed.

Lemma take_at_perm {A} (l : list A) positions positions' :
  Permutation positions positions' ->
  Permutation (take_at positions l) (take_at positions' l).
Proof.
  induction 1 as [| i ps ps' _ IH | i j ps | ps1 ps2 ps3 _ IH1 _ IH2]; simpl.
  - constructor.
  - destruct (l !! i); [constructor |]; exact IH.
  - destruct (l !! i), (l !! j); try reflexivity. constructor.
  - etransitivity; eassumption.
Qed.

Lemma take_at_Permutation {A} positions (l : list A) :
  Permutation positions (seq 0 (length l)) -> Permutation (take_at positions l) l.
Proof.
  intros H. rewrite <- (take_at_all l) at 2. apply take_at_perm, H.
Qed.

Lemma take_at_length {A} positions (l : list A) :
  Permutation positions (seq 0 (length l)) -> length (take_at positions l) = length l.
Proof. intros H. apply Permutation_length, take_at_Permutation, H. Qed.

Lemma take_at_In {A} positions (l : list A) x : In x (take_at positions l) -> In x l.
Proof.
  induction positions as [| i positions IH]; simpl; [tauto |].
  destruct (l !! i) as [y |] eqn:E; [| exact IH].
  intros [<- | H]; [| auto].
  apply list_elem_of_In, list_elem_of_lookup. eauto.
Qed.

Lemma omap_take_at {A B} (f : A -> option B) positions (l : list A) (ys : list B) :
  map f l = map Some ys ->
  omap f (take_at positions l) = take_at positions ys.
Proof.
  intros H.
  induction positions as [| i positions IH]; simpl; [reflexivity |].
  assert (E : f <$> (l !! i) = Some <$> (ys !! i)).
  { rewrite <- !list_lookup_fmap. change (map f l !! i = map Some ys !! i).
    rewrite H. reflexivity. }
  destruct (l !! i) as [x |], (ys !! i) as [y |]; simpl in E; try discriminate.
  - injection E as E. rewrite omap_cons_eq, E, IH. reflexivity.
  - exact IH.
Qed.

Lemma omap_map_Some {A B} (f : A -> option B) (l : list A) (ys : list B) :
  map f l = map Some ys -> omap f l = ys.
Proof.
  revert ys. induction l as [| x l IH]; intros [| y ys] H; simpl in H;
    try discriminate; [reflexivity |].
  injection H as E H. rewrite omap_cons_eq, E, (IH _ H). reflexivity.
Qed.

(** ** Facts on the payload types *)

Lemma data_point_typed r : profile_record r = true -> typed_bag (data_point r).
Proof.
  unfold data_point, profile_record.
  assert (H : forall dp, typed_bag dp -> forallb profile_field r = true ->
                         typed_bag (fold_left collect r dp)).
  { induction r as [| f r IH]; intros dp Hdp Hr; simpl in *; [exact Hdp |].
    apply andb_true_iff in Hr as [Hf Hr]. apply IH; [| exact Hr].
    unfold collect. destruct (str_in (fst f) RECORD_FIELDS); [| exact Hdp].
    intros k v. rewrite dict_get_set.
    destruct (String.eqb_spec k (fst f)) as [-> | ?]; [| apply Hdp].
    intros [= <-]. destruct f; exact Hf. }
  intros Hr. apply H; [| exact Hr]. intros k v [=].
Qed.

Lemma typed_timestamp dp :
  typed_bag dp -> dict_in "timestamp" dp = true ->
  exists t, cell "timestamp" dp = VTime t.
Proof.
  unfold dict_in, cell. intros Ht Hin.
  destruct (dict_get "timestamp" dp) as [v |] eqn:E; [| discriminate].
  specialize (Ht _ _ E). destruct v; try discriminate. simpl. eauto.
Qed.

Lemma typed_heart_rate dp :
  typed_bag dp ->
  (exists n, cell "heart_rate" dp = VInt n) \/ cell "heart_rate" dp = VNaN.
Proof.
  unfold cell. intros Ht.
  destruct (dict_get "heart_rate" dp) as [v |] eqn:E; [| right; reflexivity].
  specialize (Ht _ _ E). destruct v; try discriminate; simpl; eauto.
Qed.

Lemma typed_position c dp :
  c = "position_lat" \/ c = "position_long" ->
  typed_bag dp -> semicircles_to_degrees (cell c dp) = Ok (degrees (cell c dp)).
Proof.
  unfold cell, degrees. intros Hc Ht.
  destruct (dict_get c dp) as [v |] eqn:E; [| reflexivity].
  specialize (Ht _ _ E).
  destruct Hc as [-> | ->]; destruct v; try discriminate; reflexivity.
Qed.

Lemma all_data_typed rs :
  forallb profile_record rs = true ->
  Forall (fun dp => typed_bag dp /\ dict_in "timestamp" dp = true) (all_data rs).
Proof.
  intros H. apply List.Forall_forall. intros dp Hin.
  unfold all_data in Hin. apply filter_In in Hin as [Hin Hts].
  apply in_map_iff in Hin as (r & <- & Hr).
  split; [| exact Hts]. apply data_point_typed.
  rewrite forallb_forall in H. auto.
Qed.

(** ** Facts on column operations *)

Lemma mapM_ok_map {A B} (f : A -> res B) (g : A -> B) l :
  Forall (fun x => f x = Ok (g x)) l -> mapM f l = Ok (map g l).
Proof.
  induction 1 as [| x l Hx _ IH]; simpl; [reflexivity |].
  rewrite Hx, IH. reflexivity.
Qed.

Lemma mapM_length {A B} (f : A -> res B) l ys :
  mapM f l = Ok ys -> length ys = length l.
Proof.
  revert ys. induction l as [| x l IH]; simpl; intros ys.
  - intros [= <-]. reflexivity.
  - destruct (f x); simpl; [| discriminate].
    destruct (mapM f l); simpl; [| discriminate].
    intros [= <-]. simpl. rewrite (IH _ eq_refl). reflexivity.
Qed.

Lemma zip_with_map_r {A B C} (f : A -> B -> C) (g : A -> B) l :
  zip_with f l (map g l) = map (fun x => f x (g x)) l.
Proof. induction l as [| x l IH]; simpl; [| rewrite IH]; reflexivity. Qed.

Lemma map_id_on {A} (f : A -> A) l : Forall (fun x => f x = x) l -> map f l = l.
Proof. induction 1 as [| x l Hx _ IH]; simpl; [| rewrite Hx, IH]; reflexivity. Qed.

Lemma setitem_same df c :
  str_in c (columns df) = true ->
  Forall (fun row => dict_get c row = Some (cell c row)) (rows df) ->
  setitem df c (map (cell c) (rows df)) = df.
Proof.
  intros Hc Hrows. unfold setitem. rewrite Hc, zip_with_map_r.
  rewrite map_id_on.
  - destruct df; reflexivity.
  - eapply List.Forall_impl; [| exact Hrows]. simpl. intros row. apply dict_set_same.
Qed.

Lemma as_time_column rows keys :
  map row_time rows = map Some keys ->
  mapM as_time (map (cell "timestamp") rows) = Ok keys.
Proof.
  revert keys. induction rows as [| row rows IH]; intros [| t keys] H;
    simpl in H; try discriminate; [reflexivity |].
  injection H as Hrow H. simpl. unfold row_time in Hrow.
  destruct (cell "timestamp" row); try discriminate.
  injection Hrow as ->. simpl. rewrite (IH _ H). reflexivity.
Qed.

Lemma to_datetime_column rows keys :
  map row_time rows = map Some keys ->
  mapM to_datetime (map (cell "timestamp") rows) = Ok (map (cell "timestamp") rows).
Proof.
  intros H. rewrite <- (map_id (map (cell "timestamp") rows)) at 2.
  apply mapM_ok_map. apply List.Forall_forall. intros v Hv.
  apply in_map_iff in Hv as (row & <- & Hrow).
  assert (Hin : In (row_time row) (map Some keys))
    by (rewrite <- H; apply in_map; exact Hrow).
  apply in_map_iff in Hin as (t & Ht & _). unfold row_time in Ht.
  destruct (cell "timestamp" row); try discriminate. reflexivity.
Qed.

Lemma convert_column_present c df :
  str_in c (columns df) = true ->
  Forall (fun row => semicircles_to_degrees (cell c row) = Ok (degrees (cell c row)))
         (rows df) ->
  convert_column c df
  = Ok {| columns := columns df; index := index df;
          rows := map (to_degrees c) (rows df) |}.
Proof.
  intros Hc Hrows. unfold convert_column, getitem. rewrite Hc. simpl rbind.
  rewrite (mapM_ok_map _ degrees).
  - simpl rbind. unfold setitem. rewrite Hc, map_map, zip_with_map_r. reflexivity.
  - apply List.Forall_forall. intros v Hv.
    apply in_map_iff in Hv as (row & <- & Hrow).
    rewrite List.Forall_forall in Hrows. auto.
Qed.

Lemma convert_column_absent c df :
  str_in c (columns df) = false -> convert_column c df = Ok df.
Proof. intros Hc. unfold convert_column. rewrite Hc. reflexivity. Qed.

(** ** The normalizer, step by step *)

Lemma all_data_keys rs :
  forallb profile_record rs = true ->
  exists keys, map row_time (all_data rs) = map Some keys.
Proof.
  intros H. pose proof (all_data_typed rs H) as Ht.
  induction Ht as [| dp bags [Hdp Hts] _ [keys IH]].
  - exists []. reflexivity.
  - destruct (typed_timestamp dp Hdp Hts) as [t Et].
    exists (t :: keys). simpl. rewrite IH. unfold row_time. rewrite Et. reflexivity.
Qed.

Lemma row_time_fill dps dp :
  In dp dps -> row_time (fill (union_keys dps) dp) = row_time dp.
Proof. intros H. unfold row_time. rewrite cell_fill_union by exact H. reflexivity. Qed.

Lemma row_time_convert_row cols row : row_time (convert_row cols row) = row_time row.
Proof.
  unfold convert_row, row_time.
  destruct (str_in "position_lat" cols), (str_in "position_long" cols);
    rewrite ?cell_to_degrees; reflexivity.
Qed.

Lemma parse_fit_file_pipeline argsort rs :
  forallb profile_record rs = true -> all_data rs <> [] ->
  exists keys,
    map row_time (all_data rs) = map Some keys
    /\ parse_fit_file argsort rs
       = Some {| columns := union_keys (all_data rs);
                 index := seq 0 (length (take_at (argsort keys) (all_data rs)));
                 rows := map (fun dp => convert_row (union_keys (all_data rs))
                                          (fill (union_keys (all_data rs)) dp))
                             (take_at (argsort keys) (all_data rs)) |}.
Proof.
  intros Hprof Hne.
  destruct (all_data_keys rs Hprof) as [keys Hkeys].
  pose proof (all_data_typed rs Hprof) as Htyped.
  exists keys. split; [exact Hkeys |].
  unfold parse_fit_file, parse_fit_file_try.
  remember (all_data rs) as bags eqn:Ebags. clear Ebags.
  destruct bags as [| dp0 bags'] eqn:Eall; [congruence |].
  cbv beta iota zeta. rewrite <- Eall in *.
  pose (cols := union_keys bags). fold cols.
  assert (Hcol : str_in "timestamp" cols = true).
  { unfold cols. rewrite union_keys_in. apply existsb_exists. exists dp0.
    rewrite Eall in Htyped. apply Forall_cons_1 in Htyped as [[_ H] _].
    split; [rewrite Eall; left; reflexivity | exact H]. }
  assert (Hkeys0 : map row_time (map (fill cols) bags) = map Some keys).
  { rewrite <- Hkeys, map_map. apply map_ext_in. intros dp Hdp.
    apply row_time_fill. exact Hdp. }
  pose (df0 := DataFrame_new bags). fold df0.
  assert (Hget : getitem df0 "timestamp"
                 = Ok (map (cell "timestamp") (map (fill cols) bags))).
  { unfold getitem, df0, DataFrame_new. simpl columns. fold cols.
    rewrite Hcol. reflexivity. }
  rewrite Hget. simpl rbind.
  rewrite (to_datetime_column _ keys Hkeys0). simpl rbind.
  assert (Hset : setitem df0 "timestamp" (map (cell "timestamp") (map (fill cols) bags))
                 = df0).
  { apply (setitem_same df0 "timestamp"); [exact Hcol |].
    apply List.Forall_forall. intros row Hrow. simpl in Hrow. fold cols in Hrow.
    apply in_map_iff in Hrow as (dp & <- & _).
    rewrite dict_get_fill, Hcol. unfold cell at 2. rewrite dict_get_fill, Hcol.
    reflexivity. }
  rewrite Hset. unfold sort_values_timestamp. rewrite Hget. simpl rbind.
  rewrite (as_time_column _ keys Hkeys0). simpl rbind.
  unfold reset_index_drop, len. simpl columns. simpl rows. simpl index.
  fold cols. rewrite take_at_map.
  pose (sorted := take_at (argsort keys) bags). fold sorted.
  assert (Hsorted : forall dp, In dp sorted -> In dp bags /\ typed_bag dp).
  { intros dp Hdp. apply take_at_In in Hdp. split; [exact Hdp |].
    rewrite List.Forall_forall in Htyped. apply Htyped. exact Hdp. }
  assert (Hlat : forall c, c = "position_lat" \/ c = "position_long" ->
            Forall (fun row => semicircles_to_degrees (cell c row)
                               = Ok (degrees (cell c row)))
                   (map (fill cols) sorted)).
  { intros c Hc. apply List.Forall_forall. intros row Hrow.
    apply in_map_iff in Hrow as (dp & <- & Hdp).
    destruct (Hsorted dp Hdp) as [Hin Ht].
    unfold cols. rewrite cell_fill_union by exact Hin.
    apply typed_position; assumption. }
  rewrite length_map.
  unfold convert_row.
  destruct (str_in "position_lat" cols) eqn:Elat.
  - rewrite convert_column_present; [| exact Elat | apply Hlat; auto].
    simpl rbind. simpl columns. simpl rows. simpl index.
    destruct (str_in "position_long" cols) eqn:Elong.
    + rewrite convert_column_present; simpl columns; simpl rows; simpl index.
      * simpl rbind. rewrite !map_map. reflexivity.
      * exact Elong.
      * apply List.Forall_forall. intros row Hrow.
        apply in_map_iff in Hrow as (row' & <- & Hrow').
        rewrite cell_to_degrees. simpl String.eqb.
        specialize (Hlat "position_long" (or_intror eq_refl)).
        rewrite List.Forall_forall in Hlat. auto.
    + rewrite convert_column_absent by exact Elong.
      simpl rbind. rewrite !map_map. reflexivity.
  - rewrite convert_column_absent by exact Elat. simpl rbind.
    destruct (str_in "position_long" cols) eqn:Elong.
    + rewrite convert_column_present; [| exact Elong | apply Hlat; auto].
      simpl rbind. simpl columns. simpl rows. simpl index.
      rewrite !map_map. reflexivity.
    + rewrite convert_column_absent by exact Elong. simpl rbind.
      reflexivity.
Qed.

(** ** Facts on argsort *)

Lemma zip_seq_lookup (keys : list Z) s k i :
  In (k, i) (zip keys (seq s (length keys))) ->
  exists j, i = (s + j)%nat /\ keys !! j = Some k.
Proof.
  revert s. induction keys as [| k0 keys IH]; intros s; simpl; [tauto |].
  intros [[= -> ->] | H].
  - exists 0%nat. split; [lia | reflexivity].
  - destruct (IH _ H) as (j & -> & Hj). exists (S j). split; [lia | exact Hj].
Qed.

Lemma take_at_pairs (keys : list Z) (pairs : list (Z * nat)) :
  Forall (fun p => keys !! snd p = Some (fst p)) pairs ->
  take_at (map snd pairs) keys = map fst pairs.
Proof.
  induction 1 as [| p pairs Hp _ IH]; simpl; [reflexivity |].
  rewrite Hp, IH. reflexivity.
Qed.

Lemma Sorted_map_fst (R : relation (Z * nat)) (pairs : list (Z * nat)) :
  (forall a b, R a b -> fst a <= fst b) ->
  Sorted R pairs -> Sorted Z.le (map fst pairs).
Proof.
  intros HR. induction 1 as [| p pairs _ IH Hd]; simpl; constructor; [exact IH |].
  destruct Hd; simpl; constructor. auto.
Qed.

Lemma argsort_by_ok (R : relation (Z * nat)) `{!RelDecision R, !Total R} :
  (forall a b, R a b -> fst a <= fst b) -> argsort_ok (argsort_by R).
Proof.
  intros HR keys. unfold argsort_by.
  pose proof (merge_sort_Permutation R (zip keys (seq 0 (length keys)))) as Hperm.
  split.
  - rewrite (Permutation_map snd Hperm).
    change (map snd (zip keys (seq 0 (length keys))))
      with ((zip keys (seq 0 (length keys))).*2).
    rewrite snd_zip by (rewrite length_seq; lia). reflexivity.
  - rewrite take_at_pairs.
    + apply (Sorted_map_fst R); [exact HR |]. apply Sorted_merge_sort. exact _.
    + apply List.Forall_forall. intros [k i] Hin. simpl.
      apply (Permutation_in _ Hperm) in Hin.
      destruct (zip_seq_lookup _ _ _ _ Hin) as (j & -> & Hj). exact Hj.
Qed.

Lemma merge_argsort_ok : argsort_ok merge_argsort.
Proof.
  apply argsort_by_ok.
  - intros a b. unfold key_le. lia.
  - intros a b H. exact H.
Qed.

(** ** The normalizer's output *)

Lemma filter_Permutation_bool {A} (f : A -> bool) l l' :
  Permutation l l' -> Permutation (List.filter f l) (List.filter f l').
Proof.
  induction 1 as [| x l l' _ IH | x y l | l1 l2 l3 _ IH1 _ IH2]; simpl.
  - constructor.
  - destruct (f x); [constructor |]; exact IH.
  - destruct (f x), (f y); try reflexivity. constructor.
  - etransitivity; eassumption.
Qed.

Lemma all_data_Permutation rs rs' :
  Permutation rs rs' -> Permutation (all_data rs) (all_data rs').
Proof.
  intros H. unfold all_data. apply filter_Permutation_bool, Permutation_map, H.
Qed.

Lemma row_cells_convert_row dps dp :
  In dp dps ->
  row_cells (convert_row (union_keys dps) (fill (union_keys dps) dp))
  = expected_cells dp.
Proof.
  intros Hin. unfold row_cells, expected_cells. apply map_ext. intros c.
  unfold convert_row, expected_cell.
  assert (Hc : forall c', cell c' (fill (union_keys dps) dp) = cell c' dp)
    by (intros; apply cell_fill_union; exact Hin).
  assert (Habs : forall c', str_in c' (union_keys dps) = false -> cell c' dp = VNaN).
  { intros c' E. rewrite <- (Hc c'), cell_fill, E. reflexivity. }
  pose proof (Habs "position_lat") as Hlat.
  pose proof (Habs "position_long") as Hlong.
  destruct (str_in "position_lat" (union_keys dps)),
           (str_in "position_long" (union_keys dps));
    rewrite ?cell_to_degrees, ?Hc;
    destruct (String.eqb_spec c "position_long") as [E1 | N1];
    destruct (String.eqb_spec c "position_lat") as [E2 | N2];
    try (exfalso; congruence); try rewrite E1; try rewrite E2; simpl;
    rewrite ?Hlat, ?Hlong by reflexivity; reflexivity.
Qed.

Lemma parse_fit_file_sorted argsort rs :
  argsort_ok argsort ->
  forallb profile_record rs = true ->
  existsb has_timestamp rs = true ->
  exists df,
    parse_fit_file argsort rs = Some df
    /\ Sorted Z.le (times df)
    /\ Permutation (times df) (omap row_time (all_data rs))
    /\ length (times df) = len df
    /\ index df = seq 0 (len df)
    /\ len df = length (List.filter has_timestamp rs)
    /\ Permutation (map row_cells (rows df)) (map expected_cells (all_data rs)).
Proof.
  intros Hsort Hprof Hsome.
  assert (Hne : all_data rs <> []).
  { rewrite all_data_filter. apply existsb_exists in Hsome as (r & Hr & Ht).
    intros E. apply (in_map data_point) in Hr as Hr'.
    assert (Hin : In r (List.filter has_timestamp rs)) by (apply filter_In; auto).
    apply (in_map data_point) in Hin. rewrite E in Hin. exact Hin. }
  destruct (parse_fit_file_pipeline argsort rs Hprof Hne) as (keys & Hkeys & Hparse).
  destruct (Hsort keys) as [Hperm Hsorted].
  assert (Hlen : length keys = length (all_data rs)).
  { rewrite <- (length_map Some keys), <- Hkeys, length_map. reflexivity. }
  pose proof (take_at_Permutation _ _ Hperm) as Hpk.
  rewrite Hlen in Hperm.
  pose proof (take_at_Permutation _ _ Hperm) as Hpb.
  pose (cols := union_keys (all_data rs)). fold cols in Hparse.
  pose (sorted := take_at (argsort keys) (all_data rs)). fold sorted in Hparse, Hpb.
  assert (Hin : forall dp, In dp sorted -> In dp (all_data rs))
    by (intros dp; apply take_at_In).
  assert (Htimes : omap row_time (map (fun dp => convert_row cols (fill cols dp)) sorted)
                   = take_at (argsort keys) keys).
  { apply omap_map_Some. rewrite map_map, <- take_at_map, <- Hkeys, take_at_map.
    apply map_ext_in. intros dp Hdp.
    rewrite row_time_convert_row. apply row_time_fill. auto. }
  eexists. split; [exact Hparse |].
  unfold times, len. simpl rows. simpl index.
  rewrite Htimes, !length_map.
  split; [exact Hsorted |].
  split; [rewrite (omap_map_Some _ _ _ Hkeys); exact Hpk |].
  split; [rewrite (Permutation_length Hpk), (Permutation_length Hpb); exact Hlen |].
  split; [reflexivity |].
  split.
  - rewrite (Permutation_length Hpb), all_data_filter, length_map. reflexivity.
  - rewrite map_map.
    rewrite (map_ext_in _ expected_cells).
    + apply Permutation_map. exact Hpb.
    + intros dp Hdp. apply row_cells_convert_row. auto.
Qed.

(** C6. The normalizer keeps a bag exactly when the bag holds a
    [timestamp] field, which is the same as its allow-list-filtered
    [data_point] holding one: the admitted sequence is the input with the
    bags lacking a timestamp removed, in input order; a bag with no
    timestamp is dropped whatever else it holds, a bag holding nothing
    but a timestamp is kept; the parser returns no table when no bag is
    admitted, and otherwise (on profile-conforming records) a table with
    one row for each bag holding a timestamp and no other row. *)
Theorem timestamp_is_the_admission_criterion :
  (forall r, dict_in "timestamp" (data_point r) = has_timestamp r)
  /\ (forall rs, all_data rs = map data_point (List.filter has_timestamp rs))
  /\ (forall rs r, In r rs ->
        (has_timestamp r = true -> In (data_point r) (all_data rs))
        /\ (has_timestamp r = false ->
            forall dp, In dp (all_data rs) -> dict_in "timestamp" dp = true
                                              /\ dp <> data_point r))
  /\ (forall v, all_data [[("timestamp", v)]] = [[("timestamp", v)]])
  /\ (forall argsort rs,
        forallb (fun r => negb (has_timestamp r)) rs = true ->
        parse_fit_file argsort rs = None)
  /\ (forall argsort rs,
        argsort_ok argsort ->
        forallb profile_record rs = true ->
        existsb has_timestamp rs = true ->
        exists df,
          parse_fit_file argsort rs = Some df
          /\ len df = length (List.filter has_timestamp rs)
          /\ Permutation (map row_cells (rows df))
               (map expected_cells (map data_point (List.filter has_timestamp rs)))).
Proof.
  split; [exact data_point_has_timestamp |].
  split; [exact all_data_filter |].
  split; [| split; [| split]].
  - intros rs r Hin. split.
    + intros Ht. rewrite all_data_filter. apply in_map.
      apply filter_In. auto.
    + intros Hf dp Hdp. unfold all_data in Hdp.
      apply filter_In in Hdp as [_ Hdp]. split; [exact Hdp |].
      intros ->. rewrite data_point_has_timestamp in Hdp. congruence.
  - intros v. reflexivity.
  - intros argsort rs H. unfold parse_fit_file, parse_fit_file_try.
    rewrite (all_data_nil rs H). reflexivity.
  - intros argsort rs Hsort Hprof Hsome.
    destruct (parse_fit_file_sorted argsort rs Hsort Hprof Hsome)
      as (df & Hparse & _ & _ & _ & _ & Hcount & Hrows).
    exists df. rewrite <- all_data_filter. auto.
Qed.

Lemma timestamp_is_the_admission_criterion_witness :
  In (data_point [("timestamp", VTime 7)])
     (all_data [ [("heart_rate", VInt 99); ("cadence", VInt 80)];
                 [("timestamp", VTime 7)] ])
  /\ all_data [ [("heart_rate", VInt 99); ("cadence", VInt 80)] ] = [].
Proof.
  destruct timestamp_is_the_admission_criterion as (_ & Hfilter & Hin & _).
  split.
  - apply (Hin _ [("timestamp", VTime 7)]).
    + right. left. reflexivity.
    + reflexivity.
  - rewrite Hfilter. reflexivity.
Defined.

(** C4, as amended. On profile-conforming records of which at least one
    holds a timestamp, and for any argsort that orders its keys, the
    normalizer returns a table whose timestamps are non-decreasing, whose
    rows are labelled 0, 1, ... in order, and whose rows are the admitted
    bags, each once (cell by cell over the recognised fields, positions
    in degrees); for any rearrangement of the input the timestamps column
    is the same and the rows are the same up to order. *)
Theorem normalizer_sorts_by_timestamp argsort rs :
  argsort_ok argsort ->
  forallb profile_record rs = true ->
  existsb has_timestamp rs = true ->
  exists df,
    parse_fit_file argsort rs = Some df
    /\ Sorted Z.le (times df)
    /\ length (times df) = len df
    /\ index df = seq 0 (len df)
    /\ len df = length (List.filter has_timestamp rs)
    /\ Permutation (map row_cells (rows df)) (map expected_cells (all_data rs))
    /\ forall rs', Permutation rs rs' ->
         exists df', parse_fit_file argsort rs' = Some df'
           /\ times df' = times df
           /\ Permutation (map row_cells (rows df')) (map row_cells (rows df)).
Proof.
  intros Hsort Hprof Hsome.
  destruct (parse_fit_file_sorted argsort rs Hsort Hprof Hsome)
    as (df & Hparse & Hsorted & Hkeys & Hlen & Hidx & Hcount & Hrows).
  exists df. repeat (split; [assumption |]).
  intros rs' Hperm.
  assert (Hprof' : forallb profile_record rs' = true).
  { rewrite forallb_forall in *. intros r Hr. apply Hprof.
    apply (Permutation_in _ (Permutation_sym Hperm)). exact Hr. }
  assert (Hsome' : existsb has_timestamp rs' = true).
  { apply existsb_exists in Hsome as (r & Hr & Ht). apply existsb_exists.
    exists r. split; [apply (Permutation_in _ Hperm); exact Hr | exact Ht]. }
  destruct (parse_fit_file_sorted argsort rs' Hsort Hprof' Hsome')
    as (df' & Hparse' & Hsorted' & Hkeys' & _ & _ & _ & Hrows').
  pose proof (all_data_Permutation rs rs' Hperm) as Hbags.
  exists df'. split; [exact Hparse' |]. split.
  - apply (Sorted_unique Z.le); [exact Hsorted' | exact Hsorted |].
    rewrite Hkeys', Hkeys. symmetry. apply omap_Permutation. exact Hbags.
  - rewrite Hrows', Hrows. symmetry. apply Permutation_map. exact Hbags.
Qed.

Lemma normalizer_sorts_by_timestamp_witness :
  exists df,
    parse_fit_file merge_argsort two_bags_one_instant = Some df
    /\ Sorted Z.le (times df) /\ index df = seq 0 (len df).
Proof.
  destruct (normalizer_sorts_by_timestamp merge_argsort two_bags_one_instant
              merge_argsort_ok eq_refl eq_refl)
    as (df & Hparse & Hsorted & _ & Hidx & _).
  exists df. auto.
Defined.

(** C4, counterexample to stability. Eighteen records, one a second but
    for the eighth and the ninth (heart rates 107 and 108), which share
    second 7: the library's quicksort returns a rearrangement of the
    positions that orders the keys, and the normalizer's table has the
    record with heart rate 108 above the one with 107, against their
    order in the input. *)
Lemma equal_timestamps_may_swap :
  omap row_time (all_data one_second_twice)
  = [0; 1; 2; 3; 4; 5; 6; 7; 7; 8; 9; 10; 11; 12; 13; 14; 15; 16]
  /\ map (cell "heart_rate") (all_data one_second_twice)
     = map VInt [100; 101; 102; 103; 104; 105; 106; 107; 108; 109; 110; 111;
                 112; 113; 114; 115; 116; 117]
  /\ aquicksort [0; 1; 2; 3; 4; 5; 6; 7; 7; 8; 9; 10; 11; 12; 13; 14; 15; 16]
     = Some [0; 1; 2; 3; 4; 5; 6; 8; 7; 9; 10; 11; 12; 13; 14; 15; 16; 17]%nat
  /\ option_map (fun df => (times df, map (cell "heart_rate") (rows df)))
                (parse_fit_file quicksort_argsort one_second_twice)
     = Some ([0; 1; 2; 3; 4; 5; 6; 7; 7; 8; 9; 10; 11; 12; 13; 14; 15; 16],
             map VInt [100; 101; 102; 103; 104; 105; 106; 108; 107; 109; 110;
                       111; 112; 113; 114; 115; 116; 117]).
Proof.
  repeat split; vm_compute; reflexivity.
Qed.

(** ** The normalizer returns normalized sessions *)

Lemma Sorted_nondecreasing ts : Sorted Z.le ts -> nondecreasing ts = true.
Proof.
  induction 1 as [| x ts _ IH Hd]; [reflexivity |].
  destruct Hd as [| y ts' Hxy]; [reflexivity |].
  simpl. apply andb_true_iff. split; [apply Z.leb_le; exact Hxy | exact IH].
Qed.

Lemma dict_keys_fill cols (dp : dict value) : dict_keys (fill cols dp) = cols.
Proof.
  unfold dict_keys, fill. rewrite map_map. simpl. apply map_id.
Qed.

Lemma dict_keys_convert_row cols (dp : dict value) :
  dict_keys (convert_row cols (fill cols dp)) = cols.
Proof.
  unfold convert_row, to_degrees.
  destruct (str_in "position_lat" cols) eqn:Elat,
           (str_in "position_long" cols) eqn:Elong;
    rewrite ?dict_keys_set, ?dict_keys_fill;
    try reflexivity;
    unfold dict_in; rewrite ?dict_get_set, ?dict_get_fill, ?Elat, ?Elong;
    reflexivity.
Qed.

Lemma cell_heart_rate_convert_row cols row :
  cell "heart_rate" (convert_row cols row) = cell "heart_rate" row.
Proof.
  unfold convert_row.
  destruct (str_in "position_lat" cols), (str_in "position_long" cols);
    rewrite ?cell_to_degrees; reflexivity.
Qed.

Lemma filter_length_le {A} (p : A -> bool) l :
  (length (List.filter p l) <= length l)%nat.
Proof. induction l as [| x l IH]; simpl; [| destruct (p x); simpl]; lia. Qed.

Lemma parse_fit_file_normalized argsort rs df :
  argsort_ok argsort ->
  forallb profile_record rs = true ->
  Z.of_nat (length rs) < 2 ^ 53 ->
  parse_fit_file argsort rs = Some df ->
  normalized df = true.
Proof.
  intros Hsort Hprof Hsize Hparse.
  assert (Hne : all_data rs <> []).
  { intros E. unfold parse_fit_file, parse_fit_file_try in Hparse.
    rewrite E in Hparse. discriminate. }
  assert (Hsome : existsb has_timestamp rs = true).
  { destruct (all_data rs) as [| dp bags] eqn:E; [congruence |].
    assert (Hin : In dp (all_data rs)) by (rewrite E; left; reflexivity).
    rewrite all_data_filter in Hin. apply in_map_iff in Hin as (r & _ & Hr).
    apply filter_In in Hr. apply existsb_exists. eauto. }
  destruct (parse_fit_file_sorted argsort rs Hsort Hprof Hsome)
    as (df' & Hparse' & Hsorted & _ & _ & _ & Hcount & _).
  rewrite Hparse in Hparse'. injection Hparse' as <-.
  destruct (parse_fit_file_pipeline argsort rs Hprof Hne) as (keys & Hkeys & Hshape).
  rewrite Hparse in Hshape. injection Hshape as Hshape.
  pose proof (all_data_typed rs Hprof) as Htyped.
  rewrite List.Forall_forall in Htyped.
  assert (Hrows : forall row, In row (rows df) ->
            exists dp, In dp (all_data rs)
              /\ row = convert_row (union_keys (all_data rs))
                         (fill (union_keys (all_data rs)) dp)).
  { intros row Hrow. rewrite Hshape in Hrow. simpl in Hrow.
    apply in_map_iff in Hrow as (dp & <- & Hdp). apply take_at_In in Hdp. eauto. }
  assert (Hcols : columns df = union_keys (all_data rs))
    by (rewrite Hshape; reflexivity).
  unfold normalized. repeat (apply andb_true_iff; split).
  - unfold dense. apply forallb_forall. intros row Hrow.
    destruct (Hrows row Hrow) as (dp & _ & ->).
    apply bool_decide_eq_true. rewrite Hcols. apply dict_keys_convert_row.
  - apply forallb_forall. intros row Hrow.
    destruct (Hrows row Hrow) as (dp & Hdp & ->).
    unfold has_time. rewrite row_time_convert_row, row_time_fill by exact Hdp.
    destruct (Htyped dp Hdp) as [Ht Hts].
    destruct (typed_timestamp dp Ht Hts) as [t Et].
    unfold row_time. rewrite Et. reflexivity.
  - apply Sorted_nondecreasing. exact Hsorted.
  - apply forallb_forall. intros row Hrow.
    destruct (Hrows row Hrow) as (dp & Hdp & ->).
    rewrite cell_heart_rate_convert_row, cell_fill_union by exact Hdp.
    destruct (Htyped dp Hdp) as [Ht _].
    destruct (typed_heart_rate dp Ht) as [[n ->] | ->]; reflexivity.
  - apply Z.ltb_lt. rewrite Hcount.
    pose proof (filter_length_le has_timestamp rs). lia.
Qed.

(** ** Facts on the trailing window *)

Lemma mapM_bind_map {A B C} (f : A -> res B) (g : B -> C) l ys :
  mapM f l = Ok ys ->
  mapM (fun x => let* y := f x in Ok (g y)) l = Ok (map g ys).
Proof.
  revert ys. induction l as [| x l IH]; simpl; intros ys.
  - intros [= <-]. reflexivity.
  - destruct (f x) as [y |]; simpl; [| discriminate].
    destruct (mapM f l) as [ys' |]; simpl; [| discriminate].
    intros [= <-]. rewrite (IH _ eq_refl). reflexivity.
Qed.

Lemma times_total rows :
  forallb has_time rows = true ->
  map row_time rows = map Some (omap row_time rows).
Proof.
  induction rows as [| row rows IH]; intros H; [reflexivity |].
  simpl in H. apply andb_true_iff in H as [Hrow H].
  rewrite omap_cons_eq. unfold has_time in Hrow.
  destruct (row_time row) eqn:E; [| discriminate].
  simpl map. rewrite E, (IH H). reflexivity.
Qed.

Lemma select_snoc {A} mask (l : list A) x :
  length mask = length l ->
  select (mask ++ [true]) (l ++ [x]) = select mask l ++ [x].
Proof.
  revert l. induction mask as [| b mask IH]; intros [| y l] H; simpl in H;
    try discriminate; [reflexivity |].
  simpl. rewrite IH by lia. destruct b; reflexivity.
Qed.

Lemma select_filter {A} (p : Z -> bool) (time : A -> option Z) l ts :
  map time l = map Some ts ->
  select (map p ts) l
  = List.filter (fun x => match time x with Some t => p t | None => false end) l.
Proof.
  revert ts. induction l as [| x l IH]; intros [| t ts] H; simpl in H;
    try discriminate; [reflexivity |].
  injection H as Hx H. simpl. rewrite Hx, (IH _ H). reflexivity.
Qed.

Lemma iloc_first {A} (x : A) l : iloc (x :: l) 0 = Ok x.
Proof.
  unfold iloc. cbv zeta. change (0 <? 0) with false. cbv iota.
  destruct (Z.ltb_spec 0 (Z.of_nat (length (x :: l)))) as [_ | H];
    [reflexivity | simpl length in H; lia].
Qed.

Lemma iloc_last {A} (l : list A) x : iloc (l ++ [x]) (-1) = Ok x.
Proof.
  unfold iloc. cbv zeta. change (-1 <? 0) with true. cbv iota.
  rewrite length_app. simpl length.
  replace (Z.of_nat (length l + 1) + -1) with (Z.of_nat (length l)) by lia.
  destruct (Z.leb_spec 0 (Z.of_nat (length l))) as [_ | H]; [| lia].
  destruct (Z.ltb_spec (Z.of_nat (length l)) (Z.of_nat (length l + 1))) as [_ | H];
    [| lia].
  simpl andb. cbv iota. rewrite Nat2Z.id, lookup_app_r by lia.
  replace (length l - length l)%nat with 0%nat by lia. reflexivity.
Qed.

Lemma snoc_cases {A} (l : list A) : l <> [] -> exists l' x, l = l' ++ [x].
Proof.
  intros H. destruct (exists_last H) as (l' & x & ->). eauto.
Qed.

Lemma map_snoc_inv {A B} (f : A -> B) l ys y :
  map f l = ys ++ [y] -> exists l' x, l = l' ++ [x] /\ map f l' = ys /\ f x = y.
Proof.
  intros H. destruct l as [| x0 l0] eqn:E using rev_ind.
  - destruct ys; discriminate.
  - clear IHl0. rewrite map_app in H. simpl in H.
    apply app_inj_tail in H as [H1 H2]. eauto.
Qed.

(** The window the estimator selects, when the timestamp column holds
    datetimes. *)
Lemma last_20_min_mask df start :
  str_in "timestamp" (columns df) = true ->
  forallb has_time (rows df) = true ->
  last_20_min df start
  = Ok (boolean_index df (map (fun t => start <=? t) (times df))).
Proof.
  intros Hcol Htimes. unfold last_20_min, getitem. rewrite Hcol. simpl rbind.
  rewrite (mapM_bind_map as_time (fun t => start <=? t) _ (times df)).
  - reflexivity.
  - apply as_time_column. apply times_total. exact Htimes.
Qed.

Lemma last_20_min_nonempty df :
  len df <> 0%nat ->
  str_in "timestamp" (columns df) = true ->
  forallb has_time (rows df) = true ->
  exists end_time w,
    last (times df) = Some end_time
    /\ last_20_min df (end_time - TWENTY_MINUTES) = Ok w
    /\ last (rows w) = last (rows df)
    /\ len w <> 0%nat
    /\ or_all_data w df = w.
Proof.
  intros Hlen Hcol Htimes.
  pose proof (times_total _ Htimes) as Hts.
  destruct (snoc_cases (rows df)) as (rows' & row & Erows).
  { unfold len in Hlen. destruct (rows df); [contradiction | discriminate]. }
  rewrite Erows, map_app in Hts. simpl in Hts.
  symmetry in Hts. apply map_snoc_inv in Hts as (ts' & end_time & Ets & Hts' & Hend).
  exists end_time, (boolean_index df (map (fun t => end_time - TWENTY_MINUTES <=? t) (times df))).
  assert (Hw : rows (boolean_index df
                       (map (fun t => end_time - TWENTY_MINUTES <=? t) (times df)))
               = select (map (fun t => end_time - TWENTY_MINUTES <=? t) ts') rows'
                 ++ [row]).
  { simpl rows. unfold times. rewrite Erows, Ets, map_app. simpl map.
    replace (end_time - TWENTY_MINUTES <=? end_time) with true
      by (symmetry; apply Z.leb_le; unfold TWENTY_MINUTES; lia).
    apply select_snoc. rewrite length_map.
    rewrite <- (length_map Some ts'), Hts', length_map. reflexivity. }
  split; [unfold times; rewrite Erows, Ets; apply last_snoc |].
  split; [apply last_20_min_mask; assumption |].
  split; [rewrite Hw, Erows, !last_snoc; reflexivity |].
  assert (Hne : len (boolean_index df
                       (map (fun t => end_time - TWENTY_MINUTES <=? t) (times df)))
                <> 0%nat).
  { unfold len. rewrite Hw, length_app. simpl. lia. }
  split; [exact Hne |].
  unfold or_all_data. apply Nat.eqb_neq in Hne. rewrite Hne. reflexivity.
Qed.

(** C9. On a non-empty table whose timestamp column holds datetimes, the
    selection [timestamp >= last_timestamp - 20 min] always holds the
    last row, since the last timestamp passes the inclusive test; so the
    selection is not empty and the branch that replaces an empty
    selection by the whole table is never taken. *)
Theorem trailing_window_holds_last_sample df :
  len df <> 0%nat ->
  str_in "timestamp" (columns df) = true ->
  forallb has_time (rows df) = true ->
  exists end_time w,
    last (times df) = Some end_time
    /\ last_20_min df (end_time - TWENTY_MINUTES) = Ok w
    /\ last (rows w) = last (rows df)
    /\ len w <> 0%nat
    /\ or_all_data w df = w.
Proof. exact (last_20_min_nonempty df). Qed.

Lemma trailing_window_holds_last_sample_witness :
  exists end_time w,
    last (times ten_minute_session) = Some end_time
    /\ last_20_min ten_minute_session (end_time - TWENTY_MINUTES) = Ok w
    /\ or_all_data w ten_minute_session = w.
Proof.
  destruct (trailing_window_holds_last_sample ten_minute_session)
    as (end_time & w & H1 & H2 & _ & _ & H3).
  - discriminate.
  - reflexivity.
  - reflexivity.
  - exists end_time, w. auto.
Defined.

(** ** The estimator on a normalized session *)

Lemma normalized_inv df :
  normalized df = true ->
  dense df = true
  /\ forallb has_time (rows df) = true
  /\ nondecreasing (times df) = true
  /\ forallb (fun row => is_heart_rate (cell "heart_rate" row)) (rows df) = true
  /\ Z.of_nat (len df) < 2 ^ 53.
Proof.
  unfold normalized. rewrite !andb_true_iff, Z.ltb_lt. tauto.
Qed.

Lemma dense_column c df row :
  dense df = true -> In row (rows df) ->
  str_in c (columns df) = dict_in c row.
Proof.
  unfold dense. rewrite forallb_forall. intros H Hrow.
  specialize (H row Hrow). apply bool_decide_eq_true in H.
  rewrite <- H. symmetry. apply dict_in_keys.
Qed.

Lemma has_time_dict_in row : has_time row = true -> dict_in "timestamp" row = true.
Proof.
  unfold has_time, row_time, cell, dict_in.
  destruct (dict_get "timestamp" row); [reflexivity | discriminate].
Qed.

Lemma as_time_row row t : row_time row = Some t -> as_time (cell "timestamp" row) = Ok t.
Proof.
  unfold row_time. destruct (cell "timestamp" row); try discriminate.
  intros [= ->]. reflexivity.
Qed.

Lemma nondecreasing_le_last ts t1 :
  nondecreasing ts = true -> last ts = Some t1 -> Forall (fun t => t <= t1) ts.
Proof.
  induction ts as [| x ts IH]; intros Hs Hl; [constructor |].
  destruct ts as [| y ts'].
  - injection Hl as ->. repeat constructor. lia.
  - simpl in Hs. apply andb_true_iff in Hs as [Hxy Hs].
    apply Z.leb_le in Hxy. rewrite last_cons_cons in Hl.
    specialize (IH Hs Hl). constructor; [| exact IH].
    apply Forall_cons_1 in IH as [Hy _]. lia.
Qed.

Lemma window_filter rows ts t1 :
  map row_time rows = map Some ts ->
  Forall (fun t => t <= t1) ts ->
  select (map (fun t => t1 - TWENTY_MINUTES <=? t) ts) rows
  = List.filter (in_window t1) rows.
Proof.
  intros Hts Hle.
  rewrite (select_filter (fun t => t1 - TWENTY_MINUTES <=? t) row_time rows ts Hts).
  apply filter_ext_in. intros row Hrow. unfold in_window.
  destruct (row_time row) as [t |] eqn:E; [| reflexivity].
  assert (Hin : In (Some t) (map Some ts))
    by (rewrite <- Hts, <- E; apply in_map; exact Hrow).
  apply in_map_iff in Hin as (t' & [= ->] & Hin).
  rewrite List.Forall_forall in Hle. specialize (Hle _ Hin).
  apply Z.leb_le in Hle. rewrite Hle, andb_true_r. reflexivity.
Qed.

Lemma dropna_heart_rate rows :
  forallb (fun row => is_heart_rate (cell "heart_rate" row)) rows = true ->
  dropna (map (cell "heart_rate") rows) = map VInt (omap row_hr rows).
Proof.
  induction rows as [| row rows IH]; intros H; [reflexivity |].
  simpl in H. apply andb_true_iff in H as [Hrow H].
  rewrite omap_cons_eq. unfold dropna in *. simpl map. simpl List.filter.
  unfold row_hr. destruct (cell "heart_rate" row); try discriminate; simpl;
    rewrite (IH H); reflexivity.
Qed.

Lemma mean_ints vs :
  mean (map VInt vs)
  = Ok (match vs with
        | [] => S754_nan
        | _ => PyFloat.of_int (sumZ vs) ⊘ PyFloat.of_int (Z.of_nat (length vs))
        end).
Proof.
  destruct vs as [| v vs]; [reflexivity |].
  unfold mean. rewrite (mapM_ok_map as_int (fun x => match x with VInt n => n | _ => 0 end)).
  - simpl rbind. rewrite map_map, map_id. reflexivity.
  - apply List.Forall_forall. intros x Hx.
    apply in_map_iff in Hx as (n & <- & _). reflexivity.
Qed.

Lemma mean_not_nan vs :
  vs <> [] -> Z.of_nat (length vs) < 2 ^ 53 ->
  PyFloat.is_nan (PyFloat.of_int (sumZ vs) ⊘ PyFloat.of_int (Z.of_nat (length vs)))
  = false.
Proof.
  intros Hne Hlt.
  destruct (of_int_finite (Z.of_nat (length vs))) as (m & e & ->).
  - split; [| exact Hlt]. destruct vs; [contradiction | simpl; lia].
  - apply div_finite_not_nan, of_int_not_nan.
Qed.

Lemma omap_filter_length {A B} (f : A -> option B) (p : A -> bool) l :
  (length (omap f (List.filter p l)) <= length l)%nat.
Proof.
  induction l as [| x l IH]; simpl; [lia |].
  destruct (p x); [rewrite omap_cons_eq; destruct (f x); simpl |]; lia.
Qed.

Lemma window_values_all_nan df :
  Forall (fun row => cell "heart_rate" row = VNaN) (rows df) ->
  window_values df = [].
Proof.
  intros H. unfold window_values. destruct (last (times df)) as [t1 |]; [| reflexivity].
  induction H as [| row rows Hrow _ IH]; simpl; [reflexivity |].
  destruct (in_window t1 row); [| exact IH].
  rewrite omap_cons_eq. unfold row_hr at 1. rewrite Hrow. exact IH.
Qed.

Lemma rbind_ok {A B} (a : A) (k : A -> res B) : rbind (Ok a) k = k a.
Proof. reflexivity. Qed.

Lemma forallb_filter {A} (p q : A -> bool) l :
  forallb p l = true -> forallb p (List.filter q l) = true.
Proof.
  rewrite !forallb_forall. intros H x Hx. apply filter_In in Hx as [Hx _]. auto.
Qed.

Lemma iloc_time rows ts :
  map row_time rows = map Some ts ->
  (forall t0, head ts = Some t0 ->
     exists v, iloc (map (cell "timestamp") rows) 0 = Ok v /\ as_time v = Ok t0)
  /\ (forall t1, last ts = Some t1 ->
     exists v, iloc (map (cell "timestamp") rows) (-1) = Ok v /\ as_time v = Ok t1).
Proof.
  intros Hts. split.
  - intros t0 H. destruct ts as [| t ts']; [discriminate |]. injection H as ->.
    destruct rows as [| row rows']; [discriminate |]. injection Hts as Hrow _.
    exists (cell "timestamp" row). split; [apply iloc_first | apply as_time_row, Hrow].
  - intros t1 H. destruct (snoc_cases ts) as (ts' & t & ->).
    { intros ->. discriminate. }
    rewrite last_snoc in H. injection H as ->.
    rewrite map_app in Hts. simpl in Hts.
    apply map_snoc_inv in Hts as (rows' & row & -> & _ & Hrow).
    exists (cell "timestamp" row). rewrite map_app. simpl map.
    split; [apply iloc_last | apply as_time_row, Hrow].
Qed.

Lemma estimate_normalized df :
  normalized df = true -> len df <> 0%nat ->
  calculate_lthr_from_last_20_minutes (Some df) = Ok (window_estimate df).
Proof.
  intros Hnorm Hlen.
  destruct (normalized_inv df Hnorm) as (Hdense & Htimes & Hsorted & Hhr & Hsize).
  unfold calculate_lthr_from_last_20_minutes.
  apply Nat.eqb_neq in Hlen as Hlen'. rewrite Hlen'.
  assert (Hnan : Forall (fun row => cell "heart_rate" row = VNaN) (rows df) ->
                 Ok none3 = Ok (window_estimate df)).
  { intros H. unfold window_estimate. rewrite (window_values_all_nan df H). reflexivity. }
  destruct (str_in "heart_rate" (columns df)) eqn:Ehr; simpl negb; cbv iota.
  2:{ apply Hnan. apply List.Forall_forall. intros row Hrow. apply cell_absent.
      rewrite <- (dense_column _ df row Hdense Hrow). exact Ehr. }
  unfold getitem at 1. rewrite Ehr. simpl rbind.
  destruct (forallb isna (map (cell "heart_rate") (rows df))) eqn:Ena.
  { apply Hnan. apply List.Forall_forall. intros row Hrow.
    rewrite forallb_forall in Ena. specialize (Ena _ (in_map _ _ _ Hrow)).
    destruct (cell "heart_rate" row); try discriminate. reflexivity. }
  assert (Hrow0 : exists row0 rest, rows df = row0 :: rest).
  { unfold len in Hlen. destruct (rows df) as [| row0 rest]; [contradiction | eauto]. }
  destruct Hrow0 as (row0 & rest & Erows).
  assert (Hcol : str_in "timestamp" (columns df) = true).
  { rewrite (dense_column _ df row0 Hdense) by (rewrite Erows; left; reflexivity).
    apply has_time_dict_in. rewrite Erows in Htimes. simpl in Htimes.
    apply andb_true_iff in Htimes as [H _]. exact H. }
  pose proof (times_total _ Htimes) as Hts. fold (times df) in Hts.
  destruct (last_20_min_nonempty df Hlen Hcol Htimes)
    as (t1 & w & Hlast & Hw & _ & _ & Hor).
  rewrite (last_20_min_mask df _ Hcol Htimes) in Hw. injection Hw as Hw.
  destruct (iloc_time (rows df) (times df) Hts) as [Hfirst Hlast'].
  assert (Hhead : exists t0, head (times df) = Some t0).
  { destruct (times df) as [| t0 ts'] eqn:E; [discriminate Hlast | eauto]. }
  destruct Hhead as [t0 Hhead].
  destruct (Hfirst t0 Hhead) as (v0 & Hv0 & Ht0).
  destruct (Hlast' t1 Hlast) as (v1 & Hv1 & Ht1).
  unfold getitem at 1. rewrite Hcol, rbind_ok.
  rewrite Hv0, rbind_ok, Ht0, rbind_ok, Hv1, rbind_ok, Ht1, rbind_ok.
  rewrite (last_20_min_mask df _ Hcol Htimes), rbind_ok, Hw, Hor.
  unfold getitem. rewrite <- Hw at 1. simpl columns. rewrite Ehr, rbind_ok.
  rewrite <- Hw. simpl rows.
  rewrite (window_filter (rows df) (times df) t1 Hts
             (nondecreasing_le_last _ _ Hsorted Hlast)).
  rewrite dropna_heart_rate by (apply forallb_filter; exact Hhr).
  rewrite mean_ints, rbind_ok.
  unfold window_estimate, window_values. rewrite Hlast, Hhead.
  pose proof (omap_filter_length row_hr (in_window t1) (rows df)) as Hle.
  destruct (omap row_hr (List.filter (in_window t1) (rows df))) as [| v vs] eqn:Evs;
    [reflexivity |].
  rewrite mean_not_nan; [reflexivity | discriminate |].
  unfold len in Hsize. lia.
Qed.

Lemma times_length rows :
  forallb has_time rows = true -> length (omap row_time rows) = length rows.
Proof.
  intros H. rewrite <- (length_map Some), <- (times_total rows H), length_map.
  reflexivity.
Qed.

Lemma window_values_nonempty df : window_values df <> [] -> len df <> 0%nat.
Proof.
  unfold window_values, times, len. destruct (rows df); [| discriminate].
  intros H. contradiction H. reflexivity.
Qed.

Lemma window_estimate_cases df :
  normalized df = true -> len df <> 0%nat ->
  exists t0 t1,
    head (times df) = Some t0 /\ last (times df) = Some t1
    /\ match window_values df with
       | [] => window_estimate df = none3
       | vs =>
           window_estimate df
           = (Some (PyFloat.of_int (sumZ vs) ⊘ PyFloat.of_int (Z.of_nat (length vs))),
              Some (PyFloat.of_int (sumZ vs) ⊘ PyFloat.of_int (Z.of_nat (length vs))
                    ⊛ PyFloat.lit 95 100),
              Some (PyFloat.of_int (t1 - t0) ⊘ PyFloat.of_int 60))
       end.
Proof.
  intros Hnorm Hlen.
  destruct (normalized_inv df Hnorm) as (_ & Htimes & _).
  pose proof (times_length _ Htimes) as Hl. fold (times df) in Hl. unfold len in Hlen.
  destruct (times df) as [| t0 ts] eqn:E; [simpl in Hl; lia |].
  destruct (snoc_cases (t0 :: ts)) as (ts' & t1 & E'); [discriminate |].
  exists t0, t1. split; [reflexivity |]. split; [rewrite E'; apply last_snoc |].
  unfold window_estimate. rewrite E. change (head (t0 :: ts)) with (Some t0).
  replace (last (t0 :: ts)) with (Some t1)
    by (rewrite E'; symmetry; apply last_snoc).
  destruct (window_values df); reflexivity.
Qed.

(** C1. On a normalized session with at least one heart-rate value in
    the trailing window [last_timestamp - 20 min, last_timestamp], the
    estimator returns (window_mean, threshold, total_duration_minutes)
    where window_mean is the sum of the values present in that window
    over their count, threshold is window_mean * 0.95, and the duration
    is last_timestamp - first_timestamp, in seconds, over 60. On the
    session of three samples 100, 110, 120 five minutes apart the mean is
    110 and the threshold 104.5 (and the duration 10 minutes). *)
Theorem threshold_is_95_percent_of_window_mean :
  (forall df,
     normalized df = true -> window_values df <> [] ->
     exists t0 t1,
       head (times df) = Some t0 /\ last (times df) = Some t1
       /\ calculate_lthr_from_last_20_minutes (Some df)
          = Ok (Some (PyFloat.of_int (sumZ (window_values df))
                      ⊘ PyFloat.of_int (Z.of_nat (length (window_values df)))),
                Some (PyFloat.of_int (sumZ (window_values df))
                      ⊘ PyFloat.of_int (Z.of_nat (length (window_values df)))
                      ⊛ PyFloat.lit 95 100),
                Some (PyFloat.of_int (t1 - t0) ⊘ PyFloat.of_int 60)))
  /\ normalized ten_minute_session = true
  /\ window_values ten_minute_session = [100; 110; 120]
  /\ calculate_lthr_from_last_20_minutes (Some ten_minute_session)
     = Ok (Some (PyFloat.of_int 110), Some (PyFloat.lit 1045 10),
           Some (PyFloat.of_int 10)).
Proof.
  split; [| repeat split; vm_compute; reflexivity].
  intros df Hnorm Hvals.
  pose proof (window_values_nonempty df Hvals) as Hlen.
  destruct (window_estimate_cases df Hnorm Hlen) as (t0 & t1 & H0 & H1 & Hest).
  exists t0, t1. split; [exact H0 |]. split; [exact H1 |].
  rewrite (estimate_normalized df Hnorm Hlen).
  destruct (window_values df); [contradiction | rewrite Hest; reflexivity].
Qed.

Lemma threshold_is_95_percent_of_window_mean_witness :
  exists t0 t1,
    head (times ten_minute_session) = Some t0
    /\ last (times ten_minute_session) = Some t1
    /\ calculate_lthr_from_last_20_minutes (Some ten_minute_session)
       = Ok (Some (PyFloat.of_int 330 ⊘ PyFloat.of_int 3),
             Some (PyFloat.of_int 330 ⊘ PyFloat.of_int 3 ⊛ PyFloat.lit 95 100),
             Some (PyFloat.of_int (t1 - t0) ⊘ PyFloat.of_int 60)).
Proof.
  apply (proj1 threshold_is_95_percent_of_window_mean ten_minute_session).
  - reflexivity.
  - discriminate.
Defined.

(** C7. On an absent table or a normalized session the estimator never
    raises; its result is either the three-way null or three present
    components, never a mixture; and it is the three-way null exactly
    when the table is absent or empty, or heart rate is missing from
    every sample, or the selected window holds no heart-rate value. *)
Theorem null_estimate_iff_input_absent (odf : option DataFrame) :
  (forall df, odf = Some df -> normalized df = true) ->
  exists r,
    calculate_lthr_from_last_20_minutes odf = Ok r
    /\ (r = none3 \/ exists avg lthr minutes, r = (Some avg, Some lthr, Some minutes))
    /\ (r = none3 <->
        odf = None
        \/ exists df, odf = Some df
             /\ (len df = 0%nat
                 \/ Forall (fun row => cell "heart_rate" row = VNaN) (rows df)
                 \/ window_values df = [])).
Proof.
  intros Hnorm. destruct odf as [df |].
  2:{ exists none3. split; [reflexivity |]. split; [left; reflexivity |].
      split; auto. }
  specialize (Hnorm df eq_refl).
  destruct (Nat.eq_dec (len df) 0%nat) as [Hlen | Hlen].
  { exists none3. split.
    - unfold calculate_lthr_from_last_20_minutes. rewrite Hlen. reflexivity.
    - split; [left; reflexivity |]. split; [| reflexivity].
      intros _. right. exists df. auto. }
  exists (window_estimate df). split; [apply estimate_normalized; assumption |].
  destruct (window_estimate_cases df Hnorm Hlen) as (t0 & t1 & _ & _ & Hest).
  destruct (window_values df) as [| v vs] eqn:Evs.
  - rewrite Hest. split; [left; reflexivity |]. split; [| reflexivity].
    intros _. right. exists df. auto.
  - rewrite Hest. split; [right; eauto |]. split; [discriminate |].
    intros [H | (df' & Hdf & H)]; [discriminate |].
    injection Hdf as <-. exfalso. destruct H as [H | [H | H]].
    + contradiction.
    + apply window_values_all_nan in H. congruence.
    + congruence.
Qed.

Lemma null_estimate_iff_input_absent_witness :
  exists r,
    calculate_lthr_from_last_20_minutes (Some ten_minute_session) = Ok r
    /\ (r = none3 \/ exists avg lthr minutes, r = (Some avg, Some lthr, Some minutes)).
Proof.
  destruct (null_estimate_iff_input_absent (Some ten_minute_session))
    as (r & H1 & H2 & _).
  - intros df [= <-]. reflexivity.
  - exists r. auto.
Defined.

(** ** The custom export and the store *)

Lemma touches_only_ret {A} e (a : A) : touches_only e (ret a).
Proof. intros st l _. reflexivity. Qed.

Lemma touches_only_lift {A} e (r : res A) : touches_only e (lift r).
Proof. intros st l _. reflexivity. Qed.

Lemma touches_only_load e l : touches_only e (load l).
Proof. intros st l' _. unfold load. destruct (st !! l); reflexivity. Qed.

Lemma touches_only_write e d : touches_only e (write e d).
Proof. intros st l Hl. unfold write. simpl. apply lookup_insert_ne. congruence. Qed.

Lemma touches_only_bind {A B} e (m : M A) (k : A -> M B) :
  touches_only e m -> (forall a, touches_only e (k a)) -> touches_only e (bind m k).
Proof.
  intros Hm Hk st l Hl. unfold bind. specialize (Hm st l Hl).
  destruct (m st) as [[a | x] st1]; simpl in *; [| exact Hm].
  rewrite (Hk a st1 l Hl). exact Hm.
Qed.

Lemma touches_only_setitem_at e c cells : touches_only e (setitem_at e c cells).
Proof.
  apply touches_only_bind; [apply touches_only_load |].
  intros d. apply touches_only_write.
Qed.

Lemma touches_only_getitem_at e c : touches_only e (getitem_at e c).
Proof.
  apply touches_only_bind; [apply touches_only_load |].
  intros d. apply touches_only_lift.
Qed.

Create HintDb touches.
#[local] Hint Resolve touches_only_ret touches_only_lift touches_only_load
  touches_only_write touches_only_setitem_at touches_only_getitem_at : touches.

Lemma touches_only_add_hr_zone e zones x : touches_only e (add_hr_zone e zones x).
Proof.
  unfold add_hr_zone.
  repeat (apply touches_only_bind; [auto with touches | intros ?]).
  auto with touches.
Qed.

Lemma touches_only_add_time_elapsed e : touches_only e (add_time_elapsed e).
Proof.
  unfold add_time_elapsed.
  repeat (apply touches_only_bind; [auto with touches | intros ?]).
  auto with touches.
Qed.

(** Allocation: the new location was free, and nothing else changes. *)
Lemma getitem_columns_cases l cols st :
  (exists x, getitem_columns l cols st = (Raise x, st))
  \/ (exists df p,
        st !! l = Some df /\ st !! p = None
        /\ forallb (fun c => str_in c (columns df)) cols = true
        /\ getitem_columns l cols st
           = (Ok p, <[p := {| columns := cols; index := index df;
                               rows := map (fill cols) (rows df) |}]> st)).
Proof.
  unfold getitem_columns, bind, load, alloc, lift.
  destruct (st !! l) as [df |] eqn:E; [| eauto].
  destruct (forallb _ cols) eqn:Ecols; [| eauto].
  right. exists df, (fresh (dom st)). repeat split; try assumption.
  apply not_elem_of_dom, is_fresh.
Qed.

Lemma copy_cases l st :
  (exists x, copy l st = (Raise x, st))
  \/ (exists d e, st !! l = Some d /\ st !! e = None
                  /\ copy l st = (Ok e, <[e := d]> st)).
Proof.
  unfold copy, bind, load, alloc.
  destruct (st !! l) as [d |] eqn:E; [| eauto].
  right. exists d, (fresh (dom st)). repeat split.
  apply not_elem_of_dom, is_fresh.
Qed.

(** What the successful steps leave behind [export_df]. *)
Lemma bind_ok_inv {A B} (m : M A) (k : A -> M B) st b st' :
  bind m k st = (Ok b, st') ->
  exists a st1, m st = (Ok a, st1) /\ k a st1 = (Ok b, st').
Proof.
  unfold bind. destruct (m st) as [[a | x] st1]; [eauto | discriminate].
Qed.

Lemma setitem_at_inv l c cells st u st' :
  setitem_at l c cells st = (Ok u, st') ->
  exists d, st !! l = Some d /\ st' = <[l := setitem d c cells]> st.
Proof.
  unfold setitem_at, bind, load, write.
  destruct (st !! l) as [d |] eqn:E; [| discriminate].
  intros [= <-]. eauto.
Qed.

Lemma getitem_at_inv l c st cells st' :
  getitem_at l c st = (Ok cells, st') ->
  exists d, st !! l = Some d /\ getitem d c = Ok cells /\ st' = st.
Proof.
  unfold getitem_at, bind, load, lift.
  destruct (st !! l) as [d |] eqn:E; [| discriminate].
  intros [= G <-]. exists d. auto.
Qed.

Lemma lift_inv {A} (r : res A) st a st' :
  lift r st = (Ok a, st') -> r = Ok a /\ st' = st.
Proof. unfold lift. intros [= -> <-]. auto. Qed.

Lemma getitem_length d c cells :
  getitem d c = Ok cells -> length cells = length (rows d).
Proof.
  unfold getitem. destruct (str_in c (columns d)); [| discriminate].
  intros [= <-]. apply length_map.
Qed.

Lemma same_data_refl selected d : same_data selected d d.
Proof. repeat split. Qed.

Lemma same_data_trans selected d1 d2 d3 :
  same_data selected d1 d2 -> same_data selected d2 d3 -> same_data selected d1 d3.
Proof.
  intros (H1 & H2 & H3) (H4 & H5 & H6). repeat split; try congruence.
  intros c Hc. rewrite (H6 c Hc). auto.
Qed.

Lemma zip_with_set_other c c' (rows : list (dict value)) cells :
  c <> c' -> length cells = length rows ->
  map (cell c) (zip_with (fun row v => dict_set c' v row) rows cells)
  = map (cell c) rows.
Proof.
  intros Hc. revert cells. induction rows as [| row rows IH]; intros [| v cells] H;
    simpl in H; try discriminate; [reflexivity |].
  simpl. rewrite IH by lia. f_equal.
  unfold cell. rewrite dict_get_set.
  apply String.eqb_neq in Hc. rewrite Hc. reflexivity.
Qed.

Lemma same_data_setitem selected d c' cells :
  ~ In c' selected -> length cells = length (rows d) ->
  same_data selected d (setitem d c' cells).
Proof.
  intros Hc Hlen. unfold same_data, setitem. simpl. split; [reflexivity |]. split.
  - rewrite length_zip_with. lia.
  - intros c Hin. apply zip_with_set_other; [congruence | exact Hlen].
Qed.

Lemma same_data_fill selected d :
  same_data selected d
    {| columns := selected; index := index d;
       rows := map (fill selected) (rows d) |}.
Proof.
  unfold same_data. simpl. split; [reflexivity |]. split; [apply length_map |].
  intros c Hc. rewrite map_map. apply map_ext. intros row.
  rewrite cell_fill. apply str_in_In in Hc. rewrite Hc. reflexivity.
Qed.

Lemma columns_setitem_new d c cells :
  str_in c (columns d) = false -> columns (setitem d c cells) = columns d ++ [c].
Proof. intros H. unfold setitem. simpl. rewrite H. reflexivity. Qed.

Lemma add_hr_zone_inv selected e zones x st u st' d :
  st !! e = Some d ->
  ~ In "hr_zone" selected -> ~ In "lthr" selected ->
  str_in "hr_zone" (columns d) = false -> str_in "lthr" (columns d) = false ->
  add_hr_zone e zones x st = (Ok u, st') ->
  exists d', st' = <[e := d']> st
    /\ same_data selected d d'
    /\ columns d' = columns d ++ ["hr_zone"; "lthr"].
Proof.
  intros Hd Hn1 Hn2 Hc1 Hc2. unfold add_hr_zone. intros H.
  apply bind_ok_inv in H as (hr & st1 & H1 & H).
  apply getitem_at_inv in H1 as (d1 & Hd1 & Hhr & ->).
  rewrite Hd in Hd1. injection Hd1 as <-.
  apply bind_ok_inv in H as (labels & st2 & H2 & H).
  apply lift_inv in H2 as [Hlab ->].
  apply bind_ok_inv in H as (u1 & st3 & H3 & H).
  apply setitem_at_inv in H3 as (d3 & Hd3 & ->).
  rewrite Hd in Hd3. injection Hd3 as <-.
  apply setitem_at_inv in H as (d4 & Hd4 & ->).
  rewrite lookup_insert_eq in Hd4. injection Hd4 as <-.
  pose proof (getitem_length _ _ _ Hhr) as Lhr.
  pose proof (mapM_length _ _ _ Hlab) as Llab.
  assert (S1 : same_data selected d (setitem d "hr_zone" (map VStr labels))).
  { apply same_data_setitem; [exact Hn1 |]. rewrite length_map. lia. }
  eexists. split; [apply insert_insert_eq |]. split.
  - eapply same_data_trans; [exact S1 |].
    apply same_data_setitem; [exact Hn2 |].
    destruct S1 as (_ & L & _). rewrite length_map. lia.
  - rewrite (columns_setitem_new (setitem d _ _)).
    + rewrite columns_setitem_new, <- app_assoc by assumption. reflexivity.
    + rewrite columns_setitem_new, str_in_app, Hc2 by assumption. reflexivity.
Qed.

Lemma add_time_elapsed_inv selected e st u st' d :
  st !! e = Some d ->
  ~ In "time_elapsed_seconds" selected -> ~ In "time_elapsed_minutes" selected ->
  str_in "time_elapsed_seconds" (columns d) = false ->
  str_in "time_elapsed_minutes" (columns d) = false ->
  add_time_elapsed e st = (Ok u, st') ->
  exists d', st' = <[e := d']> st
    /\ same_data selected d d'
    /\ columns d' = columns d ++ ["time_elapsed_seconds"; "time_elapsed_minutes"].
Proof.
  intros Hd Hn1 Hn2 Hc1 Hc2. unfold add_time_elapsed. intros H.
  apply bind_ok_inv in H as (ts & st1 & H1 & H).
  apply getitem_at_inv in H1 as (d1 & Hd1 & Hts & ->).
  rewrite Hd in Hd1. injection Hd1 as <-.
  apply bind_ok_inv in H as (v0 & st2 & H2 & H). apply lift_inv in H2 as [_ ->].
  apply bind_ok_inv in H as (t0 & st3 & H3 & H). apply lift_inv in H3 as [_ ->].
  apply bind_ok_inv in H as (secs & st4 & H4 & H). apply lift_inv in H4 as [Hsecs ->].
  apply bind_ok_inv in H as (u1 & st5 & H5 & H).
  apply setitem_at_inv in H5 as (d5 & Hd5 & ->).
  rewrite Hd in Hd5. injection Hd5 as <-.
  apply bind_ok_inv in H as (secs' & st6 & H6 & H).
  apply getitem_at_inv in H6 as (d6 & Hd6 & Hsecs' & ->).
  rewrite lookup_insert_eq in Hd6. injection Hd6 as <-.
  apply bind_ok_inv in H as (mins & st7 & H7 & H). apply lift_inv in H7 as [Hmins ->].
  apply setitem_at_inv in H as (d8 & Hd8 & ->).
  rewrite lookup_insert_eq in Hd8. injection Hd8 as <-.
  pose proof (getitem_length _ _ _ Hts) as Lts.
  pose proof (mapM_length _ _ _ Hsecs) as Lsecs.
  pose proof (getitem_length _ _ _ Hsecs') as Lsecs'.
  pose proof (mapM_length _ _ _ Hmins) as Lmins.
  assert (S1 : same_data selected d (setitem d "time_elapsed_seconds" secs)).
  { apply same_data_setitem; [exact Hn1 | lia]. }
  eexists. split; [apply insert_insert_eq |]. split.
  - eapply same_data_trans; [exact S1 |].
    apply same_data_setitem; [exact Hn2 | lia].
  - rewrite (columns_setitem_new (setitem d _ _)).
    + rewrite columns_setitem_new, <- app_assoc by assumption. reflexivity.
    + rewrite columns_setitem_new, str_in_app, Hc2 by assumption. reflexivity.
Qed.

Lemma str_in_recognised c selected :
  forallb (fun c => str_in c RECORD_FIELDS) selected = true ->
  str_in c RECORD_FIELDS = false -> str_in c selected = false.
Proof.
  intros Hsel Hc. destruct (str_in c selected) eqn:E; [| reflexivity].
  apply str_in_In in E. rewrite forallb_forall in Hsel. rewrite (Hsel _ E) in Hc.
  discriminate.
Qed.

Lemma str_in_hr_columns c selected lthr :
  c <> "hr_zone" -> c <> "lthr" -> str_in c (hr_columns selected lthr) = false.
Proof.
  intros H1 H2. unfold hr_columns.
  destruct lthr; [destruct (str_in "heart_rate" selected) |]; try reflexivity.
  unfold str_in. simpl.
  apply String.eqb_neq in H1, H2. rewrite H1, H2. reflexivity.
Qed.

(** The store after [build_export], whatever its outcome: every object
    the store held is as it was. *)
Lemma build_export_frame df selected zones lthr st :
  forall l d, st !! l = Some d ->
    snd (build_export df selected zones lthr st) !! l = Some d.
Proof.
  intros l d Hl. unfold build_export.
  unfold bind at 1.
  destruct (getitem_columns_cases df selected st)
    as [[x ->] | (d0 & p & _ & Hp & _ & ->)]; [exact Hl |].
  unfold bind at 1.
  destruct (copy_cases p (<[p := {| columns := selected; index := index d0;
                                     rows := map (fill selected) (rows d0) |}]> st))
    as [[x ->] | (d1 & e & _ & He & ->)].
  { simpl. rewrite lookup_insert_ne by congruence. exact Hl. }
  apply lookup_insert_None in He as [He Hpe].
  assert (Hle : l <> e) by congruence.
  assert (Hlp : l <> p) by congruence.
  match goal with
  | |- snd (?m ?s) !! l = Some d =>
      assert (T : touches_only e m)
  end.
  { apply touches_only_bind.
    - destruct lthr; [destruct (str_in "heart_rate" selected) |];
        auto using touches_only_add_hr_zone with touches.
    - intros _. apply touches_only_bind; [| auto with touches].
      destruct (str_in "timestamp" selected);
        auto using touches_only_add_time_elapsed with touches. }
  rewrite (T _ l Hle), !lookup_insert_ne by congruence. exact Hl.
Qed.

(** C10. Building the custom export leaves the session table as it was,
    whether the export succeeds or raises: the table object behind [df]
    is unchanged, and so is every object the store held. When it
    succeeds, the export is a new object: a copy of the selected columns
    (same row labels, same cells), followed by [hr_zone] and [lthr] when
    heart rate is selected (and a threshold is known) and by
    [time_elapsed_seconds] and [time_elapsed_minutes] when the timestamp
    is selected. *)
Theorem export_leaves_session_unchanged
    (st st' : store) (df : loc) (session : DataFrame)
    (selected_fields : list string) (zones : dict zone_info) (lthr : option float)
    (outcome : res loc) :
  st !! df = Some session ->
  build_export df selected_fields zones lthr st = (outcome, st') ->
  st' !! df = Some session
  /\ (forall l d, st !! l = Some d -> st' !! l = Some d)
  /\ (forall export_df,
        outcome = Ok export_df ->
        forallb (fun c => str_in c RECORD_FIELDS) selected_fields = true ->
        st !! export_df = None
        /\ exists exported,
             st' !! export_df = Some exported
             /\ columns exported
                = selected_fields ++ hr_columns selected_fields lthr
                  ++ time_columns selected_fields
             /\ index exported = index session
             /\ forall c, In c selected_fields ->
                  map (cell c) (rows exported) = map (cell c) (rows session)).
Proof.
  intros Hdf Hrun.
  assert (Hframe : forall l d, st !! l = Some d -> st' !! l = Some d).
  { intros l d Hl.
    pose proof (build_export_frame df selected_fields zones lthr st l d Hl) as H.
    rewrite Hrun in H. exact H. }
  split; [apply Hframe; exact Hdf |]. split; [exact Hframe |].
  intros export_df -> Hsel. unfold build_export in Hrun.
  assert (Hnew : forall c, str_in c RECORD_FIELDS = false ->
                           str_in c selected_fields = false /\ ~ In c selected_fields).
  { intros c Hc. pose proof (str_in_recognised c selected_fields Hsel Hc) as H.
    split; [exact H |]. rewrite <- str_in_In, H. discriminate. }
  apply bind_ok_inv in Hrun as (picked & st1 & H1 & Hrun).
  destruct (getitem_columns_cases df selected_fields st)
    as [[x E] | (d0 & p & Hd0 & Hp & _ & E)]; rewrite E in H1; [discriminate |].
  injection H1 as <- <-. rewrite Hdf in Hd0. injection Hd0 as <-.
  apply bind_ok_inv in Hrun as (e & st2 & H2 & Hrun).
  match type of H2 with copy p ?s = _ =>
    destruct (copy_cases p s) as [[x E2] | (d1 & e' & Hd1 & He & E2)]
  end; rewrite E2 in H2; [discriminate |].
  injection H2 as <- <-.
  rewrite lookup_insert_eq in Hd1. injection Hd1 as <-.
  apply lookup_insert_None in He as [He Hpe].
  remember {| columns := selected_fields; index := index session;
              rows := map (fill selected_fields) (rows session) |} as d1 eqn:Ed1.
  assert (S1 : same_data selected_fields session d1)
    by (rewrite Ed1; apply same_data_fill).
  assert (Hcols1 : columns d1 = selected_fields) by (rewrite Ed1; reflexivity).
  remember (<[p := d1]> st) as base eqn:Ebase.
  apply bind_ok_inv in Hrun as (u1 & st3 & H3 & Hrun).
  apply bind_ok_inv in Hrun as (u2 & st4 & H4 & Hrun).
  injection Hrun as <- <-.
  assert (S3 : exists d3, st3 = <[e' := d3]> base /\ same_data selected_fields d1 d3
                 /\ columns d3 = selected_fields ++ hr_columns selected_fields lthr).
  { unfold hr_columns. destruct lthr as [x |].
    - destruct (str_in "heart_rate" selected_fields).
      + apply (add_hr_zone_inv selected_fields e' zones x _ _ _ d1) in H3
          as (d3 & -> & S & Hc).
        * exists d3. rewrite insert_insert_eq, Hc, Hcols1. auto.
        * apply lookup_insert_eq.
        * apply Hnew. reflexivity.
        * apply Hnew. reflexivity.
        * rewrite Hcols1. apply Hnew. reflexivity.
        * rewrite Hcols1. apply Hnew. reflexivity.
      + injection H3 as <-. exists d1. rewrite app_nil_r.
        auto using same_data_refl.
    - injection H3 as <-. exists d1. rewrite app_nil_r.
      auto using same_data_refl. }
  destruct S3 as (d3 & -> & S3 & Hcols3).
  assert (S4 : exists d4, st4 = <[e' := d4]> base /\ same_data selected_fields d3 d4
                 /\ columns d4 = columns d3 ++ time_columns selected_fields).
  { unfold time_columns. destruct (str_in "timestamp" selected_fields).
    - apply (add_time_elapsed_inv selected_fields e' _ _ _ d3) in H4
        as (d4 & -> & S & Hc).
      + exists d4. rewrite insert_insert_eq. auto.
      + apply lookup_insert_eq.
      + apply Hnew. reflexivity.
      + apply Hnew. reflexivity.
      + rewrite Hcols3, str_in_app, str_in_hr_columns by easy.
        rewrite (proj1 (Hnew "time_elapsed_seconds" eq_refl)). reflexivity.
      + rewrite Hcols3, str_in_app, str_in_hr_columns by easy.
        rewrite (proj1 (Hnew "time_elapsed_minutes" eq_refl)). reflexivity.
    - injection H4 as <-. exists d3. rewrite app_nil_r.
      auto using same_data_refl. }
  destruct S4 as (d4 & -> & S4 & Hcols4).
  split; [exact He |]. exists d4. split; [apply lookup_insert_eq |].
  split; [rewrite Hcols4, Hcols3, <- app_assoc; reflexivity |].
  destruct (same_data_trans _ _ _ _ S1 (same_data_trans _ _ _ _ S3 S4))
    as (Hidx & _ & Hcells).
  split; [exact Hidx | exact Hcells].
Qed.

Lemma export_leaves_session_unchanged_witness :
  exists export_df st',
    build_export 1%positive ["timestamp"; "heart_rate"] zones_150
      (Some (PyFloat.of_int 150)) {[ 1%positive := ten_minute_session ]}
    = (Ok export_df, st')
    /\ st' !! 1%positive = Some ten_minute_session.
Proof.
  eassert (E : build_export 1%positive ["timestamp"; "heart_rate"] zones_150
                 (Some (PyFloat.of_int 150)) {[ 1%positive := ten_minute_session ]}
               = (Ok _, _)) by (vm_compute; reflexivity).
  eexists _, _. split; [exact E |].
  apply (fun H => proj1 (export_leaves_session_unchanged _ _ _ _ _ _ _ _ H E)).
  apply lookup_singleton_eq.
Defined.

(** ** Further properties: admission, columns, parser and estimator *)

Lemma find_snoc {A} (p : A -> bool) l x :
  List.find p (l ++ [x])
  = match List.find p l with
    | Some y => Some y
    | None => if p x then Some x else None
    end.
Proof.
  induction l as [| y l IH]; simpl; [reflexivity |].
  destruct (p y); [reflexivity | exact IH].
Qed.

Lemma last_value_cons k f r :
  last_value k (f :: r)
  = match last_value k r with
    | Some v => Some v
    | None => if String.eqb k (fst f) then Some (snd f) else None
    end.
Proof.
  unfold last_value. simpl rev. rewrite find_snoc.
  destruct (List.find _ (rev r)); simpl; [reflexivity |].
  destruct (String.eqb k (fst f)); reflexivity.
Qed.

Lemma collect_fold_get k r dp :
  dict_get k (fold_left collect r dp)
  = match (if str_in k RECORD_FIELDS then last_value k r else None) with
    | Some v => Some v
    | None => dict_get k dp
    end.
Proof.
  revert dp. induction r as [| f r IH]; intros dp.
  - simpl. destruct (str_in k RECORD_FIELDS); reflexivity.
  - simpl fold_left. rewrite IH, last_value_cons. unfold collect.
    destruct (String.eqb_spec k (fst f)) as [E | N].
    + subst k. destruct (str_in (fst f) RECORD_FIELDS) eqn:Hin.
      * destruct (last_value (fst f) r); [reflexivity |].
        rewrite dict_get_set, String.eqb_refl. reflexivity.
      * reflexivity.
    + destruct (str_in k RECORD_FIELDS); [| destruct (str_in _ _)].
      * destruct (last_value k r); [reflexivity |].
        destruct (str_in (fst f) RECORD_FIELDS); [| reflexivity].
        rewrite dict_get_set. destruct (String.eqb_spec k (fst f)); [contradiction |].
        reflexivity.
      * rewrite dict_get_set. destruct (String.eqb_spec k (fst f)); [contradiction |].
        reflexivity.
      * reflexivity.
Qed.

Lemma dict_keys_set_new {V} (d : dict V) k v :
  dict_in k d = false -> dict_keys (dict_set k v d) = dict_keys d ++ [k].
Proof.
  unfold dict_in, dict_keys. induction d as [| [k' v'] d IH]; simpl; [reflexivity |].
  destruct (String.eqb k k'); [discriminate |].
  intros H. simpl. rewrite IH by exact H. reflexivity.
Qed.

Lemma NoDup_snoc_str (l : list string) k :
  NoDup l -> str_in k l = false -> NoDup (l ++ [k]).
Proof.
  intros Hl Hk. apply NoDup_app. split; [exact Hl |]. split.
  - intros x Hx Hx'. apply list_elem_of_In in Hx, Hx'.
    destruct Hx' as [<- | []]. apply str_in_In in Hx. congruence.
  - apply NoDup_singleton.
Qed.

Lemma dict_keys_set_NoDup {V} (d : dict V) k v :
  NoDup (dict_keys d) -> NoDup (dict_keys (dict_set k v d)).
Proof.
  intros Hd. destruct (dict_in k d) eqn:E.
  - rewrite dict_keys_set by exact E. exact Hd.
  - rewrite dict_keys_set_new by exact E. apply NoDup_snoc_str; [exact Hd |].
    rewrite <- dict_in_keys. exact E.
Qed.

Lemma collect_fold_NoDup r dp :
  NoDup (dict_keys dp) -> NoDup (dict_keys (fold_left collect r dp)).
Proof.
  revert dp. induction r as [| f r IH]; intros dp Hdp; [exact Hdp |].
  simpl. apply IH. unfold collect.
  destruct (str_in (fst f) RECORD_FIELDS); [| exact Hdp].
  apply dict_keys_set_NoDup, Hdp.
Qed.

(** X1. The [data_point] built from a record message maps a field name
    to the value the message delivered last under that name when the
    name is on the list of recognised fields, and holds no other key;
    no key occurs twice. *)
Theorem data_point_keeps_last_recognised_value (r : record) (k : string) :
  dict_get k (data_point r)
  = (if str_in k RECORD_FIELDS then last_value k r else None)
  /\ NoDup (dict_keys (data_point r)).
Proof.
  split.
  - unfold data_point. rewrite collect_fold_get.
    destruct (str_in k RECORD_FIELDS); [destruct (last_value k r) |]; reflexivity.
  - apply collect_fold_NoDup. constructor.
Qed.

Lemma rbind_inv {A B} (m : res A) (k : A -> res B) b :
  rbind m k = Ok b -> exists a, m = Ok a /\ k a = Ok b.
Proof. destruct m as [a | e]; simpl; [eauto | discriminate]. Qed.

Lemma convert_column_columns c df df' :
  convert_column c df = Ok df' -> columns df' = columns df.
Proof.
  unfold convert_column. destruct (str_in c (columns df)) eqn:E.
  - intros H. apply rbind_inv in H as (cells & _ & H).
    apply rbind_inv in H as (cells' & _ & H). injection H as <-.
    simpl. rewrite E. reflexivity.
  - intros [= <-]. reflexivity.
Qed.

Lemma parse_fit_file_columns argsort rs df :
  parse_fit_file argsort rs = Some df ->
  columns df = union_keys (all_data rs) /\ all_data rs <> [].
Proof.
  unfold parse_fit_file.
  destruct (parse_fit_file_try argsort rs) as [r |] eqn:E; [| discriminate].
  intros ->. unfold parse_fit_file_try in E.
  destruct (all_data rs) as [| dp dps] eqn:Eall; [discriminate |].
  split; [| discriminate].
  apply rbind_inv in E as (cells & Hcells & E).
  apply rbind_inv in E as (cells' & _ & E).
  apply rbind_inv in E as (sorted & Hsort & E).
  apply rbind_inv in E as (d1 & H1 & E).
  apply rbind_inv in E as (d2 & H2 & E).
  injection E as <-.
  rewrite (convert_column_columns _ _ _ H2), (convert_column_columns _ _ _ H1).
  unfold sort_values_timestamp in Hsort.
  apply rbind_inv in Hsort as (c1 & _ & Hsort).
  apply rbind_inv in Hsort as (keys & _ & Hsort).
  injection Hsort as <-. simpl.
  unfold getitem in Hcells. simpl in Hcells.
  destruct (str_in "timestamp" (union_keys (dp :: dps))); [reflexivity | discriminate].
Qed.

Lemma add_key_NoDup cols k : NoDup cols -> NoDup (add_key cols k).
Proof.
  intros H. unfold add_key. destruct (str_in k cols) eqn:E; [exact H |].
  apply NoDup_snoc_str; assumption.
Qed.

Lemma union_keys_NoDup dps : NoDup (union_keys dps).
Proof.
  unfold union_keys.
  assert (H : forall cols, NoDup cols -> NoDup (fold_left add_keys dps cols)).
  { induction dps as [| dp dps IH]; intros cols Hc; [exact Hc |].
    simpl. apply IH. unfold add_keys.
    generalize (dict_keys dp). intros ks. revert cols Hc.
    induction ks as [| k ks IHk]; intros cols Hc; [exact Hc |].
    simpl. apply IHk, add_key_NoDup, Hc. }
  apply H. constructor.
Qed.

(** X2. The columns of the table [parse_fit_file] returns are the keys
    of the admitted [data_point]s in order of first appearance: no
    column occurs twice, [timestamp] is one of them, and a name is a
    column exactly when it is a recognised field that some record
    message holding a timestamp carries. *)
Theorem parsed_columns_are_recognised_fields argsort rs df :
  parse_fit_file argsort rs = Some df ->
  columns df = union_keys (all_data rs)
  /\ NoDup (columns df)
  /\ In "timestamp" (columns df)
  /\ forall c, In c (columns df) <->
       In c RECORD_FIELDS
       /\ exists r, In r rs /\ has_timestamp r = true /\ In c (map fst r).
Proof.
  intros H. destruct (parse_fit_file_columns _ _ _ H) as [Hcols Hne].
  assert (Hiff : forall c, In c (columns df) <->
            In c RECORD_FIELDS
            /\ exists r, In r rs /\ has_timestamp r = true /\ In c (map fst r)).
  { intros c. rewrite Hcols, <- !str_in_In, union_keys_in, all_data_filter.
    rewrite existsb_exists. split.
    - intros (dp & Hdp & Hin). apply in_map_iff in Hdp as (r & <- & Hr).
      apply filter_In in Hr as [Hr Hts]. rewrite data_point_in in Hin.
      apply andb_true_iff in Hin as [Hrec Hex]. split; [exact Hrec |].
      exists r. repeat split; try assumption.
      apply existsb_exists in Hex as (f & Hf & Hcf).
      apply String.eqb_eq in Hcf. subst c. apply in_map, Hf.
    - intros (Hrec & r & Hr & Hts & Hc). exists (data_point r). split.
      + apply in_map, filter_In. auto.
      + rewrite data_point_in, Hrec. simpl. apply existsb_exists.
        apply in_map_iff in Hc as (f & <- & Hf). exists f.
        split; [exact Hf | apply String.eqb_refl]. }
  split; [exact Hcols |]. split; [rewrite Hcols; apply union_keys_NoDup |].
  split; [| exact Hiff].
  apply str_in_In. rewrite Hcols, union_keys_in.
  destruct (all_data rs) as [| dp dps] eqn:E; [contradiction |].
  assert (Hdp : In dp (all_data rs)) by (rewrite E; left; reflexivity).
  unfold all_data in Hdp. apply filter_In in Hdp as [_ Hdp].
  simpl. rewrite Hdp. reflexivity.
Qed.

Lemma parsed_columns_are_recognised_fields_witness :
  exists df,
    parse_fit_file merge_argsort two_bags_one_instant = Some df
    /\ columns df = ["timestamp"; "heart_rate"]
    /\ NoDup (columns df).
Proof.
  eexists. split; [vm_compute; reflexivity |].
  split; [reflexivity |].
  refine (proj1 (proj2 (parsed_columns_are_recognised_fields merge_argsort
                          two_bags_one_instant _ _))).
  vm_compute. reflexivity.
Defined.

Lemma existsb_false_forallb {A} (p : A -> bool) l :
  existsb p l = false -> forallb (fun x => negb (p x)) l = true.
Proof.
  induction l as [| x l IH]; simpl; [reflexivity |].
  destruct (p x); simpl; [discriminate | exact IH].
Qed.

Lemma parse_fit_file_some_timestamp argsort rs df :
  parse_fit_file argsort rs = Some df -> existsb has_timestamp rs = true.
Proof.
  intros H. destruct (existsb has_timestamp rs) eqn:E; [reflexivity |].
  apply existsb_false_forallb, all_data_nil in E.
  destruct (parse_fit_file_columns _ _ _ H) as [_ Hne]. contradiction.
Qed.

Lemma parse_fit_file_nonempty argsort rs df :
  argsort_ok argsort -> forallb profile_record rs = true ->
  parse_fit_file argsort rs = Some df -> len df <> 0%nat.
Proof.
  intros Hsort Hprof H.
  pose proof (parse_fit_file_some_timestamp _ _ _ H) as Hts.
  destruct (parse_fit_file_sorted argsort rs Hsort Hprof Hts)
    as (df' & H' & _ & _ & _ & _ & Hlen & _).
  rewrite H in H'. injection H' as <-. rewrite Hlen.
  apply existsb_exists in Hts as (r & Hr & Hts).
  assert (Hin : In r (List.filter has_timestamp rs)) by (apply filter_In; auto).
  destruct (List.filter has_timestamp rs); [destruct Hin | discriminate].
Qed.

(** X3. The parser and the estimator fit together: on record messages
    with the payload types of the FIT profile, a table the parser
    returns is a non-empty normalized session, and the estimator applied
    to the parser's result (a table or none) never raises and returns
    either the three-way null or three present components. *)
Theorem estimator_accepts_parser_output argsort rs :
  argsort_ok argsort ->
  forallb profile_record rs = true ->
  Z.of_nat (length rs) < 2 ^ 53 ->
  (forall df, parse_fit_file argsort rs = Some df ->
              normalized df = true /\ len df <> 0%nat)
  /\ exists r,
       calculate_lthr_from_last_20_minutes (parse_fit_file argsort rs) = Ok r
       /\ (r = none3
           \/ exists avg lthr minutes, r = (Some avg, Some lthr, Some minutes)).
Proof.
  intros Hsort Hprof Hlen.
  assert (Hdf : forall df, parse_fit_file argsort rs = Some df ->
                           normalized df = true /\ len df <> 0%nat).
  { intros df H. split.
    - eapply parse_fit_file_normalized; eassumption.
    - eapply parse_fit_file_nonempty; eassumption. }
  split; [exact Hdf |].
  destruct (parse_fit_file argsort rs) as [df |].
  2:{ exists none3. split; [reflexivity | left; reflexivity]. }
  destruct (Hdf df eq_refl) as [Hnorm Hne].
  exists (window_estimate df). split; [apply estimate_normalized; assumption |].
  destruct (window_estimate_cases df Hnorm Hne) as (t0 & t1 & _ & _ & Hest).
  destruct (window_values df); rewrite Hest; [left; reflexivity | right; eauto].
Qed.

Lemma estimator_accepts_parser_output_witness :
  exists r,
    calculate_lthr_from_last_20_minutes
      (parse_fit_file merge_argsort two_bags_one_instant) = Ok r
    /\ (r = none3
        \/ exists avg lthr minutes, r = (Some avg, Some lthr, Some minutes)).
Proof.
  apply (estimator_accepts_parser_output merge_argsort two_bags_one_instant).
  - exact merge_argsort_ok.
  - reflexivity.
  - reflexivity.
Defined.

Lemma nondecreasing_ge_head ts t0 :
  nondecreasing ts = true -> head ts = Some t0 -> Forall (fun t => t0 <= t) ts.
Proof.
  revert t0. induction ts as [| x ts IH]; intros t0 Hnd Hh; [constructor |].
  injection Hh as <-. constructor; [lia |].
  destruct ts as [| y ts]; [constructor |].
  simpl in Hnd. apply andb_true_iff in Hnd as [Hxy Hnd]. apply Z.leb_le in Hxy.
  specialize (IH y Hnd eq_refl).
  eapply List.Forall_impl; [| exact IH]. simpl. intros. lia.
Qed.

Lemma filter_all {A} (p : A -> bool) l :
  Forall (fun x => p x = true) l -> List.filter p l = l.
Proof. induction 1 as [| x l Hx _ IH]; simpl; [| rewrite Hx, IH]; reflexivity. Qed.

Lemma rows_in_window df t0 t1 :
  forallb has_time (rows df) = true ->
  Forall (fun t => t0 <= t) (times df) -> Forall (fun t => t <= t1) (times df) ->
  t1 - t0 <= TWENTY_MINUTES ->
  Forall (fun row => in_window t1 row = true) (rows df).
Proof.
  intros Htime Hlo Hhi Hspan. apply List.Forall_forall. intros row Hrow.
  rewrite forallb_forall in Htime. specialize (Htime row Hrow).
  unfold has_time in Htime. unfold in_window.
  destruct (row_time row) as [t |] eqn:E; [| discriminate].
  assert (Ht : In t (times df)).
  { apply list_elem_of_In. unfold times. apply list_elem_of_omap.
    exists row. split; [apply list_elem_of_In, Hrow | exact E]. }
  rewrite List.Forall_forall in Hlo, Hhi.
  specialize (Hlo t Ht). specialize (Hhi t Ht).
  apply andb_true_iff. split; apply Z.leb_le; lia.
Qed.

Lemma normalized_timestamp_column df :
  normalized df = true -> len df <> 0%nat ->
  str_in "timestamp" (columns df) = true.
Proof.
  intros Hnorm Hlen. destruct (normalized_inv df Hnorm) as (Hdense & Htime & _).
  unfold len in Hlen. destruct (rows df) as [| row rs] eqn:E; [contradiction |].
  rewrite (dense_column "timestamp" df row Hdense) by (rewrite E; left; reflexivity).
  apply has_time_dict_in. simpl in Htime. apply andb_true_iff in Htime. tauto.
Qed.

Lemma times_nonempty df t : last (times df) = Some t -> len df <> 0%nat.
Proof.
  unfold times, len. destruct (rows df); [discriminate | discriminate].
Qed.

(** X4. A normalized session that spans no more than twenty minutes is
    averaged as a whole: the window selection keeps every row, and the
    estimator returns the mean of all heart-rate values present in the
    session (the three-way null when there is none), 95 % of it, and the
    span in minutes. *)
Theorem short_session_is_averaged_whole df t0 t1 :
  normalized df = true ->
  head (times df) = Some t0 -> last (times df) = Some t1 ->
  t1 - t0 <= TWENTY_MINUTES ->
  (exists w, last_20_min df (t1 - TWENTY_MINUTES) = Ok w /\ rows w = rows df)
  /\ calculate_lthr_from_last_20_minutes (Some df)
     = Ok (match omap row_hr (rows df) with
           | [] => none3
           | vs =>
               (Some (PyFloat.of_int (sumZ vs) ⊘ PyFloat.of_int (Z.of_nat (length vs))),
                Some (PyFloat.of_int (sumZ vs) ⊘ PyFloat.of_int (Z.of_nat (length vs))
                      ⊛ PyFloat.lit 95 100),
                Some (PyFloat.of_int (t1 - t0) ⊘ PyFloat.of_int 60))
           end).
Proof.
  intros Hnorm H0 H1 Hspan.
  pose proof (times_nonempty df t1 H1) as Hlen.
  destruct (normalized_inv df Hnorm) as (Hdense & Htime & Hnd & _).
  pose proof (nondecreasing_ge_head _ _ Hnd H0) as Hlo.
  pose proof (nondecreasing_le_last _ _ Hnd H1) as Hhi.
  pose proof (rows_in_window df t0 t1 Htime Hlo Hhi Hspan) as Hwin.
  split.
  - eexists. split.
    + apply last_20_min_mask; [apply normalized_timestamp_column; assumption | exact Htime].
    + simpl. rewrite (window_filter (rows df) (times df) t1);
        [apply filter_all, Hwin | apply times_total, Htime | exact Hhi].
  - rewrite (estimate_normalized df Hnorm Hlen).
    destruct (window_estimate_cases df Hnorm Hlen) as (t0' & t1' & H0' & H1' & Hest).
    assert (t0' = t0) by congruence. assert (t1' = t1) by congruence. subst t0' t1'.
    assert (Hvals : window_values df = omap row_hr (rows df)).
    { unfold window_values. rewrite H1, (filter_all _ _ Hwin). reflexivity. }
    rewrite Hvals in Hest. destruct (omap row_hr (rows df)); rewrite Hest; reflexivity.
Qed.

Lemma short_session_is_averaged_whole_witness :
  calculate_lthr_from_last_20_minutes (Some ten_minute_session)
  = Ok (Some (PyFloat.of_int 330 ⊘ PyFloat.of_int 3),
        Some (PyFloat.of_int 330 ⊘ PyFloat.of_int 3 ⊛ PyFloat.lit 95 100),
        Some (PyFloat.of_int (600 - 0) ⊘ PyFloat.of_int 60)).
Proof.
  refine (proj2 (short_session_is_averaged_whole ten_minute_session 0 600 _ _ _ _)).
  - reflexivity.
  - reflexivity.
  - reflexivity.
  - unfold TWENTY_MINUTES. lia.
Defined.

(** X5. Samples taken more than twenty minutes before the last one have
    no effect on the estimate: two normalized sessions that end at the
    same time and hold the same rows in the trailing window
    [last_timestamp - 20 min, last_timestamp] get the same mean and the
    same threshold from the estimator. *)
Theorem estimate_ignores_samples_before_window df df' t1 :
  normalized df = true -> normalized df' = true ->
  last (times df) = Some t1 -> last (times df') = Some t1 ->
  List.filter (in_window t1) (rows df) = List.filter (in_window t1) (rows df') ->
  exists r r',
    calculate_lthr_from_last_20_minutes (Some df) = Ok r
    /\ calculate_lthr_from_last_20_minutes (Some df') = Ok r'
    /\ fst (fst r) = fst (fst r') /\ snd (fst r) = snd (fst r').
Proof.
  intros Hn Hn' H1 H1' Hwin.
  pose proof (times_nonempty df t1 H1) as Hlen.
  pose proof (times_nonempty df' t1 H1') as Hlen'.
  exists (window_estimate df), (window_estimate df').
  split; [apply estimate_normalized; assumption |].
  split; [apply estimate_normalized; assumption |].
  destruct (window_estimate_cases df Hn Hlen) as (a0 & a1 & _ & _ & Hest).
  destruct (window_estimate_cases df' Hn' Hlen') as (b0 & b1 & _ & _ & Hest').
  assert (Hvals : window_values df = window_values df').
  { unfold window_values. rewrite H1, H1', Hwin. reflexivity. }
  rewrite <- Hvals in Hest'.
  destruct (window_values df); rewrite Hest, Hest'; split; reflexivity.
Qed.

Lemma estimate_ignores_samples_before_window_witness :
  exists r r',
    calculate_lthr_from_last_20_minutes (Some ten_minute_session) = Ok r
    /\ calculate_lthr_from_last_20_minutes (Some forty_minute_session) = Ok r'
    /\ fst (fst r) = fst (fst r') /\ snd (fst r) = snd (fst r').
Proof.
  apply (estimate_ignores_samples_before_window
           ten_minute_session forty_minute_session 600); reflexivity.
Defined.

(** ** Further properties: band generator and classifier *)

Lemma mul_finite_not_nan sx mx ex sy my ey :
  PyFloat.is_nan (S754_finite sx mx ex ⊛ S754_finite sy my ey) = false.
Proof.
  unfold PyFloat.mul, SFmul. apply binary_round_aux_not_nan. lia.
Qed.

Lemma mul_not_nan x sy my ey :
  PyFloat.is_nan x = false -> PyFloat.is_nan (x ⊛ S754_finite sy my ey) = false.
Proof.
  destruct x as [sx | sx | | sx mx ex]; try reflexivity; try discriminate.
  intros _. apply mul_finite_not_nan.
Qed.

Lemma lit_finite_positive n :
  In n [62; 77; 86; 91; 95; 103] ->
  exists m e, PyFloat.lit n 100 = S754_finite false m e.
Proof.
  intros H. simpl in H.
  repeat (destruct H as [<- | H]; [eexists _, _; vm_compute; reflexivity |]).
  destruct H.
Qed.

Lemma pct_error lthr n e :
  In n [62; 77; 86; 91; 95; 103] -> pct lthr n = Raise e ->
  (e = ValueError /\ PyFloat.is_nan lthr = true)
  \/ (e = OverflowError /\ PyFloat.is_nan lthr = false).
Proof.
  intros Hn. destruct (lit_finite_positive n Hn) as (m & ex & Hlit).
  unfold pct. rewrite Hlit. destruct (PyFloat.is_nan lthr) eqn:Hnan.
  - destruct lthr; try discriminate. cbn. intros [= <-]. auto.
  - pose proof (mul_not_nan lthr false m ex Hnan) as H.
    destruct (lthr ⊛ S754_finite false m ex); simpl; try discriminate.
    intros [= <-]. auto.
Qed.

(** X6. The band generator fails exactly as [int] does: on a NaN
    threshold with [ValueError], on an infinite one with
    [OverflowError], and whenever it fails it is with one of the two,
    [ValueError] only for NaN. A zero threshold (of either sign) gives
    five bands from 0 to 0. *)
Theorem band_generator_error_behaviour :
  calculate_heart_rate_zones S754_nan = Raise ValueError
  /\ (forall s, calculate_heart_rate_zones (S754_infinity s) = Raise OverflowError)
  /\ (forall s, exists zones,
        calculate_heart_rate_zones (S754_zero s) = Ok zones
        /\ map snd (zone_ranges zones) = [(0, 0); (0, 0); (0, 0); (0, 0); (0, 0)])
  /\ (forall lthr e,
        calculate_heart_rate_zones lthr = Raise e ->
        (e = ValueError /\ PyFloat.is_nan lthr = true)
        \/ (e = OverflowError /\ PyFloat.is_nan lthr = false)).
Proof.
  split; [vm_compute; reflexivity |].
  split; [intros []; vm_compute; reflexivity |].
  split; [intros []; eexists; split; vm_compute; reflexivity |].
  intros lthr e. unfold calculate_heart_rate_zones.
  repeat match goal with
  | |- rbind (Ok _) _ = Raise e -> _ => rewrite rbind_ok
  | |- rbind (pct lthr ?n) _ = Raise e -> _ =>
      destruct (pct lthr n) eqn:?E;
      [rewrite rbind_ok
      | simpl; intros [= <-]; eapply (pct_error lthr n); [simpl; tauto | eassumption]]
  end.
  discriminate.
Qed.

Lemma binary_round_aux_opp s m e l :
  binary_round_aux PyFloat.prec PyFloat.emax (negb s) m e l
  = SFopp (binary_round_aux PyFloat.prec PyFloat.emax s m e l).
Proof.
  unfold binary_round_aux.
  destruct (shr_fexp PyFloat.prec PyFloat.emax m e l) as [mrs' e'].
  destruct (shr_fexp PyFloat.prec PyFloat.emax _ e' loc_Exact) as [mrs'' e''].
  destruct (shr_m mrs''); try reflexivity.
  destruct (e'' <=? _); reflexivity.
Qed.

Lemma mul_opp x sy my ey :
  SFopp x ⊛ S754_finite sy my ey = SFopp (x ⊛ S754_finite sy my ey).
Proof.
  destruct x as [sx | sx | | sx mx ex]; try reflexivity.
  - destruct sx, sy; reflexivity.
  - destruct sx, sy; reflexivity.
  - unfold PyFloat.mul, SFmul. cbn [SFopp].
    rewrite <- binary_round_aux_opp. destruct sx, sy; reflexivity.
Qed.

Lemma to_int_opp x :
  PyFloat.to_int (SFopp x) = let* v := PyFloat.to_int x in Ok (- v).
Proof.
  destruct x as [sx | sx | | sx mx ex]; try reflexivity.
  cbn [SFopp PyFloat.to_int rbind]. f_equal. destruct sx; simpl; lia.
Qed.

Lemma pct_opp lthr n :
  In n [62; 77; 86; 91; 95; 103] ->
  pct (SFopp lthr) n = let* v := pct lthr n in Ok (- v).
Proof.
  intros Hn. destruct (lit_finite_positive n Hn) as (m & e & Hlit).
  unfold pct. rewrite Hlit, mul_opp. apply to_int_opp.
Qed.

(** X7. Truncation toward zero makes the band generator odd: when it
    returns bands for a threshold, it returns for the negated threshold
    the same five bands with every bound negated (so the bands of a
    negative threshold run downwards). *)
Theorem bands_of_negated_threshold lthr zones :
  calculate_heart_rate_zones lthr = Ok zones ->
  exists zones',
    calculate_heart_rate_zones (SFopp lthr) = Ok zones'
    /\ zone_ranges zones'
       = map (fun kr => (fst kr, (- fst (snd kr), - snd (snd kr)))) (zone_ranges zones).
Proof.
  unfold calculate_heart_rate_zones. intros H.
  rewrite (pct_opp lthr 62), (pct_opp lthr 77), (pct_opp lthr 86),
    (pct_opp lthr 91), (pct_opp lthr 95), (pct_opp lthr 103) by (simpl; tauto).
  repeat match type of H with
  | rbind (pct lthr ?n) _ = Ok _ =>
      let v := fresh "v" in
      let E := fresh "E" in
      apply rbind_inv in H as (v & E & H);
      rewrite E in *; rewrite ?rbind_ok in *
  end.
  injection H as <-. eexists. split; reflexivity.
Qed.

Lemma bands_of_negated_threshold_witness :
  exists zones',
    calculate_heart_rate_zones (SFopp (PyFloat.of_int 150)) = Ok zones'
    /\ map snd (zone_ranges zones')
       = [(-93, -115); (-115, -129); (-129, -136); (-136, -142); (-142, -154)].
Proof.
  destruct (bands_of_negated_threshold (PyFloat.of_int 150) zones_150)
    as (zones' & H & Hr).
  - vm_compute. reflexivity.
  - exists zones'. split; [exact H |]. rewrite Hr. reflexivity.
Defined.

(** X8. When the five bands of a threshold run upwards (each lower
    bound at most its upper bound), the classifier is the step function
    of their six bounds: below the first bound the label is [Below Z1],
    up to each upper bound in turn it is that band (so a shared bound
    goes to the lower band and no value between the first and the last
    bound is left without a band), and above the last bound it is
    [Above Z5]. *)
Theorem classify_zone_on_ordered_bands lthr zones (v : Z) :
  calculate_heart_rate_zones lthr = Ok zones ->
  Forall (fun kz => fst (range (snd kz)) <= snd (range (snd kz))) zones ->
  exists b0 b1 b2 b3 b4 b5,
    map snd (zone_ranges zones)
    = [(b0, b1); (b1, b2); (b2, b3); (b3, b4); (b4, b5)]
    /\ classify_zone zones (VInt v)
       = Ok (if v <? b0 then "Below Z1"
             else if v <=? b1 then "Z1"
             else if v <=? b2 then "Z2"
             else if v <=? b3 then "Z3"
             else if v <=? b4 then "Z4"
             else if v <=? b5 then "Z5"
             else "Above Z5").
Proof.
  intros H Hord.
  destruct (calculate_heart_rate_zones_shape lthr zones H)
    as (z1 & z2 & z3 & z4 & z5 & -> & E1 & E2 & E3 & E4 & _).
  repeat match goal with
  | Hf : Forall _ (_ :: _) |- _ => inversion_clear Hf
  end.
  simpl in *.
  destruct z1 as [n1 [l1 h1] p1], z2 as [n2 [l2 h2] p2], z3 as [n3 [l3 h3] p3],
    z4 as [n4 [l4 h4] p4], z5 as [n5 [l5 h5] p5].
  simpl in *. subst l2 l3 l4 l5.
  exists l1, h1, h2, h3, h4, h5. split; [reflexivity |].
  unfold classify_zone. simpl. unfold in_range. simpl.
  repeat match goal with
  | |- context [?a <=? ?b] => destruct (Z.leb_spec a b); simpl
  | |- context [?a <? ?b] => destruct (Z.ltb_spec a b); simpl
  end; try reflexivity; lia.
Qed.

Lemma classify_zone_on_ordered_bands_witness :
  exists b0 b1 b2 b3 b4 b5,
    map snd (zone_ranges zones_150)
    = [(b0, b1); (b1, b2); (b2, b3); (b3, b4); (b4, b5)]
    /\ classify_zone zones_150 (VInt 100)
       = Ok (if 100 <? b0 then "Below Z1"
             else if 100 <=? b1 then "Z1"
             else if 100 <=? b2 then "Z2"
             else if 100 <=? b3 then "Z3"
             else if 100 <=? b4 then "Z4"
             else if 100 <=? b5 then "Z5"
             else "Above Z5").
Proof.
  apply (classify_zone_on_ordered_bands (PyFloat.of_int 150) zones_150 100).
  - vm_compute. reflexivity.
  - repeat constructor; simpl; lia.
Defined.

(** ** Further properties: the export runs to completion *)

Lemma zip_with_set_same c (rows : list (dict value)) cells :
  length cells = length rows ->
  map (cell c) (zip_with (fun row v => dict_set c v row) rows cells) = cells.
Proof.
  revert cells. induction rows as [| row rows IH]; intros [| v cells] H;
    simpl in H; try discriminate; [reflexivity |].
  simpl. rewrite IH by lia. f_equal.
  unfold cell. rewrite dict_get_set, String.eqb_refl. reflexivity.
Qed.

Lemma zip_with_set_length c (rows : list (dict value)) cells :
  length cells = length rows ->
  length (zip_with (fun row v => dict_set c v row) rows cells) = length rows.
Proof.
  revert cells. induction rows as [| row rows IH]; intros [| v cells] H;
    simpl in H; try discriminate; [reflexivity |].
  simpl. rewrite IH by lia. reflexivity.
Qed.

Lemma setitem_str_in d c cells : str_in c (columns (setitem d c cells)) = true.
Proof.
  unfold setitem. simpl. destruct (str_in c (columns d)) eqn:E; [exact E |].
  rewrite str_in_app. unfold str_in at 2. simpl. rewrite String.eqb_refl.
  apply orb_true_r.
Qed.

Lemma setitem_str_in_other d c c' cells :
  str_in c (columns d) = true -> str_in c (columns (setitem d c' cells)) = true.
Proof.
  intros H. unfold setitem. simpl. destruct (str_in c' (columns d)); [exact H |].
  rewrite str_in_app, H. reflexivity.
Qed.

Lemma setitem_rows_length d c cells :
  length cells = length (rows d) -> length (rows (setitem d c cells)) = length (rows d).
Proof. intros H. simpl. apply zip_with_set_length, H. Qed.

Lemma cells_setitem_same d c cells :
  length cells = length (rows d) -> map (cell c) (rows (setitem d c cells)) = cells.
Proof. intros H. simpl. apply zip_with_set_same, H. Qed.

Lemma cells_setitem_other d c c' cells :
  c <> c' -> length cells = length (rows d) ->
  map (cell c) (rows (setitem d c' cells)) = map (cell c) (rows d).
Proof. intros N H. simpl. apply zip_with_set_other; assumption. Qed.

Lemma getitem_ok d c :
  str_in c (columns d) = true -> getitem d c = Ok (map (cell c) (rows d)).
Proof. intros H. unfold getitem. rewrite H. reflexivity. Qed.

Lemma classify_zone_column zones cells :
  dict_in "Z5" zones = true ->
  forallb is_heart_rate cells = true ->
  exists labels, mapM (classify_zone zones) cells = Ok labels.
Proof.
  intros Hz5. unfold dict_in in Hz5.
  destruct (dict_get "Z5" zones) as [z5 |] eqn:E5; [| discriminate].
  induction cells as [| v cells IH]; intros Hhr; [exists []; reflexivity |].
  simpl in Hhr. apply andb_true_iff in Hhr as [Hv Hcells].
  destruct (IH Hcells) as (labels & Hl).
  assert (Hc : exists label, classify_zone zones v = Ok label).
  { destruct v; try discriminate; [eapply classify_zone_total; eassumption |].
    exists "No Data". reflexivity. }
  destruct Hc as (label & Hc). exists (label :: labels).
  simpl. rewrite Hc, Hl. reflexivity.
Qed.

Lemma add_hr_zone_ok st e d zones x hr labels :
  st !! e = Some d ->
  getitem d "heart_rate" = Ok hr ->
  mapM (classify_zone zones) hr = Ok labels ->
  add_hr_zone e zones x st
  = (Ok tt, <[e := setitem (setitem d "hr_zone" (map VStr labels)) "lthr"
                     (map (fun _ => VFloat x) hr)]> st).
Proof.
  intros He Hhr Hl.
  unfold add_hr_zone, getitem_at, setitem_at, bind, load, lift, write.
  rewrite He. cbv beta iota. rewrite Hhr, Hl. cbv beta iota.
  rewrite He. cbv beta iota. rewrite lookup_insert_eq. cbv beta iota.
  rewrite insert_insert_eq. reflexivity.
Qed.

Lemma mapM_div60 (xs : list float) :
  mapM div60 (map VFloat xs) = Ok (map (fun x => VFloat (x ⊘ PyFloat.of_int 60)) xs).
Proof.
  induction xs as [| x xs IH]; [reflexivity |].
  simpl. rewrite IH. reflexivity.
Qed.

Lemma add_time_elapsed_ok st e d ts t0 :
  st !! e = Some d ->
  str_in "timestamp" (columns d) = true ->
  map row_time (rows d) = map Some ts ->
  head ts = Some t0 ->
  add_time_elapsed e st
  = (Ok tt,
     <[e := setitem
              (setitem d "time_elapsed_seconds"
                 (map (fun t => VFloat (PyFloat.of_int (t - t0))) ts))
              "time_elapsed_minutes"
              (map (fun t => VFloat (PyFloat.of_int (t - t0) ⊘ PyFloat.of_int 60)) ts)]> st).
Proof.
  intros He Hcol Hts H0.
  destruct (proj1 (iloc_time (rows d) ts Hts) t0 H0) as (v0 & Hv0 & Ht0).
  pose proof (as_time_column (rows d) ts Hts) as Hkeys.
  pose proof (mapM_bind_map as_time (fun t => VFloat (PyFloat.of_int (t - t0)))
                _ _ Hkeys) as Hsecs.
  assert (Hlen : length ts = length (rows d)).
  { rewrite <- (length_map Some ts), <- Hts, length_map. reflexivity. }
  set (secs := map (fun t => VFloat (PyFloat.of_int (t - t0))) ts) in *.
  assert (Hread : getitem (setitem d "time_elapsed_seconds" secs) "time_elapsed_seconds"
                  = Ok secs).
  { rewrite getitem_ok by apply setitem_str_in. simpl.
    rewrite zip_with_set_same; [reflexivity |]. unfold secs. rewrite length_map. exact Hlen. }
  assert (Hmins : mapM div60 secs
                  = Ok (map (fun t => VFloat (PyFloat.of_int (t - t0) ⊘ PyFloat.of_int 60)) ts)).
  { unfold secs. rewrite <- (map_map (fun t => PyFloat.of_int (t - t0)) VFloat).
    rewrite mapM_div60, map_map. reflexivity. }
  unfold add_time_elapsed, getitem_at, setitem_at, bind, load, lift, write.
  rewrite He. cbv beta iota. rewrite (getitem_ok d "timestamp" Hcol). cbv beta iota.
  rewrite Hv0. cbv beta iota. rewrite Ht0. cbv beta iota.
  unfold elapsed_seconds. rewrite Hsecs. cbv beta iota.
  rewrite He. cbv beta iota. rewrite lookup_insert_eq. cbv beta iota.
  rewrite Hread. cbv beta iota. rewrite Hmins. cbv beta iota.
  rewrite lookup_insert_eq. cbv beta iota.
  rewrite insert_insert_eq. reflexivity.
Qed.

Lemma map_row_time_cells (rows rows' : list (dict value)) :
  map (cell "timestamp") rows = map (cell "timestamp") rows' ->
  map row_time rows = map row_time rows'.
Proof.
  intros H.
  change row_time
    with (fun row => (fun v => match v with VTime t => Some t | _ => None end)
                       (cell "timestamp" row)).
  rewrite <- !(map_map (cell "timestamp")
                 (fun v => match v with VTime t => Some t | _ => None end)).
  rewrite H. reflexivity.
Qed.

Lemma cells_fill c selected (rows : list (dict value)) :
  str_in c selected = true ->
  map (cell c) (map (fill selected) rows) = map (cell c) rows.
Proof.
  intros H. rewrite map_map. apply map_ext. intros row.
  rewrite cell_fill, H. reflexivity.
Qed.

Lemma export_hr_step st e d0 session selected zones lthr :
  st !! e = Some d0 ->
  columns d0 = selected ->
  rows d0 = map (fill selected) (rows session) ->
  forallb (fun row => is_heart_rate (cell "heart_rate" row)) (rows session) = true ->
  dict_in "Z5" zones = true ->
  exists d1,
    match lthr with
    | Some x => if str_in "heart_rate" selected then add_hr_zone e zones x else ret tt
    | None => ret tt
    end st = (Ok tt, <[e := d1]> st)
    /\ length (rows d1) = length (rows session)
    /\ (forall c, c <> "hr_zone" -> c <> "lthr" ->
          map (cell c) (rows d1) = map (cell c) (rows d0))
    /\ (forall c, str_in c (columns d0) = true -> str_in c (columns d1) = true)
    /\ (forall x, lthr = Some x -> str_in "heart_rate" selected = true ->
          exists labels,
            mapM (classify_zone zones) (map (cell "heart_rate") (rows session))
            = Ok labels
            /\ map (cell "hr_zone") (rows d1) = map VStr labels
            /\ map (cell "lthr") (rows d1) = map (fun _ => VFloat x) (rows session)).
Proof.
  intros He Hcols Hrows Hhr Hz5.
  assert (Hlen0 : length (rows d0) = length (rows session))
    by (rewrite Hrows; apply length_map).
  assert (Hskip : exists d1,
            ret tt st = (Ok tt, <[e := d1]> st)
            /\ length (rows d1) = length (rows session)
            /\ (forall c, c <> "hr_zone" -> c <> "lthr" ->
                  map (cell c) (rows d1) = map (cell c) (rows d0))
            /\ (forall c, str_in c (columns d0) = true -> str_in c (columns d1) = true)).
  { exists d0. unfold ret. rewrite insert_id by exact He. auto. }
  destruct lthr as [x |].
  2:{ destruct Hskip as (d1 & H1 & H2 & H3 & H4). exists d1.
      repeat split; try assumption. discriminate. }
  destruct (str_in "heart_rate" selected) eqn:Esel.
  2:{ destruct Hskip as (d1 & H1 & H2 & H3 & H4). exists d1.
      repeat split; try assumption. discriminate. }
  clear Hskip.
  assert (Hcells : map (cell "heart_rate") (rows d0)
                   = map (cell "heart_rate") (rows session))
    by (rewrite Hrows; apply cells_fill, Esel).
  destruct (classify_zone_column zones (map (cell "heart_rate") (rows session)) Hz5)
    as (labels & Hlabels).
  { rewrite forallb_forall in Hhr. apply forallb_forall. intros v Hv.
    apply in_map_iff in Hv as (row & <- & Hrow). auto. }
  pose proof (mapM_length _ _ _ Hlabels) as Hll. rewrite length_map in Hll.
  eexists. split.
  { apply (add_hr_zone_ok st e d0 zones x
             (map (cell "heart_rate") (rows session)) labels He).
    - rewrite getitem_ok by (rewrite Hcols; exact Esel). rewrite Hcells. reflexivity.
    - exact Hlabels. }
  assert (Hl1 : length (rows (setitem d0 "hr_zone" (map VStr labels)))
                = length (rows session)).
  { rewrite setitem_rows_length; [exact Hlen0 |]. rewrite length_map. congruence. }
  assert (Hl2 : length (map (fun _ : value => VFloat x)
                          (map (cell "heart_rate") (rows session)))
                = length (rows (setitem d0 "hr_zone" (map VStr labels)))).
  { rewrite !length_map. symmetry. exact Hl1. }
  assert (Hl3 : length (map VStr labels) = length (rows d0)).
  { rewrite length_map. congruence. }
  split; [| split; [| split]].
  - rewrite setitem_rows_length; assumption.
  - intros c N1 N2.
    rewrite cells_setitem_other by assumption.
    apply cells_setitem_other; assumption.
  - intros c Hc. apply setitem_str_in_other, setitem_str_in_other, Hc.
  - intros x' [= <-] _. exists labels. split; [exact Hlabels |]. split.
    + rewrite cells_setitem_other by (discriminate || assumption).
      apply cells_setitem_same, Hl3.
    + rewrite cells_setitem_same by assumption. apply map_map.
Qed.

Lemma export_time_step st e d1 selected ts t0 :
  st !! e = Some d1 ->
  (str_in "timestamp" selected = true ->
   str_in "timestamp" (columns d1) = true /\ map row_time (rows d1) = map Some ts) ->
  length (rows d1) = length ts ->
  head ts = Some t0 ->
  exists d2,
    (if str_in "timestamp" selected then add_time_elapsed e else ret tt) st
    = (Ok tt, <[e := d2]> st)
    /\ length (rows d2) = length (rows d1)
    /\ (forall c, c <> "time_elapsed_seconds" -> c <> "time_elapsed_minutes" ->
          map (cell c) (rows d2) = map (cell c) (rows d1))
    /\ (str_in "timestamp" selected = true ->
          map (cell "time_elapsed_seconds") (rows d2)
          = map (fun t => VFloat (PyFloat.of_int (t - t0))) ts
          /\ map (cell "time_elapsed_minutes") (rows d2)
             = map (fun t => VFloat (PyFloat.of_int (t - t0) ⊘ PyFloat.of_int 60)) ts).
Proof.
  intros He Hsel Hlen H0.
  destruct (str_in "timestamp" selected) eqn:Esel.
  2:{ exists d1. unfold ret. rewrite insert_id by exact He.
      repeat split; auto; discriminate. }
  destruct (Hsel eq_refl) as [Hcol Hts].
  eexists. split; [apply (add_time_elapsed_ok st e d1 ts t0); assumption |].
  assert (Hs : length (map (fun t => VFloat (PyFloat.of_int (t - t0))) ts)
               = length (rows d1)).
  { rewrite length_map. congruence. }
  assert (Hl1 : length (rows (setitem d1 "time_elapsed_seconds"
                   (map (fun t => VFloat (PyFloat.of_int (t - t0))) ts)))
                = length (rows d1)).
  { apply setitem_rows_length, Hs. }
  assert (Hm : length (map (fun t => VFloat (PyFloat.of_int (t - t0) ⊘ PyFloat.of_int 60)) ts)
               = length (rows (setitem d1 "time_elapsed_seconds"
                   (map (fun t => VFloat (PyFloat.of_int (t - t0))) ts)))).
  { rewrite Hl1, length_map. congruence. }
  split; [| split].
  - rewrite setitem_rows_length; assumption.
  - intros c N1 N2.
    rewrite cells_setitem_other by assumption.
    apply cells_setitem_other; assumption.
  - intros _. split.
    + rewrite cells_setitem_other by (discriminate || assumption).
      apply cells_setitem_same, Hs.
    + apply cells_setitem_same, Hm.
Qed.

(** X9. On a non-empty normalized session the export runs to
    completion for every selection of existing columns (the classifier
    needs the key [Z5] in the zone dictionary): it returns a new table of
    the session's length; when a threshold is given and [heart_rate] is
    selected, its [hr_zone] column holds the classifier's label of each
    heart-rate cell and its [lthr] column the threshold; when
    [timestamp] is selected, [time_elapsed_seconds] holds the seconds
    since the first row and [time_elapsed_minutes] that number over
    60. *)
Theorem export_succeeds_on_normalized_session
    (st : store) (df : loc) (session : DataFrame)
    (selected_fields : list string) (zones : dict zone_info) (lthr : option float) :
  st !! df = Some session ->
  normalized session = true ->
  len session <> 0%nat ->
  forallb (fun c => str_in c (columns session)) selected_fields = true ->
  dict_in "Z5" zones = true ->
  exists export_df exported st',
    build_export df selected_fields zones lthr st = (Ok export_df, st')
    /\ st' !! export_df = Some exported
    /\ len exported = len session
    /\ (forall x, lthr = Some x -> str_in "heart_rate" selected_fields = true ->
          exists labels,
            mapM (classify_zone zones) (map (cell "heart_rate") (rows session))
            = Ok labels
            /\ map (cell "hr_zone") (rows exported) = map VStr labels
            /\ map (cell "lthr") (rows exported)
               = map (fun _ => VFloat x) (rows session))
    /\ (str_in "timestamp" selected_fields = true ->
          exists t0,
            head (times session) = Some t0
            /\ map (cell "time_elapsed_seconds") (rows exported)
               = map (fun t => VFloat (PyFloat.of_int (t - t0))) (times session)
            /\ map (cell "time_elapsed_minutes") (rows exported)
               = map (fun t => VFloat (PyFloat.of_int (t - t0) ⊘ PyFloat.of_int 60))
                     (times session)).
Proof.
  intros Hdf Hnorm Hlen Hsel Hz5.
  destruct (normalized_inv session Hnorm) as (_ & Htime & _ & Hhr & _).
  pose proof (times_total _ Htime) as Hts. fold (times session) in Hts.
  pose proof (times_length _ Htime) as Htl. fold (times session) in Htl.
  assert (H0 : exists t0, head (times session) = Some t0).
  { unfold len in Hlen. destruct (times session) as [| t0 ts]; [| eauto].
    simpl in Htl. lia. }
  destruct H0 as (t0 & H0).
  remember {| columns := selected_fields; index := index session;
              rows := map (fill selected_fields) (rows session) |} as d0 eqn:Ed0.
  remember (fresh (dom st)) as p eqn:Ep.
  remember (<[p := d0]> st) as st1 eqn:Est1.
  remember (fresh (dom st1)) as e eqn:Ee.
  remember (<[e := d0]> st1) as st2 eqn:Est2.
  assert (Hpick : getitem_columns df selected_fields st = (Ok p, st1)).
  { unfold getitem_columns, bind, load, alloc, lift. rewrite Hdf. cbv beta iota.
    rewrite Hsel. subst. reflexivity. }
  assert (Hcopy : copy p st1 = (Ok e, st2)).
  { unfold copy, bind, load, alloc. rewrite Est1 at 1. rewrite lookup_insert_eq.
    subst. reflexivity. }
  assert (He2 : st2 !! e = Some d0) by (rewrite Est2; apply lookup_insert_eq).
  destruct (export_hr_step st2 e d0 session selected_fields zones lthr He2)
    as (d1 & Hstep1 & Hl1 & Hkeep1 & Hcols1 & Hcontent1);
    try (subst d0; reflexivity); try assumption.
  remember (<[e := d1]> st2) as st3 eqn:Est3.
  assert (He3 : st3 !! e = Some d1) by (rewrite Est3; apply lookup_insert_eq).
  destruct (export_time_step st3 e d1 selected_fields (times session) t0 He3)
    as (d2 & Hstep2 & Hl2 & Hkeep2 & Hcontent2).
  { intros Esel. split.
    - apply Hcols1. subst d0. exact Esel.
    - rewrite <- Hts. apply map_row_time_cells.
      rewrite Hkeep1 by discriminate. subst d0. simpl. apply cells_fill, Esel. }
  { unfold len in *. congruence. }
  { exact H0. }
  exists e, d2, (<[e := d2]> st3).
  split.
  { unfold build_export, bind. rewrite Hpick. cbv beta iota. rewrite Hcopy.
    cbv beta iota. rewrite Hstep1. cbv beta iota.
    rewrite Hstep2. reflexivity. }
  split; [apply lookup_insert_eq |].
  split; [unfold len; congruence |].
  split.
  - intros x Hx Esel. destruct (Hcontent1 x Hx Esel) as (labels & Hlab & Hz & Hl).
    exists labels. split; [exact Hlab |].
    rewrite !Hkeep2 by discriminate. auto.
  - intros Esel. exists t0. split; [exact H0 |]. apply Hcontent2, Esel.
Qed.

Lemma export_succeeds_on_normalized_session_witness :
  exists export_df exported st',
    build_export 1%positive ["timestamp"; "heart_rate"] zones_150
      (Some (PyFloat.of_int 150)) {[ 1%positive := ten_minute_session ]}
    = (Ok export_df, st')
    /\ st' !! export_df = Some exported
    /\ len exported = len ten_minute_session.
Proof.
  destruct (export_succeeds_on_normalized_session
              {[ 1%positive := ten_minute_session ]} 1%positive ten_minute_session
              ["timestamp"; "heart_rate"] zones_150 (Some (PyFloat.of_int 150)))
    as (e & d & st' & H1 & H2 & H3 & _).
  - apply lookup_singleton_eq.
  - reflexivity.
  - discriminate.
  - reflexivity.
  - reflexivity.
  - exists e, d, st'. auto.
Defined.

(** ** Further properties: the field selection of the export tab *)

Lemma str_in_cons k a l : str_in k (a :: l) = String.eqb k a || str_in k l.
Proof. reflexivity. Qed.

Lemma field_key_inj a b : field_key a = field_key b -> a = b.
Proof.
  cbv beta iota delta [field_key String.append]. intros [= ->]. reflexivity.
Qed.

Lemma field_key_not_flag f : field_key f <> "export_initialized".
Proof. cbv beta iota delta [field_key String.append]. discriminate. Qed.

Lemma set_fields_lookup value available ss f :
  set_fields value available ss !! field_key f
  = if str_in f available then Some (value f) else ss !! field_key f.
Proof.
  unfold set_fields. revert ss.
  induction available as [| a available IH]; intros ss; [reflexivity |].
  simpl fold_left. rewrite IH, str_in_cons.
  destruct (String.eqb_spec f a) as [-> | N]; simpl.
  - rewrite lookup_insert_eq. destruct (str_in a available); reflexivity.
  - rewrite lookup_insert_ne; [reflexivity |].
    intros E. apply field_key_inj in E. congruence.
Qed.

Lemma set_fields_lookup_other value available ss k :
  (forall f, In f available -> k <> field_key f) ->
  set_fields value available ss !! k = ss !! k.
Proof.
  unfold set_fields. revert ss.
  induction available as [| a available IH]; intros ss Hk; [reflexivity |].
  simpl fold_left. rewrite IH by (intros f Hf; apply Hk; right; exact Hf).
  apply lookup_insert_ne. intros E. apply (Hk a); [left; reflexivity | congruence].
Qed.

Lemma selected_after_set_fields value available ss :
  selected_fields available (set_fields value available ss)
  = List.filter value available.
Proof.
  unfold selected_fields. apply filter_ext_in. intros f Hf.
  rewrite set_fields_lookup.
  apply str_in_In in Hf. rewrite Hf. reflexivity.
Qed.

Lemma selected_fields_flag available ss b :
  selected_fields available (<["export_initialized" := b]> ss)
  = selected_fields available ss.
Proof.
  unfold selected_fields. apply filter_ext. intros f.
  rewrite lookup_insert_ne; [reflexivity |].
  intros E. symmetry in E. exact (field_key_not_flag f E).
Qed.

Lemma set_fields_flag value available ss :
  set_fields value available ss !! "export_initialized" = ss !! "export_initialized".
Proof.
  apply set_fields_lookup_other. intros f _ E. symmetry in E.
  exact (field_key_not_flag f E).
Qed.

Lemma filter_const_true {A} (l : list A) : List.filter (fun _ => true) l = l.
Proof. induction l as [| x l IH]; simpl; [| rewrite IH]; reflexivity. Qed.

Lemma filter_const_false {A} (l : list A) : List.filter (fun _ => false) l = [].
Proof. induction l as [| x l IH]; simpl; [| rewrite IH]; reflexivity. Qed.

Lemma filter_sublist {A} (p : A -> bool) l : sublist (List.filter p l) l.
Proof.
  induction l as [| x l IH]; simpl; [constructor |].
  destruct (p x); [apply sublist_skip | apply sublist_cons]; exact IH.
Qed.

(** X10. The selection handed to the export follows the buttons. On
    the first run (no [export_initialized] flag) it is the available
    core fields whatever was clicked, and the flag is set. On a later
    run [Select Core Only] gives the available core fields, otherwise
    [Select None] gives the empty selection, otherwise [Select All]
    gives every available field, and with no button clicked the state is
    left as it is. The selection always lists available fields only, in
    the order of the table's columns, and a run changes no entry other
    than the flag and the keys [field_<name>] of the available fields. *)
Theorem selection_follows_buttons (available_fields : list string)
    (select_all select_none select_core : bool) (ss : session_state) :
  let ss' := export_tab_run available_fields select_all select_none select_core ss in
  (ss !! "export_initialized" = None ->
     selected_fields available_fields ss' = List.filter is_core available_fields
     /\ ss' !! "export_initialized" = Some true)
  /\ (ss !! "export_initialized" <> None ->
        (select_core = true ->
           selected_fields available_fields ss' = List.filter is_core available_fields)
        /\ (select_core = false -> select_none = true ->
              selected_fields available_fields ss' = [])
        /\ (select_core = false -> select_none = false -> select_all = true ->
              selected_fields available_fields ss' = available_fields)
        /\ (select_core = false -> select_none = false -> select_all = false ->
              ss' = ss))
  /\ forallb (fun c => str_in c available_fields) (selected_fields available_fields ss')
     = true
  /\ sublist (selected_fields available_fields ss') available_fields
  /\ (forall k, k <> "export_initialized" ->
        (forall f, In f available_fields -> k <> field_key f) ->
        ss' !! k = ss !! k).
Proof.
  intros ss'.
  split; [| split; [| split; [| split]]].
  - intros Hnone. subst ss'. unfold export_tab_run.
    destruct select_all, select_none, select_core; cbv zeta;
      rewrite ?set_fields_flag, Hnone, selected_fields_flag,
        selected_after_set_fields, lookup_insert_eq;
      split; reflexivity.
  - intros Hinit. subst ss'. unfold export_tab_run.
    destruct (ss !! "export_initialized") as [b |] eqn:E; [| contradiction].
    destruct select_all, select_none, select_core; cbv zeta;
      rewrite ?set_fields_flag, E; repeat split; intros; try discriminate;
      rewrite ?selected_after_set_fields, ?filter_const_false, ?filter_const_true;
      reflexivity.
  - apply forallb_forall. intros c Hc. apply filter_In in Hc as [Hc _].
    apply str_in_In, Hc.
  - apply filter_sublist.
  - intros k Hk Hf. subst ss'. unfold export_tab_run.
    destruct select_all, select_none, select_core; cbv zeta;
      rewrite ?set_fields_flag;
      destruct (ss !! "export_initialized");
      rewrite ?lookup_insert_ne by congruence;
      rewrite ?set_fields_lookup_other by exact Hf; reflexivity.
Qed.

Lemma filter_flat_map {A B} (p : B -> bool) (f : A -> list B) l :
  flat_map (fun x => List.filter p (f x)) l = List.filter p (flat_map f l).
Proof.
  induction l as [| x l IH]; simpl; [reflexivity |].
  rewrite IH. symmetry. apply List.filter_app.
Qed.

Lemma filter_NoDup {A} (p : A -> bool) l : NoDup l -> NoDup (List.filter p l).
Proof.
  induction 1 as [| x l Hx Hl IH]; simpl; [constructor |].
  destruct (p x); [| exact IH]. constructor; [| exact IH].
  intros Hin. apply Hx. apply list_elem_of_In. apply list_elem_of_In in Hin.
  apply filter_In in Hin. tauto.
Qed.

Lemma categorized_NoDup :
  NoDup (flat_map (fun kc : string * category => fields (snd kc)) field_categories).
Proof. apply (bool_decide_unpack _). vm_compute. reflexivity. Qed.

Lemma categorized_In f :
  In f (flat_map (fun kc : string * category => fields (snd kc)) field_categories)
  <-> existsb (fun kc : string * category => str_in f (fields (snd kc))) field_categories
      = true.
Proof.
  rewrite in_flat_map, existsb_exists.
  split; intros (kc & Hkc & H); exists kc; (split; [exact Hkc |]); apply str_in_In, H.
Qed.

(** X11. When the available fields are distinct (as the columns of a
    parsed table are), the export tab creates exactly one check box per
    available field: the fields listed category by category followed by
    the uncategorized ones are a rearrangement of the available fields,
    so no widget key [field_<name>] is used twice and no field is left
    without a box. *)
Theorem every_available_field_has_one_checkbox (available_fields : list string) :
  NoDup available_fields ->
  Permutation (checkbox_fields available_fields) available_fields
  /\ NoDup (map field_key (checkbox_fields available_fields)).
Proof.
  intros Hnd.
  assert (Hboxes : NoDup (checkbox_fields available_fields)).
  { unfold checkbox_fields, available_category_fields, uncategorized_fields.
    rewrite (filter_flat_map (fun f => str_in f available_fields)
               (fun kc : string * category => fields (snd kc))).
    apply NoDup_app. split; [apply filter_NoDup, categorized_NoDup |]. split.
    - intros f H1 H2. apply list_elem_of_In in H1, H2.
      apply filter_In in H1 as [H1 _]. apply filter_In in H2 as [_ H2].
      apply categorized_In in H1. rewrite H1 in H2. discriminate.
    - apply filter_NoDup, Hnd. }
  split.
  - apply NoDup_Permutation; [exact Hboxes | exact Hnd |].
    intros f. rewrite !list_elem_of_In. unfold checkbox_fields, available_category_fields, uncategorized_fields.
    rewrite (filter_flat_map (fun f => str_in f available_fields)
               (fun kc : string * category => fields (snd kc))).
    rewrite in_app_iff, !filter_In, categorized_In, str_in_In, negb_true_iff.
    destruct (existsb _ field_categories); intuition congruence.
  - apply NoDup_fmap_2; [| exact Hboxes]. intros a b. apply field_key_inj.
Qed.

Lemma every_available_field_has_one_checkbox_witness :
  Permutation (checkbox_fields ["timestamp"; "enhanced_speed"; "heart_rate"])
              ["timestamp"; "enhanced_speed"; "heart_rate"]
  /\ checkbox_fields ["timestamp"; "enhanced_speed"; "heart_rate"]
     = ["timestamp"; "heart_rate"; "enhanced_speed"].
Proof.
  split; [| reflexivity].
  apply (every_available_field_has_one_checkbox
           ["timestamp"; "enhanced_speed"; "heart_rate"]).
  apply (bool_decide_unpack _). vm_compute. reflexivity.
Defined.

(** ** Further properties: the race dashboard *)

Lemma string_app_nil_r (s : string) : (s ++ "")%string = s.
Proof.
  induction s as [| c s IH]; [reflexivity |].
  change (String c s ++ "")%string with (String c (s ++ "")). rewrite IH. reflexivity.
Qed.

Lemma prefix_app a b : String.prefix a (a ++ b)%string = true.
Proof.
  induction a as [| c a IH]; simpl; [destruct b; reflexivity |].
  destruct (ascii_dec c c); [exact IH | contradiction].
Qed.

Lemma prefix_inv a s :
  String.prefix a s = true -> exists post, s = (a ++ post)%string.
Proof.
  revert s. induction a as [| c a IH]; intros s H.
  - exists s. reflexivity.
  - destruct s as [| c' s]; simpl in H; [discriminate |].
    destruct (ascii_dec c c') as [<- |]; [| discriminate].
    destruct (IH s H) as (post & ->). exists post. reflexivity.
Qed.

Lemma contains_nil needle : contains needle "" = String.prefix needle "" || false.
Proof. reflexivity. Qed.

Lemma contains_cons needle c rest :
  contains needle (String c rest)
  = String.prefix needle (String c rest) || contains needle rest.
Proof. reflexivity. Qed.

Lemma contains_iff needle haystack :
  contains needle haystack = true
  <-> exists pre post, haystack = (pre ++ needle ++ post)%string.
Proof.
  split.
  - induction haystack as [| c rest IH].
    + rewrite contains_nil, orb_true_iff. intros [H | H]; [| discriminate].
      apply prefix_inv in H as (post & H). exists "", post. exact H.
    + rewrite contains_cons, orb_true_iff. intros [H | H].
      * apply prefix_inv in H as (post & H). exists "", post. exact H.
      * destruct (IH H) as (pre & post & ->). exists (String c pre), post. reflexivity.
  - intros (pre & post & ->). induction pre as [| c pre IH].
    + change ("" ++ needle ++ post)%string with (needle ++ post)%string.
      destruct (needle ++ post)%string as [| c rest] eqn:E.
      * rewrite contains_nil, <- E, prefix_app. reflexivity.
      * rewrite contains_cons, <- E, prefix_app. reflexivity.
    + change (String c pre ++ needle ++ post)%string
        with (String c (pre ++ needle ++ post)).
      rewrite contains_cons, IH. apply orb_true_r.
Qed.

Lemma truthy_iff s : truthy (Some s) = true <-> s <> "".
Proof. destruct s; simpl; split; congruence. Qed.

(** X12. The table and the plot highlight by different tests: with a
    non-empty search text, a table row is highlighted when the trimmed,
    lower-cased search text occurs anywhere in the trimmed, lower-cased
    name, while the plot marks a point only when the two are equal. So
    every row whose point is the red star is highlighted in the table, a
    search text of white space alone highlights every table row, and a
    row can be highlighted in the table while its point keeps the podium
    or default marker ([ali] against [Alice]). *)
Theorem table_highlight_contains_plot_highlight (search name : string) (position : Z) :
  (row_highlighted search name = true
   <-> search <> ""
       /\ exists pre post,
            lower (strip name) = (pre ++ lower (strip search) ++ post)%string)
  /\ (point_marker (Some search) position name
      = {| color := HIGHLIGHT_COLOR; size := 15; symbol := "star" |}
      -> row_highlighted search name = true)
  /\ (search <> "" -> strip search = "" -> row_highlighted search name = true)
  /\ row_highlighted "ali" "Alice" = true
  /\ point_marker (Some "ali") 4 "Alice"
     = {| color := DEFAULT_COLOR; size := 8; symbol := "circle" |}.
Proof.
  assert (Hiff : row_highlighted search name = true
                 <-> search <> ""
                     /\ exists pre post,
                          lower (strip name)
                          = (pre ++ lower (strip search) ++ post)%string).
  { unfold row_highlighted, highlight_row.
    rewrite andb_true_iff, truthy_iff, contains_iff. reflexivity. }
  split; [exact Hiff |].
  split; [| split; [| split; reflexivity]].
  - unfold point_marker.
    destruct (truthy (Some search) && name_matches name (Some search)) eqn:E.
    + intros _. apply andb_true_iff in E as [Ht E]. simpl in E.
      apply String.eqb_eq in E. apply Hiff. split; [apply truthy_iff, Ht |].
      exists "", "". rewrite E.
      change ("" ++ lower (strip search) ++ "")%string
        with (lower (strip search) ++ "")%string.
      symmetry. apply string_app_nil_r.
    + destruct (podium_cases position) as [[_ H] | [[_ H] | [[_ H] | [_ H]]]];
        rewrite H; discriminate.
  - intros Hne H. apply Hiff. split; [exact Hne |]. rewrite H.
    exists "", (lower (strip name)). reflexivity.
Qed.

Lemma add_key_fold_in k ks cols :
  str_in k (fold_left add_key ks cols) = str_in k cols || str_in k ks.
Proof.
  revert cols. induction ks as [| a ks IH]; intros cols.
  - simpl. rewrite orb_false_r. reflexivity.
  - simpl fold_left. rewrite IH, str_in_cons. unfold add_key.
    destruct (str_in a cols) eqn:Ea.
    + destruct (String.eqb_spec k a) as [-> | N]; [rewrite Ea |]; reflexivity.
    + rewrite str_in_app, (str_in_cons k a []).
      change (str_in k []) with false. rewrite orb_false_r, orb_assoc. reflexivity.
Qed.

Lemma union_columns_in k dfs cols :
  str_in k (fold_left (fun cols df => fold_left add_key (columns df) cols) dfs cols)
  = str_in k cols || existsb (fun df => str_in k (columns df)) dfs.
Proof.
  revert cols. induction dfs as [| df dfs IH]; intros cols.
  - simpl. rewrite orb_false_r. reflexivity.
  - simpl. rewrite IH, add_key_fold_in, orb_assoc. reflexivity.
Qed.

Lemma map_flat_map {A B C} (g : B -> C) (f : A -> list B) l :
  map g (flat_map f l) = flat_map (fun x => map g (f x)) l.
Proof.
  induction l as [| x l IH]; simpl; [reflexivity |].
  rewrite map_app, IH. reflexivity.
Qed.

Lemma flat_map_ext_in {A B} (f g : A -> list B) l :
  (forall x, In x l -> f x = g x) -> flat_map f l = flat_map g l.
Proof.
  induction l as [| x l IH]; intros H; simpl; [reflexivity |].
  rewrite (H x) by (left; reflexivity).
  rewrite IH by (intros y Hy; apply H; right; exact Hy). reflexivity.
Qed.

Lemma length_flat_map {A B} (f : A -> list B) l :
  length (flat_map f l) = fold_right Nat.add 0%nat (map (fun x => length (f x)) l).
Proof.
  induction l as [| x l IH]; simpl; [reflexivity |].
  rewrite length_app, IH. reflexivity.
Qed.

Lemma cells_reindex c cols df :
  (str_in c (columns df) = true -> str_in c cols = true) ->
  map (cell c) (reindex_rows cols df) = column_or_nan c df.
Proof.
  intros H. unfold reindex_rows, column_or_nan. rewrite map_map.
  apply map_ext. intros row. rewrite !cell_fill.
  destruct (str_in c (columns df)); [rewrite H by reflexivity |];
    [reflexivity | destruct (str_in c cols); reflexivity].
Qed.

Lemma column_or_nan_cases c df :
  column_or_nan c df
  = if str_in c (columns df) then map (cell c) (rows df)
    else map (fun _ => VNaN) (rows df).
Proof. unfold column_or_nan. destruct (str_in c (columns df)); reflexivity. Qed.

Lemma column_assign_category cat df :
  column_or_nan "Category" (assign_category cat df)
  = repeat (VStr cat) (len df).
Proof.
  rewrite column_or_nan_cases. unfold assign_category.
  rewrite setitem_str_in, cells_setitem_same by apply length_map.
  unfold len. induction (rows df) as [| row rs IH]; simpl; [| rewrite IH]; reflexivity.
Qed.

Lemma map_const_length {A B C} (v : C) (l : list A) (l' : list B) :
  length l = length l' -> map (fun _ => v) l = map (fun _ => v) l'.
Proof.
  revert l'. induction l as [| x l IH]; intros [| y l'] H; simpl in *;
    try discriminate; [reflexivity |].
  rewrite (IH l') by lia. reflexivity.
Qed.

Lemma column_assign_other c cat df :
  c <> "Category" ->
  column_or_nan c (assign_category cat df) = column_or_nan c df.
Proof.
  intros N. rewrite !column_or_nan_cases. unfold assign_category.
  assert (Hl : length (map (fun _ : dict value => VStr cat) (rows df)) = length (rows df))
    by apply length_map.
  assert (Hc : str_in c (columns (setitem df "Category"
                                    (map (fun _ => VStr cat) (rows df))))
               = str_in c (columns df)).
  { unfold setitem. simpl. destruct (str_in "Category" (columns df)); [reflexivity |].
    rewrite str_in_app, (str_in_cons c "Category" []).
    apply String.eqb_neq in N. rewrite N. apply orb_false_r. }
  rewrite Hc. destruct (str_in c (columns df)).
  - apply cells_setitem_other; assumption.
  - apply map_const_length, setitem_rows_length, Hl.
Qed.

Lemma flat_map_map {A B C} (f : B -> list C) (g : A -> B) l :
  flat_map f (map g l) = flat_map (fun x => f (g x)) l.
Proof. induction l as [| x l IH]; simpl; [| rewrite IH]; reflexivity. Qed.

Lemma len_assign_category cat df : len (assign_category cat df) = len df.
Proof. unfold len, assign_category. apply setitem_rows_length, length_map. Qed.

Lemma concat_cells dfs c :
  dfs <> [] ->
  exists combined,
    concat dfs = Ok combined
    /\ len combined = fold_right Nat.add 0%nat (map len dfs)
    /\ index combined = seq 0 (len combined)
    /\ map (cell c) (rows combined) = flat_map (column_or_nan c) dfs.
Proof.
  intros Hne. unfold concat. destruct dfs as [| df0 dfs0] eqn:E; [contradiction |].
  rewrite <- E. clear E Hne df0 dfs0.
  eexists. split; [reflexivity |]. unfold len. simpl.
  split; [| split; [reflexivity |]].
  - rewrite length_flat_map. f_equal. apply map_ext. intros df.
    unfold reindex_rows. apply length_map.
  - rewrite map_flat_map. apply flat_map_ext_in. intros df Hdf.
    apply cells_reindex. intros Hc. rewrite union_columns_in.
    apply existsb_exists. exists df. auto.
Qed.

(** X13. The combined table stacks the selected categories: when every
    selected category has a table (and at least one is selected), the
    result has as many rows as the tables together, labelled from zero;
    its [Category] column holds for each category in turn, once per row
    of its table, the category's name; every other column holds the
    tables' cells in the same order, with NaN where a table lacks the
    column. *)
Theorem combined_table_stacks_categories
    (tables : dict DataFrame) (selected_categories : list string) :
  selected_categories <> [] ->
  Forall (fun cat => dict_in cat tables = true) selected_categories ->
  exists combined,
    combined_df tables selected_categories = Ok combined
    /\ len combined
       = fold_right Nat.add 0%nat
           (map (fun cat => len (table_of tables cat)) selected_categories)
    /\ index combined = seq 0 (len combined)
    /\ map (cell "Category") (rows combined)
       = flat_map (fun cat => repeat (VStr cat) (len (table_of tables cat)))
                  selected_categories
    /\ forall c, c <> "Category" ->
         map (cell c) (rows combined)
         = flat_map (fun cat => column_or_nan c (table_of tables cat))
                    selected_categories.
Proof.
  intros Hne Hall.
  set (tagged := fun cat => assign_category cat (table_of tables cat)).
  assert (HmapM : mapM (fun cat => let* df := dict_getitem cat tables in
                                   Ok (assign_category cat df))
                       selected_categories
                  = Ok (map tagged selected_categories)).
  { apply mapM_ok_map. eapply List.Forall_impl; [| exact Hall].
    intros cat Hcat. unfold tagged, table_of, dict_getitem, dict_in in *.
    destruct (dict_get cat tables); [reflexivity | discriminate]. }
  assert (Hne' : map tagged selected_categories <> []).
  { destruct selected_categories; [contradiction | discriminate]. }
  destruct (concat_cells (map tagged selected_categories) "Category" Hne')
    as (combined & Hc & Hlen & Hidx & Hcat).
  exists combined. unfold combined_df. rewrite HmapM, rbind_ok.
  split; [exact Hc |]. split; [| split; [exact Hidx | split]].
  - rewrite Hlen, map_map. f_equal. apply map_ext. intros cat.
    apply len_assign_category.
  - rewrite Hcat, flat_map_map. apply flat_map_ext_in. intros cat _.
    apply column_assign_category.
  - intros c N.
    destruct (concat_cells (map tagged selected_categories) c Hne')
      as (combined' & Hc' & _ & _ & Hcells).
    rewrite Hc in Hc'. injection Hc' as <-.
    rewrite Hcells, flat_map_map. apply flat_map_ext_in. intros cat _.
    apply column_assign_other, N.
Qed.

Lemma combined_table_stacks_categories_witness :
  exists combined,
    combined_df [("Junior Women", junior_women); ("Elite Men", elite_men)]
                ["Elite Men"; "Junior Women"] = Ok combined
    /\ len combined = 5%nat
    /\ map (cell "Category") (rows combined)
       = [VStr "Elite Men"; VStr "Elite Men"; VStr "Elite Men";
          VStr "Junior Women"; VStr "Junior Women"].
Proof.
  destruct (combined_table_stacks_categories
              [("Junior Women", junior_women); ("Elite Men", elite_men)]
              ["Elite Men"; "Junior Women"])
    as (combined & H & Hlen & _ & Hcat & _).
  - discriminate.
  - repeat constructor.
  - exists combined. split; [exact H |]. split; [exact Hlen | exact Hcat].
Defined.

Lemma list_ascii_of_string_app (a b : string) :
  list_ascii_of_string (a ++ b) = list_ascii_of_string a ++ list_ascii_of_string b.
Proof.
  induction a as [| c a IH]; [reflexivity |].
  change (String c a ++ b)%string with (String c (a ++ b)).
  simpl. rewrite IH. reflexivity.
Qed.

Lemma parse_decimal_decimal n : parse_decimal (decimal n) = Some (Z.of_N n).
Proof.
  unfold parse_decimal, decimal. rewrite NilZero.usu.
  - simpl. rewrite DecimalN.Unsigned.of_to. reflexivity.
  - destruct n as [| p]; [discriminate |].
    intros H. apply (f_equal N.of_uint) in H.
    rewrite DecimalN.Unsigned.of_to in H. discriminate.
Qed.

Lemma parse_decimal_zero s :
  s <> "" -> parse_decimal (String "0" s) = parse_decimal s.
Proof.
  intros Hs. unfold parse_decimal. destruct s as [| c s]; [contradiction |].
  unfold NilZero.uint_of_string.
  change (NilEmpty.uint_of_string (String "0" (String c s)))
    with (option_map Decimal.D0 (NilEmpty.uint_of_string (String c s))).
  destruct (NilEmpty.uint_of_string (String c s)); reflexivity.
Qed.

Lemma decimal_nonempty n : decimal n <> "".
Proof.
  intros H. pose proof (parse_decimal_decimal n) as P. rewrite H in P. discriminate.
Qed.

Lemma parse_format_02d n : 0 <= n -> parse_decimal (format_02d n) = Some n.
Proof.
  intros Hn. unfold format_02d. destruct n as [| p | p]; try lia.
  - reflexivity.
  - cbv zeta. destruct (String.length _ <? 2)%nat.
    + change ("0" ++ decimal (Z.to_N (Z.pos p)))%string
        with (String "0" (decimal (Z.to_N (Z.pos p)))).
      rewrite parse_decimal_zero by apply decimal_nonempty.
      rewrite parse_decimal_decimal. reflexivity.
    + rewrite parse_decimal_decimal. reflexivity.
Qed.

Lemma below_bound (P : Z -> bool) (bound : nat) :
  forallb (fun i => P (Z.of_nat i)) (seq 0 bound) = true ->
  forall k, 0 <= k < Z.of_nat bound -> P k = true.
Proof.
  intros H k Hk. rewrite forallb_forall in H.
  rewrite <- (Z2Nat.id k) by lia. apply H, in_seq. lia.
Qed.

Lemma format_02d_two_characters k :
  0 <= k < 100 -> exists a b, format_02d k = String a (String b "").
Proof.
  intros Hk.
  pose proof (below_bound
    (fun k => match format_02d k with String _ (String _ "") => true | _ => false end)
    100 ltac:(vm_compute; reflexivity) k Hk) as H.
  simpl in H. destruct (format_02d k) as [| a [| b [| c s]]]; try discriminate.
  eauto.
Qed.

Lemma time_to_seconds_layout (h : string) (a b c d : ascii) :
  time_to_seconds (h ++ ":" ++ String a (String b "") ++ ":" ++ String c (String d ""))
  = match parse_decimal h, parse_decimal (String a (String b "")),
          parse_decimal (String c (String d "")) with
    | Some hours, Some minutes, Some secs => Some (hours * 3600 + minutes * 60 + secs)
    | _, _, _ => None
    end.
Proof.
  unfold time_to_seconds. rewrite list_ascii_of_string_app.
  change (list_ascii_of_string
            (":" ++ String a (String b "") ++ ":" ++ String c (String d "")))
    with ([":"; a; b; ":"; c; d]%char).
  rewrite rev_app_distr.
  change (rev [":"; a; b; ":"; c; d]%char) with ([d; c; ":"; b; a; ":"]%char).
  cbn [app]. change (Ascii.eqb ":" ":") with true. cbn [andb].
  rewrite rev_involutive, string_of_list_ascii_of_string. reflexivity.
Qed.

(** X14. On a whole number of seconds [seconds_to_time] loses nothing:
    for a non-negative number the text is the hours (at least two
    digits), a colon, a two-digit number of minutes, a colon and a
    two-digit number of seconds, and reading it back as
    hours * 3600 + minutes * 60 + seconds returns the number, so
    different numbers give different texts; below 100 hours the text has
    exactly eight characters. A missing value gives [N/A], and a
    negative number a negative hour field next to non-negative minutes
    and seconds ([-1] gives [-1:59:59]). *)
Theorem seconds_to_time_round_trip :
  seconds_to_time None = "N/A"
  /\ (forall n, 0 <= n -> time_to_seconds (seconds_to_time (Some n)) = Some n)
  /\ (forall n m, 0 <= n -> 0 <= m ->
        seconds_to_time (Some n) = seconds_to_time (Some m) -> n = m)
  /\ (forall n, 0 <= n < 360000 -> String.length (seconds_to_time (Some n)) = 8%nat)
  /\ seconds_to_time (Some (-1)) = "-1:59:59".
Proof.
  assert (Hround : forall n, 0 <= n ->
            time_to_seconds (seconds_to_time (Some n)) = Some n).
  { intros n Hn. unfold seconds_to_time. cbv zeta.
    destruct (format_02d_two_characters ((n mod 3600) / 60)) as (a & b & Hm);
      [Z.to_euclidean_division_equations; lia |].
    destruct (format_02d_two_characters (n mod 60)) as (c & d & Hs);
      [Z.to_euclidean_division_equations; lia |].
    rewrite Hm, Hs, time_to_seconds_layout, <- Hm, <- Hs.
    rewrite !parse_format_02d by (Z.to_euclidean_division_equations; lia).
    f_equal. Z.to_euclidean_division_equations. lia. }
  split; [reflexivity |]. split; [exact Hround |].
  split; [| split; [| reflexivity]].
  - intros n m Hn Hm E. apply (f_equal time_to_seconds) in E.
    rewrite !Hround in E by assumption. congruence.
  - intros n Hn. unfold seconds_to_time. cbv zeta.
    destruct (format_02d_two_characters (n / 3600)) as (h1 & h0 & Hh);
      [Z.to_euclidean_division_equations; lia |].
    destruct (format_02d_two_characters ((n mod 3600) / 60)) as (a & b & Hm);
      [Z.to_euclidean_division_equations; lia |].
    destruct (format_02d_two_characters (n mod 60)) as (c & d & Hs);
      [Z.to_euclidean_division_equations; lia |].
    rewrite Hh, Hm, Hs. reflexivity.
Qed.

(** ** Further properties: no overflow between the estimator and the bands *)

Lemma digits2_pos_spec p :
  2 ^ (Zpos (digits2_pos p) - 1) <= Zpos p < 2 ^ Zpos (digits2_pos p).
Proof.
  induction p as [p IH | p IH |]; simpl digits2_pos.
  - rewrite Pos2Z.inj_succ.
    replace (Z.succ (Zpos (digits2_pos p)) - 1) with (Z.succ (Zpos (digits2_pos p) - 1))
      by lia.
    rewrite !Z.pow_succ_r by lia. lia.
  - rewrite Pos2Z.inj_succ.
    replace (Z.succ (Zpos (digits2_pos p)) - 1) with (Z.succ (Zpos (digits2_pos p) - 1))
      by lia.
    rewrite !Z.pow_succ_r by lia. lia.
  - simpl. lia.
Qed.

Lemma Zdigits2_bound a k : 0 <= k -> 0 <= a < 2 ^ k -> Zdigits2 a <= k.
Proof.
  intros Hk [H0 Ha]. destruct a as [| p | p]; simpl; try lia.
  apply digits2_pos_bound; assumption.
Qed.

Lemma shr_1_bound r j :
  0 <= j -> 0 <= shr_m r < 2 ^ j ->
  0 <= shr_m (shr_1 r) < 2 ^ Z.max 0 (j - 1).
Proof.
  intros Hj [H0 Hm]. destruct r as [m rb sb]. simpl in *.
  destruct (Z.eq_dec j 0) as [-> | Hj0].
  { assert (m = 0) by (simpl in Hm; lia). subst m. simpl. lia. }
  replace (Z.max 0 (j - 1)) with (j - 1) by lia.
  replace j with (Z.succ (j - 1)) in Hm by lia.
  rewrite Z.pow_succ_r in Hm by lia.
  assert (0 < 2 ^ (j - 1)) by (apply Z.pow_pos_nonneg; lia).
  destruct m as [| [p | p |] | p]; simpl; lia.
Qed.

Lemma shr_iter_bound p : forall r j,
  0 <= j -> 0 <= shr_m r < 2 ^ j ->
  0 <= shr_m (SpecFloat.iter_pos shr_1 p r) < 2 ^ Z.max 0 (j - Zpos p).
Proof.
  induction p as [p IH | p IH |]; intros r j Hj Hr; simpl SpecFloat.iter_pos.
  - pose proof (shr_1_bound r j Hj Hr) as H1.
    pose proof (IH _ (Z.max 0 (j - 1)) ltac:(lia) H1) as H2.
    pose proof (IH _ (Z.max 0 (Z.max 0 (j - 1) - Zpos p)) ltac:(lia) H2) as H3.
    replace (Z.max 0 (j - Zpos p~1))
      with (Z.max 0 (Z.max 0 (Z.max 0 (j - 1) - Zpos p) - Zpos p)) by lia.
    exact H3.
  - pose proof (IH r j Hj Hr) as H1.
    pose proof (IH _ (Z.max 0 (j - Zpos p)) ltac:(lia) H1) as H2.
    replace (Z.max 0 (j - Zpos p~0))
      with (Z.max 0 (Z.max 0 (j - Zpos p) - Zpos p)) by lia.
    exact H2.
  - apply shr_1_bound; assumption.
Qed.

Lemma shr_m_of_loc m l : shr_m (shr_record_of_loc m l) = m.
Proof. destruct l as [| []]; reflexivity. Qed.

Lemma shr_fexp_bound m e l g :
  (exists j, 0 <= j /\ 0 <= m < 2 ^ j /\ j + e <= g) -> -1074 <= g ->
  exists j', 0 <= j'
    /\ 0 <= shr_m (fst (shr_fexp PyFloat.prec PyFloat.emax m e l)) < 2 ^ j'
    /\ j' + snd (shr_fexp PyFloat.prec PyFloat.emax m e l) <= g.
Proof.
  intros (j & Hj & Hm & Hg) Hlow.
  pose proof (Zdigits2_bound m j Hj Hm) as Hd.
  assert (0 <= Zdigits2 m) by (destruct m; simpl; lia).
  unfold shr_fexp, shr, fexp, emin, PyFloat.prec, PyFloat.emax.
  destruct (Z.max (Zdigits2 m + e - 53) (3 - 1024 - 53) - e) as [| p | p] eqn:En.
  - exists j. simpl. rewrite shr_m_of_loc. auto.
  - exists (Z.max 0 (j - Zpos p)). simpl. split; [lia |]. split.
    + apply shr_iter_bound; [exact Hj | rewrite shr_m_of_loc; exact Hm].
    + lia.
  - exists j. simpl. rewrite shr_m_of_loc. auto.
Qed.

Lemma round_nearest_even_le m l : round_nearest_even m l <= m + 1.
Proof.
  destruct l as [| []]; simpl; try lia. destruct (Z.even m); lia.
Qed.

Lemma binary_round_aux_bounded s m e l g :
  (exists j, 0 <= j /\ 0 <= m < 2 ^ j /\ j + e <= g) ->
  -1074 <= g <= 970 ->
  bounded (binary_round_aux PyFloat.prec PyFloat.emax s m e l) (g + 1).
Proof.
  intros Hm Hg. unfold binary_round_aux.
  destruct (shr_fexp_bound m e l g Hm ltac:(lia)) as (j1 & Hj1 & Hm1 & Hg1).
  destruct (shr_fexp PyFloat.prec PyFloat.emax m e l) as [mrs' e'].
  simpl in Hm1, Hg1.
  pose proof (round_nearest_even_le (shr_m mrs') (loc_of_shr_record mrs')) as Hr.
  pose proof (round_nearest_even_nonneg (shr_m mrs') (loc_of_shr_record mrs')
                ltac:(lia)) as Hr0.
  remember (round_nearest_even (shr_m mrs') (loc_of_shr_record mrs')) as m2.
  assert (Hm2 : exists j, 0 <= j /\ 0 <= m2 < 2 ^ j /\ j + e' <= g + 1).
  { exists (j1 + 1). rewrite Z.pow_add_r by lia. simpl (2 ^ 1). lia. }
  destruct (shr_fexp_bound m2 e' loc_Exact (g + 1) Hm2 ltac:(lia))
    as (j2 & Hj2 & Hm3 & Hg2).
  destruct (shr_fexp PyFloat.prec PyFloat.emax m2 e' loc_Exact) as [mrs'' e''].
  simpl in Hm3, Hg2.
  destruct (shr_m mrs'') as [| p | p] eqn:E3; simpl; [exact I | | lia].
  unfold PyFloat.emax, PyFloat.prec.
  destruct (Z.leb_spec e'' (1024 - 53)); [| lia].
  simpl. pose proof (digits2_pos_bound p j2 Hj2 ltac:(lia)). lia.
Qed.

Lemma bounded_finite x k : bounded x k -> PyFloat.is_finite x = true.
Proof. destruct x; simpl; tauto. Qed.

Lemma bounded_le x k k' : bounded x k -> k <= k' -> bounded x k'.
Proof. destruct x; simpl; try tauto. lia. Qed.

Lemma mul_bounded x y a b :
  bounded x a -> bounded y b -> -1074 <= a + b <= 970 ->
  bounded (x ⊛ y) (a + b + 1).
Proof.
  intros Hx Hy Hab.
  destruct x as [sx | sx | | sx mx ex], y as [sy | sy | | sy my ey];
    simpl in Hx, Hy; try contradiction; try exact I.
  unfold PyFloat.mul, SFmul. apply binary_round_aux_bounded; [| exact Hab].
  exists (Zpos (digits2_pos mx) + Zpos (digits2_pos my)).
  pose proof (digits2_pos_spec mx). pose proof (digits2_pos_spec my).
  split; [lia |]. split; [| lia].
  rewrite Pos2Z.inj_mul, Z.pow_add_r by lia. split; [lia |].
  apply Z.mul_lt_mono_nonneg; lia.
Qed.

Lemma div_bounded x sy my ey a b :
  bounded x a -> b <= Zpos (digits2_pos my) + ey -> -1074 <= a - b + 1 <= 970 ->
  bounded (x ⊘ S754_finite sy my ey) (a - b + 2).
Proof.
  intros Hx Hy Hab.
  destruct x as [sx | sx | | sx mx ex]; simpl in Hx; try contradiction; try exact I.
  unfold PyFloat.div, SFdiv.
  destruct (SFdiv_core_binary _ _ _ _ _ _) as [[mz ez] lz] eqn:E.
  replace (a - b + 2) with (a - b + 1 + 1) by lia.
  apply binary_round_aux_bounded; [| exact Hab].
  unfold SFdiv_core_binary in E. simpl Zdigits2 in E.
  pose proof (digits2_pos_spec mx) as Hmx. pose proof (digits2_pos_spec my) as Hmy.
  set (d1 := Zpos (digits2_pos mx)) in *. set (d2 := Zpos (digits2_pos my)) in *.
  unfold fexp, emin, PyFloat.prec, PyFloat.emax in E.
  set (e' := Z.min (Z.max (d1 + ex - (d2 + ey) - 53) (3 - 1024 - 53)) (ex - ey)) in *.
  assert (Hs : 0 <= ex - ey - e') by lia.
  set (s := ex - ey - e') in *.
  assert (Hm' : match s with
                | 0 => Zpos mx
                | Zpos _ => Z.shiftl (Zpos mx) s
                | Zneg _ => 0
                end = Zpos mx * 2 ^ s).
  { destruct s as [| p | p] eqn:Es; [simpl; lia | | lia].
    rewrite Z.shiftl_mul_pow2 by lia. reflexivity. }
  rewrite Hm' in E.
  assert (Hq : fst (Z.div_eucl (Zpos mx * 2 ^ s) (Zpos my))
               = Zpos mx * 2 ^ s / Zpos my) by reflexivity.
  destruct (Z.div_eucl (Zpos mx * 2 ^ s) (Zpos my)) as [q r].
  injection E as <- <- _. simpl in Hq. subst q.
  assert (H2s : 0 < 2 ^ s) by (apply Z.pow_pos_nonneg; lia).
  assert (Hq0 : 0 <= Zpos mx * 2 ^ s / Zpos my) by (apply Z.div_pos; lia).
  assert (Hd1 : 0 < d1) by (unfold d1; lia).
  assert (Hd2 : 0 < d2) by (unfold d2; lia).
  exists (Z.max 0 (d1 + s - d2 + 1)). split; [lia |]. split; [| lia].
  split; [exact Hq0 |].
  apply Z.div_lt_upper_bound; [lia |].
  assert (Hnum : Zpos mx * 2 ^ s < 2 ^ (d1 + s)).
  { rewrite Z.pow_add_r by lia. apply Z.mul_lt_mono_pos_r; lia. }
  assert (Hden : 2 ^ (d1 + s) <= Zpos my * 2 ^ Z.max 0 (d1 + s - d2 + 1)).
  { destruct (Z.le_gt_cases 0 (d1 + s - d2 + 1)) as [Hk | Hk].
    - replace (Z.max 0 (d1 + s - d2 + 1)) with (d1 + s - d2 + 1) by lia.
      replace (d1 + s) with ((d2 - 1) + (d1 + s - d2 + 1)) at 1 by lia.
      rewrite Z.pow_add_r by lia.
      apply Z.mul_le_mono_nonneg_r; [apply Z.pow_nonneg; lia | lia].
    - replace (Z.max 0 (d1 + s - d2 + 1)) with 0 by lia.
      rewrite Z.pow_0_r, Z.mul_1_r.
      apply Z.le_trans with (2 ^ (d2 - 1)); [| lia].
      apply Z.pow_le_mono_r; lia. }
  lia.
Qed.

Lemma of_int_magnitude n :
  0 < n < 2 ^ 53 ->
  exists m e, PyFloat.of_int n = S754_finite false m e
              /\ Zpos (digits2_pos m) + e = Zdigits2 n.
Proof.
  intros [Hpos Hlt]. destruct n as [| p | p]; try lia.
  pose proof (digits2_pos_bound p 53 ltac:(lia) Hlt) as Hd.
  assert (0 < Zpos (digits2_pos p)) by lia.
  unfold PyFloat.of_int, binary_normalize, binary_round.
  unfold fexp, emin, PyFloat.prec, PyFloat.emax.
  replace (Z.max (Zpos (digits2_pos p) + 0 - 53) (3 - 1024 - 53))
    with (Zpos (digits2_pos p) - 53) by lia.
  unfold shl_align.
  destruct (Zpos (digits2_pos p) - 53 - 0) as [| q | q] eqn:E; try lia.
  - eexists _, _. split; [apply binary_round_aux_exact; lia |]. simpl. lia.
  - eexists _, _. split.
    + apply binary_round_aux_exact; [| lia]. rewrite digits2_pos_iter. lia.
    + rewrite digits2_pos_iter. simpl Zdigits2. lia.
Qed.

(** ** Further properties: the bands of a non-negative threshold *)

Lemma shr_1_div r : 0 <= shr_m r -> shr_m (shr_1 r) = shr_m r / 2.
Proof.
  destruct r as [m rb sb]. simpl. intros Hm.
  destruct m as [| [p | p |] | p]; simpl; try lia; try reflexivity.
  - apply Z.div_unique with 1; lia.
  - apply Z.div_unique with 0; lia.
Qed.

Lemma shr_iter_div p : forall r,
  0 <= shr_m r -> shr_m (SpecFloat.iter_pos shr_1 p r) = shr_m r / 2 ^ Zpos p.
Proof.
  assert (Hnn : forall q r, 0 <= shr_m r -> 0 <= shr_m (SpecFloat.iter_pos shr_1 q r)).
  { intros q r Hr.
    apply (iter_pos_inv (fun r => 0 <= shr_m r)); auto using shr_1_nonneg. }
  induction p as [p IH | p IH |]; intros r Hr; simpl SpecFloat.iter_pos.
  - rewrite IH by (apply Hnn, shr_1_nonneg, Hr).
    rewrite IH by (apply shr_1_nonneg, Hr).
    rewrite shr_1_div by exact Hr.
    rewrite !Z.div_div
      by (first [lia | apply Z.pow_nonzero; lia | apply Z.pow_pos_nonneg; lia]).
    f_equal. rewrite <- Z.pow_add_r by lia.
    change 2 with (2 ^ 1) at 1. rewrite <- Z.pow_add_r by lia. f_equal. lia.
  - rewrite IH by (apply Hnn, Hr). rewrite IH by exact Hr.
    rewrite Z.div_div
      by (first [lia | apply Z.pow_nonzero; lia | apply Z.pow_pos_nonneg; lia]).
    f_equal. rewrite <- Z.pow_add_r by lia. f_equal. lia.
  - rewrite shr_1_div by exact Hr. reflexivity.
Qed.

Lemma round_nearest_even_ge m l : m <= round_nearest_even m l.
Proof.
  destruct l as [| []]; simpl; try lia. destruct (Z.even m); lia.
Qed.

Lemma Zdigits2_unique a k :
  1 <= k -> 2 ^ (k - 1) <= a < 2 ^ k -> Zdigits2 a = k.
Proof.
  intros Hk [Hlo Hhi].
  assert (0 < 2 ^ (k - 1)) by (apply Z.pow_pos_nonneg; lia).
  destruct a as [| p | p]; try lia. simpl.
  pose proof (digits2_pos_spec p) as [Hp1 Hp2].
  assert (Zpos (digits2_pos p) - 1 < k).
  { apply (Z.pow_lt_mono_r_iff 2); lia. }
  assert (k - 1 < Zpos (digits2_pos p)).
  { apply (Z.pow_lt_mono_r_iff 2); lia. }
  lia.
Qed.

Lemma to_int_scaled m e t q :
  t <= e -> Zpos m * 2 ^ (e - t) = q ->
  PyFloat.to_int (S754_finite false m e) = Ok (floor_scaled q t).
Proof.
  intros Hte <-. rewrite to_int_truncates. f_equal. unfold floor_scaled.
  cbn [cond_Zopp].
  rewrite Z.quot_div_nonneg
    by (first [apply Z.pow_pos_nonneg; lia
              | apply Z.mul_nonneg_nonneg; [lia | apply Z.pow_nonneg; lia]]).
  destruct (Z.leb_spec 0 t) as [Ht | Ht].
  - replace (Z.max e 0) with e by lia. replace (Z.max (- e) 0) with 0 by lia.
    rewrite Z.pow_0_r, Z.div_1_r, <- Z.mul_assoc, <- Z.pow_add_r by lia.
    f_equal. f_equal. lia.
  - destruct (Z.le_gt_cases 0 e) as [He | He].
    + replace (Z.max e 0) with e by lia. replace (Z.max (- e) 0) with 0 by lia.
      rewrite Z.pow_0_r, Z.div_1_r.
      replace (e - t) with (e + - t) by lia.
      rewrite Z.pow_add_r, Z.mul_assoc by lia.
      rewrite Z.div_mul by (apply Z.pow_nonzero; lia). reflexivity.
    + replace (Z.max e 0) with 0 by lia. replace (Z.max (- e) 0) with (- e) by lia.
      rewrite Z.pow_0_r, Z.mul_1_r.
      replace (- t) with ((e - t) + - e) by lia.
      rewrite Z.pow_add_r by lia.
      rewrite (Z.mul_comm (Zpos m)).
      rewrite Z.div_mul_cancel_l; try (apply Z.pow_nonzero; lia). reflexivity.
Qed.

Lemma shr_fexp_first M E :
  53 <= Zpos (digits2_pos M) -> -1074 <= E + Zpos (digits2_pos M) - 53 ->
  exists mrs',
    shr_fexp PyFloat.prec PyFloat.emax (Zpos M) E loc_Exact
    = (mrs', E + Zpos (digits2_pos M) - 53)
    /\ shr_m mrs' = Zpos M / 2 ^ (Zpos (digits2_pos M) - 53).
Proof.
  intros Hd Ht. unfold shr_fexp, fexp, emin, PyFloat.prec, PyFloat.emax.
  simpl Zdigits2.
  replace (Z.max (Zpos (digits2_pos M) + E - 53) (3 - 1024 - 53) - E)
    with (Zpos (digits2_pos M) - 53) by lia.
  unfold shr. destruct (Zpos (digits2_pos M) - 53) as [| p | p] eqn:En; try lia.
  - eexists. split; [f_equal; lia |]. simpl. rewrite Z.div_1_r. reflexivity.
  - eexists. split; [f_equal; lia |].
    rewrite shr_iter_div by (simpl; lia). reflexivity.
Qed.

Lemma shr_fexp_second q t :
  -1074 <= t -> 2 ^ 52 <= q <= 2 ^ 53 ->
  exists mrs'' e'',
    shr_fexp PyFloat.prec PyFloat.emax q t loc_Exact = (mrs'', e'')
    /\ t <= e'' /\ 0 < shr_m mrs'' /\ shr_m mrs'' * 2 ^ (e'' - t) = q.
Proof.
  intros Ht [Hlo Hhi]. unfold shr_fexp, fexp, emin, PyFloat.prec, PyFloat.emax.
  destruct (Z.eq_dec q (2 ^ 53)) as [-> | Hq].
  - change (Zdigits2 (2 ^ 53)) with 54.
    replace (Z.max (54 + t - 53) (3 - 1024 - 53) - t) with 1 by lia.
    eexists _, _. split; [reflexivity |]. simpl shr_m.
    replace (t + 1 - t) with 1 by lia. split; [lia |]. split; reflexivity.
  - rewrite (Zdigits2_unique q 53) by (change (53 - 1) with 52; lia).
    replace (Z.max (53 + t - 53) (3 - 1024 - 53) - t) with 0 by lia.
    eexists _, _. split; [reflexivity |]. simpl shr_m.
    replace (t - t) with 0 by lia. rewrite Z.mul_1_r.
    assert (0 < 2 ^ 52) by reflexivity. repeat split; lia.
Qed.

Lemma binary_round_aux_enclosure M E :
  53 <= Zpos (digits2_pos M) -> -1074 <= E + Zpos (digits2_pos M) - 53 ->
  match binary_round_aux PyFloat.prec PyFloat.emax false (Zpos M) E loc_Exact with
  | S754_finite s m e =>
      s = false /\ E + Zpos (digits2_pos M) - 53 <= e
      /\ Zpos M / 2 ^ (Zpos (digits2_pos M) - 53)
         <= Zpos m * 2 ^ (e - (E + Zpos (digits2_pos M) - 53))
         <= Zpos M / 2 ^ (Zpos (digits2_pos M) - 53) + 1
  | S754_infinity _ => True
  | _ => False
  end.
Proof.
  intros Hd Ht. unfold binary_round_aux.
  destruct (shr_fexp_first M E Hd Ht) as (mrs' & -> & Hq).
  pose proof (digits2_pos_spec M) as [HM1 HM2].
  set (d := Zpos (digits2_pos M)) in *. set (t := E + d - 53) in *.
  assert (Hpow : 0 < 2 ^ (d - 53)) by (apply Z.pow_pos_nonneg; lia).
  assert (Hq1 : 2 ^ 52 <= shr_m mrs').
  { rewrite Hq. apply Z.div_le_lower_bound; [lia |].
    rewrite Z.mul_comm, <- Z.pow_add_r by lia.
    replace (52 + (d - 53)) with (d - 1) by lia. exact HM1. }
  assert (Hq2 : shr_m mrs' < 2 ^ 53).
  { rewrite Hq. apply Z.div_lt_upper_bound; [lia |].
    rewrite <- Z.pow_add_r by lia.
    replace (d - 53 + 53) with d by lia. exact HM2. }
  pose proof (round_nearest_even_ge (shr_m mrs') (loc_of_shr_record mrs')) as Hr1.
  pose proof (round_nearest_even_le (shr_m mrs') (loc_of_shr_record mrs')) as Hr2.
  destruct (shr_fexp_second (round_nearest_even (shr_m mrs') (loc_of_shr_record mrs'))
              t Ht ltac:(lia)) as (mrs'' & e'' & -> & He & Hpos & Hval).
  destruct (shr_m mrs'') as [| m | m]; try lia.
  destruct (e'' <=? PyFloat.emax - PyFloat.prec); [| exact I].
  split; [reflexivity |]. split; [exact He |]. rewrite Hval, <- Hq. lia.
Qed.

Lemma digits2_pos_mul_ge a b :
  Zpos (digits2_pos b) <= Zpos (digits2_pos (a * b)).
Proof.
  pose proof (digits2_pos_spec b) as [Hb _].
  pose proof (digits2_pos_spec (a * b)) as [_ Hab].
  assert (Zpos b <= Zpos (a * b)).
  { rewrite Pos2Z.inj_mul. replace (Zpos b) with (1 * Zpos b) at 1 by lia.
    apply Z.mul_le_mono_nonneg_r; lia. }
  assert (Zpos (digits2_pos b) - 1 < Zpos (digits2_pos (a * b))).
  { apply (Z.pow_lt_mono_r_iff 2); lia. }
  lia.
Qed.

Lemma floor_scaled_mono a b B : a <= b -> floor_scaled a B <= floor_scaled b B.
Proof.
  intros H. unfold floor_scaled. destruct (Z.leb_spec 0 B).
  - apply Z.mul_le_mono_nonneg_r; [apply Z.pow_nonneg; lia | exact H].
  - apply Z.div_le_mono; [apply Z.pow_pos_nonneg; lia | exact H].
Qed.

Lemma binary_round_aux_sign s m e l :
  match binary_round_aux PyFloat.prec PyFloat.emax s m e l with
  | S754_finite s' _ _ => s' = s
  | _ => True
  end.
Proof.
  unfold binary_round_aux.
  destruct (shr_fexp PyFloat.prec PyFloat.emax m e l) as [mrs' e'].
  destruct (shr_fexp PyFloat.prec PyFloat.emax _ e' loc_Exact) as [mrs'' e''].
  destruct (shr_m mrs''); try exact I.
  destruct (e'' <=? _); [reflexivity | exact I].
Qed.

Lemma to_int_nonneg m e v :
  PyFloat.to_int (S754_finite false m e) = Ok v -> 0 <= v.
Proof.
  rewrite (to_int_scaled m e e (Zpos m))
    by (try lia; rewrite Z.sub_diag; simpl; lia).
  intros [= <-]. unfold floor_scaled. destruct (Z.leb_spec 0 e).
  - apply Z.mul_nonneg_nonneg; [lia | apply Z.pow_nonneg; lia].
  - apply Z.div_pos; [lia | apply Z.pow_pos_nonneg; lia].
Qed.

Lemma to_int_bounded_zero x : bounded x 0 -> PyFloat.to_int x = Ok 0.
Proof.
  destruct x as [s | s | | s m e]; simpl; try tauto. intros H.
  pose proof (digits2_pos_spec m) as [_ Hm].
  destruct e as [| p | p]; try lia.
  f_equal. rewrite Z.shiftr_div_pow2 by lia.
  rewrite Z.div_small; [destruct s; reflexivity |]. split; [lia |].
  apply Z.lt_le_trans with (2 ^ Zpos (digits2_pos m)); [exact Hm |].
  apply Z.pow_le_mono_r; lia.
Qed.

Lemma pct_monotone mx ex mc1 ec1 mc2 ec2 v1 v2 :
  53 <= Zpos (digits2_pos mc1) -> 53 <= Zpos (digits2_pos mc2) ->
  104 * (Zpos mc1 * 2 ^ (ec1 - Z.min ec1 ec2))
  <= 100 * (Zpos mc2 * 2 ^ (ec2 - Z.min ec1 ec2)) ->
  PyFloat.to_int (S754_finite false mx ex ⊛ S754_finite false mc1 ec1) = Ok v1 ->
  PyFloat.to_int (S754_finite false mx ex ⊛ S754_finite false mc2 ec2) = Ok v2 ->
  v1 <= v2.
Proof.
  intros Hc1 Hc2 Hratio. unfold PyFloat.mul, SFmul. cbn [xorb].
  pose proof (digits2_pos_mul_ge mx mc1) as Hd1.
  pose proof (digits2_pos_mul_ge mx mc2) as Hd2.
  pose proof (digits2_pos_spec (mx * mc1)) as [HM1lo HM1hi].
  pose proof (digits2_pos_spec (mx * mc2)) as [HM2lo HM2hi].
  set (M1 := (mx * mc1)%positive) in *. set (M2 := (mx * mc2)%positive) in *.
  set (d1 := Zpos (digits2_pos M1)) in *. set (d2 := Zpos (digits2_pos M2)) in *.
  set (b := Z.min ec1 ec2) in *.
  set (a1 := ec1 - b) in *. set (a2 := ec2 - b) in *.
  assert (Ha1 : 0 <= a1) by (unfold a1, b; lia).
  assert (Ha2 : 0 <= a2) by (unfold a2, b; lia).
  assert (Hp1 : 0 < 2 ^ a1) by (apply Z.pow_pos_nonneg; lia).
  assert (Hp2 : 0 < 2 ^ a2) by (apply Z.pow_pos_nonneg; lia).
  (* the exact products on the common scale 2^(ex + b) *)
  assert (HA : 104 * (Zpos M1 * 2 ^ a1) <= 100 * (Zpos M2 * 2 ^ a2)).
  { unfold M1, M2. rewrite !Pos2Z.inj_mul.
    replace (104 * (Zpos mx * Zpos mc1 * 2 ^ a1))
      with (Zpos mx * (104 * (Zpos mc1 * 2 ^ a1))) by ring.
    replace (100 * (Zpos mx * Zpos mc2 * 2 ^ a2))
      with (Zpos mx * (100 * (Zpos mc2 * 2 ^ a2))) by ring.
    apply Z.mul_le_mono_nonneg_l; [lia | exact Hratio]. }
  assert (Hmag : d1 + a1 <= d2 + a2).
  { assert (H1 : 2 ^ (d1 - 1 + a1) <= Zpos M1 * 2 ^ a1).
    { rewrite Z.pow_add_r by lia. apply Z.mul_le_mono_nonneg_r; lia. }
    assert (H2 : Zpos M2 * 2 ^ a2 < 2 ^ (d2 + a2)).
    { rewrite Z.pow_add_r by lia. apply Z.mul_lt_mono_pos_r; lia. }
    assert (H3 : 2 ^ (d1 - 1 + a1) < 2 ^ (d2 + a2)) by lia.
    apply Z.pow_lt_mono_r_iff in H3; lia. }
  destruct (Z.le_gt_cases (d1 + (ex + ec1)) (-1)) as [Hsmall | Hbig].
  - (* the lower product is below one half *)
    intros H1 H2.
    assert (Hb : bounded (binary_round_aux PyFloat.prec PyFloat.emax false
                            (Zpos M1) (ex + ec1) loc_Exact) (-1 + 1)).
    { apply binary_round_aux_bounded; [| lia]. exists d1. lia. }
    rewrite (to_int_bounded_zero _ Hb) in H1. injection H1 as <-.
    pose proof (binary_round_aux_sign false (Zpos M2) (ex + ec2) loc_Exact) as Hs.
    destruct (binary_round_aux _ _ _ _ _ _) as [s | s | | s m e];
      try discriminate.
    + injection H2 as <-. lia.
    + subst s. eapply to_int_nonneg, H2.
  - pose proof (binary_round_aux_enclosure M1 (ex + ec1) ltac:(fold d1; lia)
                  ltac:(fold d1; lia)) as Hen1.
    pose proof (binary_round_aux_enclosure M2 (ex + ec2) ltac:(fold d2; lia)
                  ltac:(fold d2; unfold a1, a2 in Hmag; lia)) as Hen2.
    fold d1 in Hen1. fold d2 in Hen2.
    destruct (binary_round_aux _ _ _ (Zpos M1) _ _) as [s1 | s1 | | s1 m1 e1];
      try contradiction; try discriminate.
    destruct (binary_round_aux _ _ _ (Zpos M2) _ _) as [s2 | s2 | | s2 m2 e2];
      try contradiction; try discriminate.
    destruct Hen1 as (-> & He1 & Hq1lo & Hq1hi).
    destruct Hen2 as (-> & He2 & Hq2lo & Hq2hi).
    set (B := ex + b) in *.
    assert (HB1 : B <= ex + ec1 + d1 - 53) by (unfold B, a1 in *; lia).
    assert (HB2 : B <= ex + ec2 + d2 - 53) by (unfold B, a2 in *; lia).
    rewrite (to_int_scaled m1 e1 B _ ltac:(lia) eq_refl).
    rewrite (to_int_scaled m2 e2 B _ ltac:(lia) eq_refl).
    intros [= <-] [= <-]. apply floor_scaled_mono.
    (* split the scalings *)
    set (n1 := d1 - 53) in *. set (n2 := d2 - 53) in *.
    replace (e1 - B) with ((e1 - (ex + ec1 + d1 - 53)) + (n1 + a1))
      by (unfold n1, a1, B; lia).
    replace (e2 - B) with ((e2 - (ex + ec2 + d2 - 53)) + (n2 + a2))
      by (unfold n2, a2, B; lia).
    rewrite !Z.pow_add_r, !Z.mul_assoc by lia.
    set (q1 := Zpos m1 * 2 ^ (e1 - (ex + ec1 + d1 - 53))) in *.
    set (q2 := Zpos m2 * 2 ^ (e2 - (ex + ec2 + d2 - 53))) in *.
    assert (Hn1 : 0 < 2 ^ n1) by (apply Z.pow_pos_nonneg; unfold n1; lia).
    assert (Hn2 : 0 < 2 ^ n2) by (apply Z.pow_pos_nonneg; unfold n2; lia).
    pose proof (Z.mul_div_le (Zpos M1) (2 ^ n1) Hn1) as Hf1.
    pose proof (Z.mul_succ_div_gt (Zpos M2) (2 ^ n2) Hn2) as Hf2.
    assert (HU1 : 2 ^ 52 * 2 ^ n1 <= Zpos M1).
    { rewrite <- Z.pow_add_r by (unfold n1; lia).
      replace (52 + n1) with (d1 - 1) by (unfold n1; lia). exact HM1lo. }
    assert (HU2 : 2 ^ 52 * 2 ^ n2 <= Zpos M2).
    { rewrite <- Z.pow_add_r by (unfold n2; lia).
      replace (52 + n2) with (d2 - 1) by (unfold n2; lia). exact HM2lo. }
    change (2 ^ 52) with 4503599627370496 in HU1, HU2.
    assert (Hleft : q1 * 2 ^ n1 <= Zpos M1 + 2 ^ n1).
    { apply Z.le_trans with ((Zpos M1 / 2 ^ n1 + 1) * 2 ^ n1);
        [apply Z.mul_le_mono_nonneg_r; lia |].
      rewrite Z.mul_add_distr_r, (Z.mul_comm (Zpos M1 / 2 ^ n1)). lia. }
    assert (Hright : Zpos M2 - 2 ^ n2 <= q2 * 2 ^ n2).
    { apply Z.le_trans with (Zpos M2 / 2 ^ n2 * 2 ^ n2);
        [| apply Z.mul_le_mono_nonneg_r; lia].
      unfold Z.succ in Hf2. rewrite Z.mul_add_distr_l in Hf2.
      rewrite (Z.mul_comm (Zpos M2 / 2 ^ n2)). lia. }
    apply Z.le_trans with ((Zpos M1 + 2 ^ n1) * 2 ^ a1);
      [apply Z.mul_le_mono_nonneg_r; lia |].
    apply Z.le_trans with ((Zpos M2 - 2 ^ n2) * 2 ^ a2);
      [| apply Z.mul_le_mono_nonneg_r; lia].
    assert (HV1 : 4503599627370496 * (2 ^ n1 * 2 ^ a1) <= Zpos M1 * 2 ^ a1).
    { rewrite Z.mul_assoc. apply Z.mul_le_mono_nonneg_r; lia. }
    assert (HV2 : 4503599627370496 * (2 ^ n2 * 2 ^ a2) <= Zpos M2 * 2 ^ a2).
    { rewrite Z.mul_assoc. apply Z.mul_le_mono_nonneg_r; lia. }
    rewrite Z.mul_add_distr_r, Z.mul_sub_distr_r.
    assert (0 <= 2 ^ n1 * 2 ^ a1) by (apply Z.mul_nonneg_nonneg; lia).
    assert (0 <= 2 ^ n2 * 2 ^ a2) by (apply Z.mul_nonneg_nonneg; lia).
    lia.
Qed.

Lemma pct_zero s n v :
  In n [62; 77; 86; 91; 95; 103] -> pct (S754_zero s) n = Ok v -> v = 0.
Proof.
  intros Hn. destruct (lit_finite_positive n Hn) as (m & e & Hlit).
  unfold pct. rewrite Hlit. unfold PyFloat.mul. simpl. intros [= <-]. reflexivity.
Qed.

Lemma pct_le lthr n1 n2 v1 v2 :
  In (n1, n2) [(62, 77); (77, 86); (86, 91); (91, 95); (95, 103)] ->
  nonneg lthr = true ->
  pct lthr n1 = Ok v1 -> pct lthr n2 = Ok v2 -> v1 <= v2.
Proof.
  intros Hn Hsign H1 H2.
  destruct lthr as [s | s | | [] mx ex]; try discriminate.
  { assert (In n1 [62; 77; 86; 91; 95; 103] /\ In n2 [62; 77; 86; 91; 95; 103]) as [I1 I2].
    { simpl in Hn. simpl.
      repeat (destruct Hn as [[= <- <-] | Hn]; [tauto |]). destruct Hn. }
    rewrite (pct_zero s n1 v1 I1 H1), (pct_zero s n2 v2 I2 H2). lia. }
  unfold pct in H1, H2. simpl in Hn.
  repeat (destruct Hn as [[= <- <-] | Hn];
    [ match type of H1 with
      | context [PyFloat.lit ?a ?b] =>
          let c := eval vm_compute in (PyFloat.lit a b) in
          change (PyFloat.lit a b) with c in H1
      end;
      match type of H2 with
      | context [PyFloat.lit ?a ?b] =>
          let c := eval vm_compute in (PyFloat.lit a b) in
          change (PyFloat.lit a b) with c in H2
      end;
      refine (pct_monotone _ _ _ _ _ _ _ _ _ _ _ H1 H2); vm_compute; discriminate
    |]).
  destruct Hn.
Qed.

Lemma calculate_heart_rate_zones_ordered lthr zones :
  nonneg lthr = true ->
  calculate_heart_rate_zones lthr = Ok zones ->
  Forall (fun kz => fst (range (snd kz)) <= snd (range (snd kz))) zones.
Proof.
  intros Hsign H. unfold calculate_heart_rate_zones in H.
  repeat match type of H with
  | rbind (pct lthr ?n) _ = Ok _ =>
      let v := fresh "v" in
      let E := fresh "E" in
      apply rbind_inv in H as (v & E & H)
  end.
  injection H as <-.
  repeat constructor; simpl;
    eapply (pct_le lthr); try eassumption; simpl; tauto.
Qed.

(** X16. The bands of a threshold that is not negative run upwards:
    whenever the band generator returns bands for a zero or positive
    finite threshold, the lower bound of every band is at most its upper
    bound. (Products are rounded to the nearest float and then
    truncated; the percentages of one band differ by more than 4 %,
    which no rounding can make up.) *)
Theorem bands_of_nonnegative_threshold_run_upwards lthr zones :
  nonneg lthr = true ->
  calculate_heart_rate_zones lthr = Ok zones ->
  Forall (fun kz => fst (range (snd kz)) <= snd (range (snd kz))) zones.
Proof. apply calculate_heart_rate_zones_ordered. Qed.

Lemma bands_of_nonnegative_threshold_run_upwards_witness :
  Forall (fun kz => fst (range (snd kz)) <= snd (range (snd kz))) zones_150.
Proof.
  apply (bands_of_nonnegative_threshold_run_upwards (PyFloat.of_int 150) zones_150).
  - reflexivity.
  - vm_compute. reflexivity.
Defined.

Lemma last_value_In k r v : last_value k r = Some v -> In (k, v) r.
Proof.
  unfold last_value. destruct (List.find _ (rev r)) as [f |] eqn:E; [| discriminate].
  intros [= <-]. apply find_some in E as [Hin Hk].
  apply String.eqb_eq in Hk. subst k. apply in_rev in Hin.
  destruct f; exact Hin.
Qed.

Lemma data_point_heart_rate r n :
  hr_bytes r = true -> cell "heart_rate" (data_point r) = VInt n -> 0 <= n <= 255.
Proof.
  intros Hr Hc. unfold cell, data_point in Hc. rewrite collect_fold_get in Hc.
  change (str_in "heart_rate" RECORD_FIELDS) with true in Hc.
  destruct (last_value "heart_rate" r) as [v |] eqn:E; [| discriminate].
  simpl in Hc. subst v. apply last_value_In in E.
  unfold hr_bytes in Hr. rewrite forallb_forall in Hr. specialize (Hr _ E).
  unfold hr_byte in Hr. simpl in Hr. lia.
Qed.

Lemma parse_fit_file_heart_rate argsort rs df :
  forallb profile_record rs = true ->
  forallb hr_bytes rs = true ->
  parse_fit_file argsort rs = Some df ->
  Forall (fun row => forall n, cell "heart_rate" row = VInt n -> 0 <= n <= 255)
         (rows df).
Proof.
  intros Hprof Hbytes Hparse.
  destruct (parse_fit_file_columns _ _ _ Hparse) as [_ Hne].
  destruct (parse_fit_file_pipeline argsort rs Hprof Hne) as (keys & _ & Hdf).
  rewrite Hparse in Hdf. injection Hdf as ->. simpl.
  apply List.Forall_forall. intros row Hrow n Hn.
  apply in_map_iff in Hrow as (dp & <- & Hdp). apply take_at_In in Hdp.
  rewrite cell_heart_rate_convert_row, cell_fill in Hn.
  destruct (str_in "heart_rate" (union_keys (all_data rs))); [| discriminate].
  rewrite all_data_filter in Hdp. apply in_map_iff in Hdp as (r & <- & Hr).
  apply filter_In in Hr as [Hr _].
  rewrite forallb_forall in Hbytes.
  exact (data_point_heart_rate r n (Hbytes r Hr) Hn).
Qed.

Lemma window_values_bytes df :
  Forall (fun row => forall n, cell "heart_rate" row = VInt n -> 0 <= n <= 255)
         (rows df) ->
  Forall (fun v => 0 <= v <= 255) (window_values df).
Proof.
  intros H. unfold window_values. destruct (last (times df)); [| constructor].
  apply List.Forall_forall. intros v Hv.
  apply list_elem_of_In, list_elem_of_omap in Hv as (row & Hrow & Hhr).
  apply list_elem_of_In, filter_In in Hrow as [Hrow _].
  rewrite List.Forall_forall in H. apply (H row Hrow).
  unfold row_hr in Hhr. destruct (cell "heart_rate" row); congruence.
Qed.

Lemma sumZ_bytes vs :
  Forall (fun v => 0 <= v <= 255) vs -> 0 <= sumZ vs <= 255 * Z.of_nat (length vs).
Proof.
  induction 1 as [| v vs Hv _ IH]; simpl sumZ; simpl length; lia.
Qed.

Lemma zero_div_finite s sy my ey :
  S754_zero s ⊘ S754_finite sy my ey = S754_zero (xorb s sy).
Proof. reflexivity. Qed.

Lemma mean_bounded vs :
  vs <> [] -> Forall (fun v => 0 <= v <= 255) vs ->
  Z.of_nat (length vs) < 2 ^ 45 ->
  bounded (PyFloat.of_int (sumZ vs) ⊘ PyFloat.of_int (Z.of_nat (length vs))) 54.
Proof.
  intros Hne Hvs Hlen. pose proof (sumZ_bytes vs Hvs) as Hsum.
  assert (Hpow : 255 * 2 ^ 45 < 2 ^ 53) by reflexivity.
  assert (Hn : 0 < Z.of_nat (length vs) < 2 ^ 53).
  { destruct vs; [contradiction |]. simpl length in *. lia. }
  destruct (of_int_magnitude _ Hn) as (m2 & e2 & -> & Hmag2).
  assert (Hd2 : 1 <= Zpos (digits2_pos m2) + e2).
  { rewrite Hmag2. destruct (Z.of_nat (length vs)); simpl; lia. }
  destruct (Z.eq_dec (sumZ vs) 0) as [-> | Hs].
  { change (PyFloat.of_int 0) with (S754_zero false). exact I. }
  assert (Hs' : 0 < sumZ vs < 2 ^ 53) by lia.
  destruct (of_int_magnitude _ Hs') as (m1 & e1 & -> & Hmag1).
  apply (div_bounded (S754_finite false m1 e1) false m2 e2 53 1).
  - simpl. rewrite Hmag1. apply Zdigits2_bound; lia.
  - exact Hd2.
  - lia.
Qed.

Lemma bands_of_bounded_threshold avg :
  bounded avg 54 ->
  exists zones,
    calculate_heart_rate_zones (avg ⊛ PyFloat.lit 95 100) = Ok zones.
Proof.
  intros Havg.
  assert (Hl : bounded (avg ⊛ PyFloat.lit 95 100) 55).
  { apply (mul_bounded avg (PyFloat.lit 95 100) 54 0 Havg); [| lia].
    vm_compute. discriminate. }
  apply calculate_heart_rate_zones_total.
  repeat constructor;
    apply (bounded_finite _ 57);
    apply (mul_bounded _ _ 55 1 Hl); try lia; vm_compute; discriminate.
Qed.

Lemma mul_sign x y :
  nonneg x = true -> nonneg y = true ->
  match x ⊛ y with
  | S754_finite s _ _ => s = false
  | _ => True
  end.
Proof.
  destruct x as [sx | sx | | [] mx ex], y as [sy | sy | | [] my ey];
    try discriminate; intros _ _; try exact I.
  unfold PyFloat.mul, SFmul. cbn [xorb].
  apply (binary_round_aux_sign false).
Qed.

Lemma div_sign x my ey :
  nonneg x = true ->
  match x ⊘ S754_finite false my ey with
  | S754_finite s _ _ => s = false
  | _ => True
  end.
Proof.
  destruct x as [sx | sx | | [] mx ex]; try discriminate; intros _; try exact I.
  unfold PyFloat.div, SFdiv. cbn [xorb].
  destruct (SFdiv_core_binary _ _ _ _ _ _) as [[mz ez] lz].
  apply (binary_round_aux_sign false).
Qed.

Lemma bounded_nonneg x k :
  bounded x k ->
  match x with S754_finite s _ _ => s = false | _ => True end ->
  nonneg x = true.
Proof. destruct x as [| | | [] m e]; simpl; try tauto; discriminate. Qed.

Lemma mean_nonneg vs :
  vs <> [] -> Forall (fun v => 0 <= v <= 255) vs ->
  Z.of_nat (length vs) < 2 ^ 45 ->
  nonneg (PyFloat.of_int (sumZ vs) ⊘ PyFloat.of_int (Z.of_nat (length vs))) = true.
Proof.
  intros Hne Hvs Hlen. apply (bounded_nonneg _ 54); [apply mean_bounded; assumption |].
  pose proof (sumZ_bytes vs Hvs) as Hsum.
  assert (Hpow : 255 * 2 ^ 45 < 2 ^ 53) by reflexivity.
  assert (Hn : 0 < Z.of_nat (length vs) < 2 ^ 53).
  { destruct vs; [contradiction |]. simpl length in *. lia. }
  destruct (of_int_magnitude _ Hn) as (m2 & e2 & -> & _).
  apply div_sign.
  destruct (Z.eq_dec (sumZ vs) 0) as [-> | Hs]; [reflexivity |].
  assert (Hs' : 0 < sumZ vs < 2 ^ 53) by lia.
  destruct (of_int_magnitude _ Hs') as (m1 & e1 & -> & _). reflexivity.
Qed.

Lemma threshold_nonneg avg :
  bounded avg 54 -> nonneg avg = true -> nonneg (avg ⊛ PyFloat.lit 95 100) = true.
Proof.
  intros Hb Hs. apply (bounded_nonneg _ 55).
  - apply (mul_bounded avg (PyFloat.lit 95 100) 54 0 Hb); [| lia].
    vm_compute. discriminate.
  - apply mul_sign; [exact Hs | reflexivity].
Qed.

Lemma parse_fit_file_no_timestamp argsort rs :
  existsb has_timestamp rs = false -> parse_fit_file argsort rs = None.
Proof.
  intros H. apply existsb_false_forallb, all_data_nil in H.
  unfold parse_fit_file, parse_fit_file_try. rewrite H. reflexivity.
Qed.

(** X15. The analysis of an upload never ends in the exception branch:
    on record messages with the payload types of the FIT profile, heart
    rates in 0..255 and fewer than 2^45 records, parsing, estimating and
    generating the bands all succeed. The outcome is the message "no
    data" exactly when no record message holds a timestamp; otherwise it
    is the message "no threshold" or an estimate whose mean and duration
    are present, whose threshold is the mean times 0.95 and not
    negative, and for which the band generator returned, without
    overflow, five bands that run upwards. *)
Theorem analysis_never_fails argsort rs :
  argsort_ok argsort ->
  forallb profile_record rs = true ->
  forallb hr_bytes rs = true ->
  Z.of_nat (length rs) < 2 ^ 45 ->
  exists r,
    analyse argsort rs = Ok r
    /\ (r = NoData <-> existsb has_timestamp rs = false)
    /\ forall avg lthr minutes zones,
         r = Analysed avg lthr minutes zones ->
         (exists a m, avg = Some a /\ minutes = Some m
                      /\ lthr = a ⊛ PyFloat.lit 95 100)
         /\ nonneg lthr = true
         /\ calculate_heart_rate_zones lthr = Ok zones
         /\ Forall (fun kz => fst (range (snd kz)) <= snd (range (snd kz))) zones.
Proof.
  intros Hsort Hprof Hbytes Hlen. unfold analyse.
  destruct (existsb has_timestamp rs) eqn:Ets.
  2:{ rewrite (parse_fit_file_no_timestamp argsort rs Ets).
      exists NoData. split; [reflexivity |]. split; [tauto | discriminate]. }
  destruct (parse_fit_file_sorted argsort rs Hsort Hprof Ets)
    as (df & Hparse & _ & _ & _ & _ & Hrows & _).
  rewrite Hparse.
  assert (Hnorm : normalized df = true).
  { eapply parse_fit_file_normalized; try eassumption.
    assert (2 ^ 45 < 2 ^ 53) by reflexivity. lia. }
  pose proof (parse_fit_file_nonempty argsort rs df Hsort Hprof Hparse) as Hne.
  destruct (Nat.ltb_spec 0 (len df)) as [_ | Hz]; [| lia].
  rewrite (estimate_normalized df Hnorm Hne), rbind_ok.
  destruct (window_estimate_cases df Hnorm Hne) as (t0 & t1 & _ & _ & Hest).
  pose proof (window_values_bytes df
                (parse_fit_file_heart_rate argsort rs df Hprof Hbytes Hparse)) as Hvals.
  destruct (window_values df) as [| v vs] eqn:Evs; rewrite Hest.
  { exists NoThreshold. split; [reflexivity |].
    split; [split; discriminate | discriminate]. }
  assert (Hcount : Z.of_nat (length (v :: vs)) < 2 ^ 45).
  { rewrite <- Evs. unfold window_values. destruct (last (times df)); [| simpl; lia].
    pose proof (omap_filter_length row_hr (in_window z) (rows df)) as Hle.
    pose proof (filter_length_le has_timestamp rs) as Hle'.
    unfold len in Hrows. lia. }
  pose proof (mean_bounded (v :: vs) ltac:(discriminate) Hvals Hcount) as Hb.
  pose proof (mean_nonneg (v :: vs) ltac:(discriminate) Hvals Hcount) as Hs.
  destruct (bands_of_bounded_threshold _ Hb) as (zones & Hzones).
  rewrite Hzones, rbind_ok. eexists. split; [reflexivity |].
  split; [split; discriminate |].
  intros avg lthr minutes zones' [= <- <- <- <-].
  pose proof (threshold_nonneg _ Hb Hs) as Hl.
  split; [eauto |]. split; [exact Hl |]. split; [exact Hzones |].
  exact (calculate_heart_rate_zones_ordered _ _ Hl Hzones).
Qed.

Lemma analysis_never_fails_witness :
  exists r,
    analyse merge_argsort two_bags_one_instant = Ok r
    /\ (r = NoData <-> existsb has_timestamp two_bags_one_instant = false).
Proof.
  destruct (analysis_never_fails merge_argsort two_bags_one_instant)
    as (r & H & Hiff & _).
  - exact merge_argsort_ok.
  - reflexivity.
  - reflexivity.
  - reflexivity.
  - exists r. split; assumption.
Defined.

(** ** Further properties: the file names of [load_race_data] *)




Lemma app_cons a (s t : string) : (String a s ++ t)%string = String a (s ++ t).
Proof. reflexivity. Qed.






Lemma length_app (x y : string) :
  String.length (x ++ y) = (String.length x + String.length y)%nat.
Proof.
  induction x as [| a x IH]; [reflexivity |].
  rewrite app_cons. simpl. rewrite IH. reflexivity.
Qed.







Lemma prefix_nil_r a q : String.prefix (String a q) "" = false.
Proof. reflexivity. Qed.




























